(** * The note pipeline of [scripts/02_generate_notes.py]

    A shallow embedding of the structured-note pipeline: the text
    clean-up at the head of [validate_and_save_notes], the JSON reading
    and writing it delegates to Python's [json] module, the pydantic
    models [Note] and [NotesResponse], and the function itself with its
    console output and its single file write.

    Python strings are sequences of Unicode code points and are modelled
    as lists of [N]; Python integers are [Z]; a [dict] is an association
    list in insertion order with distinct keys; the file system is a
    finite map from paths to files. *)

From Stdlib Require Import ZArith NArith List Ascii String Bool Lia.
From Stdlib Require Import DecimalString DecimalFacts DecimalPos DecimalZ.
From stdpp Require Import base option list gmap.

Local Open Scope Z_scope.

(** ** Python strings *)

Module PyStr.

Definition char := N.
Definition str := list N.

Definition lit (s : string) : str := map N_of_ascii (list_ascii_of_string s).

Definition len (s : str) : Z := Z.of_nat (length s).

(** [Py_UNICODE_ISSPACE]: the code points [str.strip()] removes. *)
Definition isspace (c : char) : bool :=
  ((9 <=? c) && (c <=? 13) || (28 <=? c) && (c <=? 32)
   || (c =? 133) || (c =? 160) || (c =? 5760)
   || (8192 <=? c) && (c <=? 8202)
   || (c =? 8232) || (c =? 8233) || (c =? 8239) || (c =? 8287)
   || (c =? 12288))%N.

Fixpoint lstrip (s : str) : str :=
  match s with
  | c :: r => if isspace c then lstrip r else s
  | [] => []
  end.

Definition rstrip (s : str) : str := rev (lstrip (rev s)).

(** [s.strip()] *)
Definition strip (s : str) : str := rstrip (lstrip s).

Definition char_eqb (a b : char) : bool := (a =? b)%N.

(** [s.startswith(p)] *)
Fixpoint startswith (s p : str) {struct p} : bool :=
  match p, s with
  | [], _ => true
  | _ :: _, [] => false
  | a :: p', b :: s' => char_eqb a b && startswith s' p'
  end.

Fixpoint find_from (i : Z) (s sub : str) : Z :=
  if startswith s sub then i
  else match s with
       | [] => -1
       | _ :: r => find_from (i + 1) r sub
       end.

(** [s.find(sub)]: the lowest index where [sub] occurs, or [-1]. *)
Definition find (s sub : str) : Z := find_from 0 s sub.

Fixpoint rfind_from (i : Z) (s sub : str) : Z :=
  match s with
  | [] => if startswith [] sub then i else -1
  | _ :: r =>
      let j := rfind_from (i + 1) r sub in
      if 0 <=? j then j else if startswith s sub then i else -1
  end.

(** [s.rfind(sub)]: the highest index where [sub] occurs, or [-1]. *)
Definition rfind (s sub : str) : Z := rfind_from 0 s sub.

(** A slice bound as Python clamps it: negative bounds count from the
    end, and every bound is brought into [0 .. len]. *)
Definition clamp (n i : Z) : Z :=
  if i <? 0 then Z.max 0 (i + n) else Z.min i n.

(** [s[a:b]] *)
Definition slice (s : str) (a b : Z) : str :=
  let a' := clamp (len s) a in
  let b' := clamp (len s) b in
  take (Z.to_nat (b' - a')) (drop (Z.to_nat a') s).

(** [s[a:]] *)
Definition slice_from (s : str) (a : Z) : str :=
  drop (Z.to_nat (clamp (len s) a)) s.

(** [s[:b]] *)
Definition slice_to (s : str) (b : Z) : str :=
  take (Z.to_nat (clamp (len s) b)) s.

End PyStr.

Import PyStr.

(** ** The response clean-up of [validate_and_save_notes] (lines 127-146) *)

Definition fence_json : str := lit "```json".
Definition fence : str := lit "```".
Definition lbrace : str := lit "{".

(** The value of [cleaned_json] when [json.loads] is reached. *)
Definition sanitize (notes_json_str : str) : str :=
  let cleaned_json := strip notes_json_str in
  let cleaned_json :=
    if startswith cleaned_json fence_json then
      let start_idx := find cleaned_json fence_json + 7 in
      let end_idx := rfind cleaned_json fence in
      if end_idx >? start_idx
      then strip (slice cleaned_json start_idx end_idx)
      else cleaned_json
    else if startswith cleaned_json fence then
      let start_idx := find cleaned_json fence + 3 in
      let end_idx := rfind cleaned_json fence in
      if end_idx >? start_idx
      then strip (slice cleaned_json start_idx end_idx)
      else cleaned_json
    else cleaned_json in
  if find cleaned_json lbrace >? 0
  then slice_from cleaned_json (find cleaned_json lbrace)
  else cleaned_json.

(** The two steps of the clean-up after the trimming, each on its own:
    the removal of a fence pair (lines 131-142) and the removal of what
    stands before the first brace (lines 145-146). *)
Definition strip_fences (cleaned_json : str) : str :=
  if startswith cleaned_json fence_json then
    let start_idx := find cleaned_json fence_json + 7 in
    let end_idx := rfind cleaned_json fence in
    if end_idx >? start_idx
    then strip (slice cleaned_json start_idx end_idx)
    else cleaned_json
  else if startswith cleaned_json fence then
    let start_idx := find cleaned_json fence + 3 in
    let end_idx := rfind cleaned_json fence in
    if end_idx >? start_idx
    then strip (slice cleaned_json start_idx end_idx)
    else cleaned_json
  else cleaned_json.

Definition drop_prose (cleaned_json : str) : str :=
  if find cleaned_json lbrace >? 0
  then slice_from cleaned_json (find cleaned_json lbrace)
  else cleaned_json.

(** ** Python's [json] module: number and string tokens

    Characters are written as code points: 9 tab, 10 line feed, 13
    carriage return, 32 space, 34 double quote, 43 plus, 44 comma,
    45 minus, 46 dot, 47 slash, 48-57 the digits, 58 colon, 69 E,
    91 and 93 the square brackets, 92 backslash, 96 backtick, 101 e,
    117 u, 123 and 125 the braces, 65279 the byte-order mark. *)

Module Lex.

Definition is_ws (c : char) : bool :=
  ((c =? 32) || (c =? 9) || (c =? 10) || (c =? 13))%N.

Fixpoint skip_ws (s : str) : str :=
  match s with
  | c :: r => if is_ws c then skip_ws r else s
  | [] => []
  end.

Definition isdigit (c : char) : bool := ((48 <=? c) && (c <=? 57))%N.

Fixpoint span_digits (s : str) : str * str :=
  match s with
  | c :: r =>
      if isdigit c then let '(d, r') := span_digits r in (c :: d, r')
      else ([], s)
  | [] => ([], [])
  end.

(** [_match_number_unicode] reads a number literal in four steps; each
    step returns what it read and the text left. *)

(** An optional minus sign. *)
Definition lex_sign (s : str) : str * str :=
  match s with
  | c :: r => if (c =? 45)%N then ([c], r) else ([], s)
  | [] => ([], s)
  end.

(** The integer digits: a run that starts with 1-9, or a single 0. *)
Definition lex_int (s : str) : option (str * str) :=
  match s with
  | [] => None
  | c :: r =>
      if ((49 <=? c) && (c <=? 57))%N
      then let '(d, r') := span_digits r in Some (c :: d, r')
      else if (c =? 48)%N then Some ([c], r) else None
  end.

(** A fraction, when a dot is followed by a digit. *)
Definition lex_frac (s : str) : str * str :=
  match s with
  | dot :: d :: r =>
      if (dot =? 46)%N && isdigit d
      then let '(ds, r') := span_digits (d :: r) in (dot :: ds, r')
      else ([], s)
  | _ => ([], s)
  end.

(** An exponent: e or E, an optional sign, and at least one digit;
    without a digit nothing is read. *)
Definition lex_exp (s : str) : str * str :=
  match s with
  | e :: r =>
      if ((e =? 101) || (e =? 69))%N then
        let '(sg, r1) :=
          match r with
          | g :: r1 => if ((g =? 45) || (g =? 43))%N then ([g], r1) else ([], r)
          | [] => ([], r)
          end in
        let '(ds, r2) := span_digits r1 in
        match ds with
        | [] => ([], s)
        | _ :: _ => (e :: sg ++ ds, r2)
        end
      else ([], s)
  | [] => ([], s)
  end.

Definition is_nil (s : str) : bool :=
  match s with
  | [] => true
  | _ :: _ => false
  end.

(** The result is a flag telling whether a fraction or an exponent was
    read, the literal, and the text after it. *)
Definition match_number (s : str) : option (bool * str * str) :=
  let '(sign, s1) := lex_sign s in
  match lex_int s1 with
  | None => None
  | Some (ip, s2) =>
      let '(frac, s3) := lex_frac s2 in
      let '(ex, s4) := lex_exp s3 in
      Some (negb (is_nil frac && is_nil ex), sign ++ ip ++ frac ++ ex, s4)
  end.

Definition digit_char (d : N) : char := (48 + d)%N.

Fixpoint uint_chars (d : Decimal.uint) : str :=
  match d with
  | Decimal.Nil => []
  | Decimal.D0 r => digit_char 0 :: uint_chars r
  | Decimal.D1 r => digit_char 1 :: uint_chars r
  | Decimal.D2 r => digit_char 2 :: uint_chars r
  | Decimal.D3 r => digit_char 3 :: uint_chars r
  | Decimal.D4 r => digit_char 4 :: uint_chars r
  | Decimal.D5 r => digit_char 5 :: uint_chars r
  | Decimal.D6 r => digit_char 6 :: uint_chars r
  | Decimal.D7 r => digit_char 7 :: uint_chars r
  | Decimal.D8 r => digit_char 8 :: uint_chars r
  | Decimal.D9 r => digit_char 9 :: uint_chars r
  end.

Definition digit_cons (c : char) (r : Decimal.uint) : Decimal.uint :=
  if (c =? 48)%N then Decimal.D0 r else if (c =? 49)%N then Decimal.D1 r
  else if (c =? 50)%N then Decimal.D2 r else if (c =? 51)%N then Decimal.D3 r
  else if (c =? 52)%N then Decimal.D4 r else if (c =? 53)%N then Decimal.D5 r
  else if (c =? 54)%N then Decimal.D6 r else if (c =? 55)%N then Decimal.D7 r
  else if (c =? 56)%N then Decimal.D8 r else Decimal.D9 r.

Fixpoint chars_uint (s : str) : Decimal.uint :=
  match s with
  | [] => Decimal.Nil
  | c :: r => digit_cons c (chars_uint r)
  end.

(** [int.__repr__] *)
Definition int_repr (n : Z) : str :=
  match Z.to_int n with
  | Decimal.Pos d => uint_chars d
  | Decimal.Neg d => 45%N :: uint_chars d
  end.

(** [int(s)] on an integer literal read by [match_number]. *)
Definition int_of_str (s : str) : Z :=
  match s with
  | c :: r =>
      if (c =? 45)%N then Z.of_int (Decimal.Neg (chars_uint r))
      else Z.of_int (Decimal.Pos (chars_uint s))
  | [] => 0
  end.

Definition hexval (c : char) : option N :=
  if ((48 <=? c) && (c <=? 57))%N then Some (c - 48)%N
  else if ((97 <=? c) && (c <=? 102))%N then Some (c - 87)%N
  else if ((65 <=? c) && (c <=? 70))%N then Some (c - 55)%N
  else None.

Definition hex4 (a b c d : char) : option N :=
  match hexval a, hexval b, hexval c, hexval d with
  | Some x, Some y, Some z, Some w => Some (((x * 16 + y) * 16 + z) * 16 + w)%N
  | _, _, _, _ => None
  end.

Definition is_high_surrogate (c : N) : bool := ((55296 <=? c) && (c <=? 56319))%N.
Definition is_low_surrogate (c : N) : bool := ((56320 <=? c) && (c <=? 57343))%N.
Definition join_surrogates (hi lo : N) : N :=
  (65536 + (hi - 55296) * 1024 + (lo - 56320))%N.

(** The character a backslash escape other than [\u] stands for. *)
Definition simple_escape (e : char) : option char :=
  if (e =? 34)%N then Some 34%N else if (e =? 92)%N then Some 92%N
  else if (e =? 47)%N then Some 47%N else if (e =? 98)%N then Some 8%N
  else if (e =? 102)%N then Some 12%N else if (e =? 110)%N then Some 10%N
  else if (e =? 114)%N then Some 13%N else if (e =? 116)%N then Some 9%N
  else None.

Definition prepend (c : char) (r : option (str * str)) : option (str * str) :=
  match r with
  | Some (x, rest) => Some (c :: x, rest)
  | None => None
  end.

(** [scanstring] in strict mode, started after the opening quote:
    the decoded string and the text after the closing quote. *)
Fixpoint scanstring (s : str) : option (str * str) :=
  match s with
  | [] => None
  | c :: r =>
      if (c =? 34)%N then Some ([], r)
      else if (c =? 92)%N then
        match r with
        | [] => None
        | e :: r1 =>
            if (e =? 117)%N then
              match r1 with
              | h1 :: h2 :: h3 :: h4 :: r2 =>
                  match hex4 h1 h2 h3 h4 with
                  | None => None
                  | Some u =>
                      match r2 with
                      | b :: u' :: g1 :: g2 :: g3 :: g4 :: r3 =>
                          if is_high_surrogate u && (b =? 92)%N && (u' =? 117)%N then
                            match hex4 g1 g2 g3 g4 with
                            | None => None
                            | Some u2 =>
                                if is_low_surrogate u2
                                then prepend (join_surrogates u u2) (scanstring r3)
                                else prepend u (scanstring r2)
                            end
                          else prepend u (scanstring r2)
                      | _ => prepend u (scanstring r2)
                      end
                  end
              | _ => None
              end
            else
              match simple_escape e with
              | Some x => prepend x (scanstring r1)
              | None => None
              end
        end
      else if (c <=? 31)%N then None
      else prepend c (scanstring r)
  end.

Definition hexdigit (n : N) : char := if (n <? 10)%N then (48 + n)%N else (87 + n)%N.

(** [ESCAPE_DCT]: the replacement of one character by [encode_basestring]. *)
Definition escape_char (c : char) : str :=
  if (c =? 92)%N then [92; 92]%N
  else if (c =? 34)%N then [92; 34]%N
  else if (c =? 8)%N then [92; 98]%N
  else if (c =? 12)%N then [92; 102]%N
  else if (c =? 10)%N then [92; 110]%N
  else if (c =? 13)%N then [92; 114]%N
  else if (c =? 9)%N then [92; 116]%N
  else if (c <? 32)%N then [92; 117; 48; 48; hexdigit (c / 16); hexdigit (c mod 16)]%N
  else [c].

(** [encode_basestring], the string encoder when [ensure_ascii=False]. *)
Definition encode_basestring (s : str) : str :=
  34%N :: flat_map escape_char s ++ [34%N].

End Lex.

Import Lex.

(** ** Python floats

    The pipeline never computes with a float: [json.loads] builds one
    from a number literal with [float(s)], [json.dump] prints it with
    [float.__repr__], and pydantic asks whether it is a whole number.
    The float type is therefore an interface, for the floats that
    [json.loads] can produce.  Its laws are the facts the [json] module
    relies on: the [repr] of a finite float is a number literal with a
    fraction or an exponent, reading that literal gives the float back,
    and there is one NaN and one infinity of each sign. *)

Inductive float_kind := FNaN | FInf | FNegInf | FFinite.

Class PyFloat := {
  pyfloat : Type;
  (** [float(s)] on a literal read by [match_number] *)
  float_of_str : str -> pyfloat;
  (** [float('nan')], [float('inf')], [float('-inf')] *)
  float_nan : pyfloat;
  float_inf : pyfloat;
  float_neginf : pyfloat;
  (** [float.__repr__] *)
  float_repr : pyfloat -> str;
  (** the tests [o != o], [o == inf], [o == -inf] of [floatstr] *)
  float_kind_of : pyfloat -> float_kind;
  float_repr_literal : forall f, float_kind_of f = FFinite ->
    match_number (float_repr f) = Some (true, float_repr f, []);
  float_repr_of_str : forall f, float_kind_of f = FFinite ->
    float_of_str (float_repr f) = f;
  float_kind_nan : forall f, float_kind_of f = FNaN -> f = float_nan;
  float_kind_inf : forall f, float_kind_of f = FInf -> f = float_inf;
  float_kind_neginf : forall f, float_kind_of f = FNegInf -> f = float_neginf
}.

(** The conversions pydantic's lax mode applies to an [int] field when
    the input is a float or a string. *)
Class LaxInt (F : PyFloat) := {
  float_as_int : pyfloat -> option Z;
  str_as_int : str -> option Z
}.

(** ** JSON values, [json.loads] and [json.dump] *)

Section Json.
Context {F : PyFloat}.

Local Unset Elimination Schemes.

Inductive json :=
| JNull
| JBool (b : bool)
| JInt (n : Z)
| JFloat (f : pyfloat)
| JStr (s : str)
| JList (l : list json)
| JDict (d : list (str * json)).

Local Set Elimination Schemes.

(** [d[k] = v] on an insertion-ordered dict: a key already present
    keeps its place and takes the new value. *)
Fixpoint dict_set (d : list (str * json)) (k : str) (v : json) : list (str * json) :=
  match d with
  | [] => [(k, v)]
  | (k', v') :: r =>
      if bool_decide (k' = k) then (k', v) :: r else (k', v') :: dict_set r k v
  end.

(** [d.get(k)] *)
Fixpoint dict_get (d : list (str * json)) (k : str) : option json :=
  match d with
  | [] => None
  | (k', v') :: r => if bool_decide (k' = k) then Some v' else dict_get r k
  end.

(** [scan_once] together with the loops of [_parse_object] and
    [_parse_array], which run after the opening bracket and the
    white space behind it.  [fuel] bounds the nesting and the number of
    items; an input of [n] characters never needs more than [2 * n + 1]
    (see [fuel_is_enough]).  The interpreter's own recursion limit is
    not modelled. *)
Fixpoint scan_once (fuel : nat) (s : str) {struct fuel} : option (json * str) :=
  match fuel with
  | O => None
  | S fuel =>
      match s with
      | [] => None
      | c :: r =>
          if (c =? 34)%N then
            match scanstring r with
            | Some (x, r') => Some (JStr x, r')
            | None => None
            end
          else if (c =? 123)%N then
            match skip_ws r with
            | c' :: r' =>
                if (c' =? 125)%N then Some (JDict [], r')
                else parse_object fuel (c' :: r') []
            | [] => None
            end
          else if (c =? 91)%N then
            match skip_ws r with
            | c' :: r' =>
                if (c' =? 93)%N then Some (JList [], r')
                else parse_array fuel (c' :: r') []
            | [] => None
            end
          else if startswith s (lit "null") then Some (JNull, drop 4 s)
          else if startswith s (lit "true") then Some (JBool true, drop 4 s)
          else if startswith s (lit "false") then Some (JBool false, drop 5 s)
          else if startswith s (lit "NaN") then Some (JFloat float_nan, drop 3 s)
          else if startswith s (lit "Infinity") then Some (JFloat float_inf, drop 8 s)
          else if startswith s (lit "-Infinity") then Some (JFloat float_neginf, drop 9 s)
          else
            match match_number s with
            | Some (true, numstr, r') => Some (JFloat (float_of_str numstr), r')
            | Some (false, numstr, r') => Some (JInt (int_of_str numstr), r')
            | None => None
            end
      end
  end
with parse_object (fuel : nat) (s : str) (rval : list (str * json)) {struct fuel}
  : option (json * str) :=
  match fuel with
  | O => None
  | S fuel =>
      match s with
      | [] => None
      | c :: r =>
          if (c =? 34)%N then
            match scanstring r with
            | None => None
            | Some (key, r1) =>
                match skip_ws r1 with
                | [] => None
                | c2 :: r2 =>
                    if (c2 =? 58)%N then
                      match scan_once fuel (skip_ws r2) with
                      | None => None
                      | Some (val, r3) =>
                          match skip_ws r3 with
                          | [] => None
                          | c4 :: r4 =>
                              if (c4 =? 125)%N
                              then Some (JDict (dict_set rval key val), r4)
                              else if (c4 =? 44)%N
                              then parse_object fuel (skip_ws r4) (dict_set rval key val)
                              else None
                          end
                      end
                    else None
                end
            end
          else None
      end
  end
with parse_array (fuel : nat) (s : str) (rval : list json) {struct fuel}
  : option (json * str) :=
  match fuel with
  | O => None
  | S fuel =>
      match scan_once fuel s with
      | None => None
      | Some (val, r1) =>
          match skip_ws r1 with
          | [] => None
          | c :: r2 =>
              if (c =? 93)%N then Some (JList (rval ++ [val]), r2)
              else if (c =? 44)%N then parse_array fuel (skip_ws r2) (rval ++ [val])
              else None
          end
      end
  end.

(** [json.loads(s)]: [None] stands for a raised [JSONDecodeError]. *)
Definition json_loads (s : str) : option json :=
  if startswith s [65279%N] then None
  else
    match scan_once (S (2 * length s)) (skip_ws s) with
    | Some (obj, r) =>
        match skip_ws r with
        | [] => Some obj
        | _ :: _ => None
        end
    | None => None
    end.

(** [floatstr] of [json.encoder] *)
Definition floatstr (o : pyfloat) : str :=
  match float_kind_of o with
  | FNaN => lit "NaN"
  | FInf => lit "Infinity"
  | FNegInf => lit "-Infinity"
  | FFinite => float_repr o
  end.

(** The line break and the indentation that open a line at nesting
    depth [level] when [indent=2]. *)
Definition newline_indent (level : nat) : str := 10%N :: repeat 32%N (2 * level).

Fixpoint join (sep : str) (chunks : list str) : str :=
  match chunks with
  | [] => []
  | [x] => x
  | x :: rest => x ++ sep ++ join sep rest
  end.

(** The text [_iterencode] yields for [o] at a nesting depth, with
    [indent=2], the separators [','] and [': '], and
    [ensure_ascii=False]. *)
Fixpoint iterencode (level : nat) (o : json) : str :=
  match o with
  | JStr s => encode_basestring s
  | JNull => lit "null"
  | JBool true => lit "true"
  | JBool false => lit "false"
  | JInt n => int_repr n
  | JFloat f => floatstr f
  | JList [] => lit "[]"
  | JList lst =>
      lit "[" ++ newline_indent (S level)
      ++ join (lit "," ++ newline_indent (S level)) (map (iterencode (S level)) lst)
      ++ newline_indent level ++ lit "]"
  | JDict [] => lit "{}"
  | JDict dct =>
      lit "{" ++ newline_indent (S level)
      ++ join (lit "," ++ newline_indent (S level))
           (map (fun kv => encode_basestring (fst kv) ++ lit ": " ++ iterencode (S level) (snd kv)) dct)
      ++ newline_indent level ++ lit "}"
  end.

(** The text [json.dump(data, f, indent=2, ensure_ascii=False)] writes. *)
Definition json_dump (data : json) : str := iterencode 0 data.

End Json.

(** ** The pydantic models (lines 20-29) *)

Module Schema.

(** [class Note(BaseModel)] *)
Record Note := {
  id : Z;
  heading : str;
  summary : str;
  page_ref : option Z
}.

(** [class NotesResponse(BaseModel)] *)
Record NotesResponse := {
  notes : list Note
}.

(** Where in the input a violation was found, and which. *)
Inductive loc := Field (name : str) | Index (i : nat).

Inductive error_type :=
| missing
| int_type
| int_parsing
| int_from_float
| greater_than_equal
| less_than_equal
| string_type
| string_too_long
| list_type
| too_short
| too_long
| model_type.

Definition line_error : Type := list loc * error_type.

Definition at_loc (l : loc) (e : line_error) : line_error := (l :: fst e, snd e).

Definition errors_of {A} (r : list line_error + A) : list line_error :=
  match r with
  | inl e => e
  | inr _ => []
  end.

End Schema.

Import Schema.

Section Validation.
Context {F : PyFloat} {L : LaxInt F}.

(** An [int] field in lax mode: an integer is taken as it is, a bool as
    0 or 1, a float or a string through pydantic's conversions. *)
Definition lax_int (v : json) : error_type + Z :=
  match v with
  | JInt n => inr n
  | JBool b => inr (if b then 1 else 0)
  | JFloat f =>
      match float_as_int f with
      | Some n => inr n
      | None => inl int_from_float
      end
  | JStr s =>
      match str_as_int s with
      | Some n => inr n
      | None => inl int_parsing
      end
  | _ => inl int_type
  end.

(** [int = Field(..., ge=lo, le=hi)] *)
Definition int_between (lo hi : Z) (v : json) : list line_error + Z :=
  match lax_int v with
  | inl e => inl [([], e)]
  | inr n =>
      if n <? lo then inl [([], greater_than_equal)]
      else if hi <? n then inl [([], less_than_equal)]
      else inr n
  end.

(** [str = Field(..., max_length=n)] *)
Definition str_max_length (n : Z) (v : json) : list line_error + str :=
  match v with
  | JStr s => if n <? len s then inl [([], string_too_long)] else inr s
  | _ => inl [([], string_type)]
  end.

(** [Optional[int] = Field(None)] on a value that is present *)
Definition optional_int (v : json) : list line_error + option Z :=
  match v with
  | JNull => inr None
  | _ =>
      match lax_int v with
      | inl e => inl [([], e)]
      | inr n => inr (Some n)
      end
  end.

(** A field declared with [Field(...)]: absent from the input, it is an
    error of its own. *)
Definition required {A} (d : list (str * json)) (name : string)
    (check : json -> list line_error + A) : list line_error + A :=
  match dict_get d (lit name) with
  | None => inl [([Field (lit name)], missing)]
  | Some v =>
      match check v with
      | inl es => inl (map (at_loc (Field (lit name))) es)
      | inr a => inr a
      end
  end.

(** A field with a default: absent from the input, it takes the default. *)
Definition defaulted {A} (d : list (str * json)) (name : string) (default : A)
    (check : json -> list line_error + A) : list line_error + A :=
  match dict_get d (lit name) with
  | None => inr default
  | Some v =>
      match check v with
      | inl es => inl (map (at_loc (Field (lit name))) es)
      | inr a => inr a
      end
  end.

(** [Note] built from the keyword arguments [d]: every field is checked, and the violations of all of
    them are reported together; keys that are no field are ignored. *)
Definition validate_Note (d : list (str * json)) : list line_error + Note :=
  let r_id := required d "id" (int_between 1 10) in
  let r_heading := required d "heading" (str_max_length 100) in
  let r_summary := required d "summary" (str_max_length 150) in
  let r_page_ref := defaulted d "page_ref" None optional_int in
  match r_id, r_heading, r_summary, r_page_ref with
  | inr i, inr h, inr s, inr p =>
      inr {| id := i; heading := h; summary := s; page_ref := p |}
  | _, _, _, _ =>
      inl (errors_of r_id ++ errors_of r_heading ++ errors_of r_summary
           ++ errors_of r_page_ref)
  end.

(** One item of [List[Note]] *)
Definition validate_item (v : json) : list line_error + Note :=
  match v with
  | JDict d => validate_Note d
  | _ => inl [([], model_type)]
  end.

(** The items of a list field with [max_length=hi], in the manner of
    pydantic's list validator: items are validated in order, the item
    that exceeds [hi] ends the run with [too_long], and otherwise the
    violations of all items are reported. *)
Fixpoint validate_items (hi : nat) (i : nat) (items : list json)
    (output : list Note) (errors : list line_error) : list line_error + list Note :=
  match items with
  | [] =>
      match errors with
      | [] => inr output
      | _ :: _ => inl errors
      end
  | v :: rest =>
      if (hi <? S i)%nat then inl [([], too_long)]
      else
        match validate_item v with
        | inr n => validate_items hi (S i) rest (output ++ [n]) errors
        | inl es => validate_items hi (S i) rest output (errors ++ map (at_loc (Index i)) es)
        end
  end.

(** [List[Note] = Field(..., min_length=lo, max_length=hi)] *)
Definition list_of_notes (lo hi : nat) (v : json) : list line_error + list Note :=
  match v with
  | JList items =>
      match validate_items hi 0 items [] [] with
      | inl es => inl es
      | inr output =>
          if (length output <? lo)%nat then inl [([], too_short)] else inr output
      end
  | _ => inl [([], list_type)]
  end.

(** [NotesResponse] built from the keyword arguments [d] *)
Definition validate_NotesResponse (d : list (str * json)) : list line_error + NotesResponse :=
  match required d "notes" (list_of_notes 10 10) with
  | inl es => inl es
  | inr ns => inr {| notes := ns |}
  end.

End Validation.

(** ** [validate_and_save_notes] (lines 124-182) *)

(** What a path holds: a text written in full, or what a write that
    failed after [open(..., 'w')] leaves behind, the old content gone
    and at most a part of the new text in its place. *)
Inductive file := Complete (text : str) | Truncated.

(** What the environment does to the write.  A write can also fail for
    a reason in the text itself (a lone surrogate has no UTF-8
    encoding); [WriteFails] stands for every failure after the file was
    opened. *)
Inductive io_fault := NoFault | OpenFails | WriteFails.

Inductive exn :=
| JSONDecodeError
| TypeError
| ValidationError (errors : list line_error)
| OSError.

(** One constructor for each [print] call of the function, with the
    values it interpolates. *)
Inductive console_line :=
| SuccessfullyValidated (n : nat)
| NotesSavedTo (output_file : str)
| GeneratedExamNotes
| Rule
| NoteHeading (id : Z) (heading : str)
| NoteSummary (summary : str)
| NotePage (page_ref : Z)
| InvalidJSON (e : exn)
| ValidationErrorLine (e : exn)
| RawResponse (first_500 : str)
| CleanedResponse (first_300 : str).

(** What a call leaves behind: the value returned, the lines printed,
    the paths it called [open(..., 'w')] on, and the file system. *)
Record outcome := {
  returned : option (list Note);
  console : list console_line;
  opened : list str;
  files : gmap str file
}.

Section Pipeline.
Context {F : PyFloat} {L : LaxInt F}.

(** [NotesResponse] built from [data] unpacked as keyword arguments:
    unpacking anything but a dict is a [TypeError]. *)
Definition construct_NotesResponse (data : json) : exn + NotesResponse :=
  match data with
  | JDict d =>
      match validate_NotesResponse d with
      | inl es => inl (ValidationError es)
      | inr r => inr r
      end
  | _ => inl TypeError
  end.

(** [with open(output_file, 'w', encoding='utf-8') as f:
      json.dump(data, f, indent=2, ensure_ascii=False)] *)
Definition save (io : io_fault) (output_file : str) (data : json)
    (fs : gmap str file) : option exn * gmap str file :=
  match io with
  | OpenFails => (Some OSError, fs)
  | WriteFails => (Some OSError, <[output_file := Truncated]> fs)
  | NoFault => (None, <[output_file := Complete (json_dump data)]> fs)
  end.

(** The three [print] calls of the loop body for one note;
    [if note.page_ref:] skips both an absent page and page 0. *)
Definition display (note : Note) : list console_line :=
  [NoteHeading (id note) (heading note); NoteSummary (summary note)]
  ++ match page_ref note with
     | Some p => if p =? 0 then [] else [NotePage p]
     | None => []
     end.

(** The function, run on a file system [fs] with the write behaving as
    [io] says. *)
Definition validate_and_save_notes (io : io_fault) (notes_json_str : str)
    (output_file : str) (fs : gmap str file) : outcome :=
  let cleaned_json := sanitize notes_json_str in
  match json_loads cleaned_json with
  | None =>
      {| returned := None;
         console := [InvalidJSON JSONDecodeError;
                     RawResponse (slice_to notes_json_str 500);
                     CleanedResponse (slice_to cleaned_json 300)];
         opened := [];
         files := fs |}
  | Some data =>
      match construct_NotesResponse data with
      | inl e =>
          {| returned := None;
             console := [ValidationErrorLine e;
                         RawResponse (slice_to notes_json_str 500)];
             opened := [];
             files := fs |}
      | inr notes_response =>
          let validated := SuccessfullyValidated (length (notes notes_response)) in
          match save io output_file data fs with
          | (Some e, fs') =>
              {| returned := None;
                 console := [validated; ValidationErrorLine e;
                             RawResponse (slice_to notes_json_str 500)];
                 opened := [output_file];
                 files := fs' |}
          | (None, fs') =>
              {| returned := Some (notes notes_response);
                 console := [validated; NotesSavedTo output_file;
                             GeneratedExamNotes; Rule]
                            ++ flat_map display (notes notes_response);
                 opened := [output_file];
                 files := fs' |}
          end
      end
  end.

End Pipeline.

(** ** A float type with a single value

    The smallest implementation of the float interface: one finite
    float, printed as 0.0.  It shows that the laws of [PyFloat] can be
    met and lets the pipeline be run on texts that hold no float. *)

Definition one_float_of_str (s : str) : unit := tt.
Definition one_float_repr (f : unit) : str := lit "0.0".
Definition one_float_kind (f : unit) : float_kind := FFinite.

Lemma one_float_literal (f : unit) :
  one_float_kind f = FFinite ->
  match_number (one_float_repr f) = Some (true, one_float_repr f, []).
Proof. reflexivity. Qed.

Lemma one_float_of_repr (f : unit) :
  one_float_kind f = FFinite -> one_float_of_str (one_float_repr f) = f.
Proof. destruct f; reflexivity. Qed.

Lemma one_float_only (k : float_kind) (f : unit) :
  one_float_kind f = k -> f = tt.
Proof. destruct f; reflexivity. Qed.

#[export] Instance OneFloat : PyFloat := {|
  pyfloat := unit;
  float_of_str := one_float_of_str;
  float_nan := tt;
  float_inf := tt;
  float_neginf := tt;
  float_repr := one_float_repr;
  float_kind_of := one_float_kind;
  float_repr_literal := one_float_literal;
  float_repr_of_str := one_float_of_repr;
  float_kind_nan := one_float_only FNaN;
  float_kind_inf := one_float_only FInf;
  float_kind_neginf := one_float_only FNegInf
|}.

(** Lax conversions for it: the one float is the whole number 0, and a
    string converts when it is an integer literal. *)
#[export] Instance OneFloatLax : LaxInt OneFloat := {|
  float_as_int := fun _ => Some 0;
  str_as_int := fun s =>
    match match_number s with
    | Some (false, numstr, []) => Some (int_of_str numstr)
    | _ => None
    end
|}.

(** Test texts are written with an apostrophe for the double quote. *)
Definition text (s : string) : str :=
  map (fun c => if (c =? 39)%N then 34%N else c) (lit s).

Definition newline : string := String (ascii_of_nat 10) EmptyString.

(** ** Sample inputs *)

Section Samples.
Context {F : PyFloat}.

Definition sample_fields (i : Z) : list (str * json) :=
  [(lit "id", JInt i);
   (lit "heading", JStr (lit "Topic"));
   (lit "summary", JStr (lit "Summary"))].

Definition sample_note (i : Z) : json := JDict (sample_fields i).

(** The note the sample with id [i] validates to. *)
Definition sample_Note (i : Z) : Note :=
  {| id := i; heading := lit "Topic"; summary := lit "Summary"; page_ref := None |}.

Definition sample_notes (ids : list Z) : list (str * json) :=
  [(lit "notes", JList (map sample_note ids))].

Definition one_to_ten : list Z := [1; 2; 3; 4; 5; 6; 7; 8; 9; 10].

End Samples.

(** A response text: the notes with the given ids, as JSON. *)
Definition note_text (i : string) : string :=
  ("{'id': " ++ i ++ ", 'heading': 'Topic', 'summary': 'Summary'}")%string.

Definition notes_text (ids : list string) : str :=
  text ("{'notes': [" ++ String.concat ", " (map note_text ids) ++ "]}").

(** The same with one more key beside [notes]. *)
Definition notes_and_extra_text (ids : list string) : str :=
  text ("{'notes': [" ++ String.concat ", " (map note_text ids) ++ "], 'extra': 1}").

Definition ten_ids : list string :=
  ["1"; "2"; "3"; "4"; "5"; "6"; "7"; "8"; "9"; "10"]%string.

(** The default of the parameter [output_file]. *)
Definition exam_notes_json : str := lit "exam_notes.json".

(** ** Notions used in the statements *)

(** A text that cannot continue a number literal: it is empty or starts
    with a character that is no digit, dot, exponent mark or sign. *)
Definition number_stop (rest : str) : Prop :=
  match rest with
  | [] => True
  | c :: _ =>
      isdigit c = false /\ (c =? 46)%N = false /\ (c =? 101)%N = false
      /\ (c =? 69)%N = false /\ (c =? 43)%N = false /\ (c =? 45)%N = false
  end.

(** An encoded value opens with a character that is no white space, no
    closing bracket and no byte-order mark. *)
Definition opening (c : char) : Prop :=
  is_ws c = false /\ (c =? 93)%N = false /\ (c =? 65279)%N = false.

Section Notions.
Context {F : PyFloat} {L : LaxInt F}.

(** The item [v] of a list validates to the note [n]. *)
Definition valid_item (v : json) (n : Note) : Prop := validate_item v = inr n.

(** The fuel a scan of the value needs. *)
Fixpoint weight (v : json) : nat :=
  match v with
  | JList l => S (list_sum (map (fun x => S (weight x)) l))
  | JDict d => S (list_sum (map (fun kv => S (weight (snd kv))) d))
  | _ => 1
  end.

Local Unset Elimination Schemes.

(** The values [json.loads] can return: the keys of every dict are
    distinct. *)
Inductive wf : json -> Prop :=
| wf_JNull : wf JNull
| wf_JBool b : wf (JBool b)
| wf_JInt n : wf (JInt n)
| wf_JFloat f : wf (JFloat f)
| wf_JStr s : wf (JStr s)
| wf_JList l : Forall wf l -> wf (JList l)
| wf_JDict d : List.NoDup (map fst d) -> Forall (fun kv => wf (snd kv)) d -> wf (JDict d).

Local Set Elimination Schemes.

(** The statement of the round trip for one value, at every depth, in
    front of every text that cannot continue a number, with any fuel
    from the weight of the value on. *)
Definition reads_back (v : json) : Prop :=
  forall level rest fuel,
    number_stop rest -> (weight v <= fuel)%nat ->
    scan_once fuel (iterencode level v ++ rest) = Some (v, rest).

(** The text of one dict entry. *)
Definition entry_text (level : nat) (kv : str * json) : str :=
  encode_basestring (fst kv) ++ lit ": " ++ iterencode level (snd kv).

Definition set_entry (d : list (str * json)) (kv : str * json) : list (str * json) :=
  dict_set d (fst kv) (snd kv).

End Notions.

(** A text is trimmed when it has no white space at either end. *)
Definition trimmed (s : str) : Prop := lstrip s = s /\ lstrip (rev s) = rev s.

(** ** [json.dump] with its default settings

    [00_bootstrap.py] writes [assistant_id.json] with [json.dump(obj, f)]:
    no indentation, the separators [', '] and [': '], and
    [ensure_ascii=True]. *)

(** [format(n, '04x')] for [n] below 65536 *)
Definition hex4_chars (n : N) : str :=
  [hexdigit (n / 4096); hexdigit (n / 256 mod 16);
   hexdigit (n / 16 mod 16); hexdigit (n mod 16)]%N.

(** The replacement of one character by [py_encode_basestring_ascii]:
    the short escapes, the printable ASCII characters as they are, and
    every other character as [\uXXXX], above the basic plane as a
    surrogate pair. *)
Definition escape_char_ascii (c : char) : str :=
  if (c =? 92)%N then [92; 92]%N
  else if (c =? 34)%N then [92; 34]%N
  else if (c =? 8)%N then [92; 98]%N
  else if (c =? 12)%N then [92; 102]%N
  else if (c =? 10)%N then [92; 110]%N
  else if (c =? 13)%N then [92; 114]%N
  else if (c =? 9)%N then [92; 116]%N
  else if ((32 <=? c) && (c <=? 126))%N then [c]
  else if (c <? 65536)%N then 92%N :: 117%N :: hex4_chars c
  else
    let n := (c - 65536)%N in
    let s1 := N.lor 55296 (N.land (N.shiftr n 10) 1023) in
    let s2 := N.lor 56320 (N.land n 1023) in
    92%N :: 117%N :: hex4_chars s1 ++ 92%N :: 117%N :: hex4_chars s2.

Definition encode_basestring_ascii (s : str) : str :=
  34%N :: flat_map escape_char_ascii s ++ [34%N].

Section JsonDefault.
Context {F : PyFloat}.

(** The text [_iterencode] yields with the default settings. *)
Fixpoint iterencode_default (o : json) : str :=
  match o with
  | JStr s => encode_basestring_ascii s
  | JNull => lit "null"
  | JBool true => lit "true"
  | JBool false => lit "false"
  | JInt n => int_repr n
  | JFloat f => floatstr f
  | JList [] => lit "[]"
  | JList lst =>
      lit "[" ++ join (lit ", ") (map iterencode_default lst) ++ lit "]"
  | JDict [] => lit "{}"
  | JDict dct =>
      lit "{"
      ++ join (lit ", ")
           (map (fun kv => encode_basestring_ascii (fst kv) ++ lit ": "
                           ++ iterencode_default (snd kv)) dct)
      ++ lit "}"
  end.

End JsonDefault.

(** ** The scripts and their environment

    The other functions of [02_generate_notes.py], and [main] of
    [00_bootstrap.py], talk to the console, to the file
    [assistant_id.json] and to the OpenAI service.  They are written in
    a small monad over what a run leaves behind; what the outside world
    answers is a parameter. *)

(** The objects the OpenAI client returns, with the attributes the
    script reads. *)
Module API.

(** [thread.id] *)
Record Thread := { thread_id : str }.

(** [run.id], [run.status] *)
Record Run := { run_id : str; status : str }.

(** An item of [message.content]: a text block has [text.value], the
    other kinds of block have no [text] attribute. *)
Inductive content_block := TextContentBlock (value : str) | ImageFileContentBlock.

(** [message.role], [message.content] *)
Record Message := { role : str; content : list content_block }.

(** [response.choices], each choice with its [message.content], which
    may be [None]. *)
Record ChatCompletion := { choices : list (option str) }.

End API.

(** The exceptions a run can meet: those of [validate_and_save_notes]
    and four more.  All are subclasses of [Exception]. *)
Inductive py_error :=
| Exn (e : exn)
| AttributeError
| IndexError
| EOFError
| OpenAIError (message : str).

(** How a call ends.  [OutOfFuel] is the model's, not Python's: the
    polling loop was still running when the fuel ran out. *)
Inductive result (A : Type) :=
| Returns (a : A)
| Raises (e : py_error)
| OutOfFuel.

Arguments Returns {A} a.
Arguments Raises {A} e.
Arguments OutOfFuel {A}.

(** Truth value testing of a float: [bool(f)]. *)
Class FloatBool (F : PyFloat) := {
  float_bool : pyfloat -> bool
}.

Section Script.
Context {F : PyFloat} {L : LaxInt F} {B : FloatBool F}.

(** The requests sent to the service, with their arguments. *)
Inductive api_call :=
| threads_create
| threads_messages_create (thread_id role content : str)
| threads_runs_create (thread_id : str) (assistant_id : json)
| threads_runs_retrieve (thread_id run_id : str)
| threads_messages_list (thread_id : str)
| chat_completions_create (model : str) (messages : list (str * str))
    (response_format : str)
| assistants_retrieve (assistant_id : json)
| files_create (purpose : str) (file : str)
| assistants_create (name model : str) (file_ids : list str).

(** One constructor for each [print] call outside
    [validate_and_save_notes], and one for the prompt of [input]; the
    last nine are those of [00_bootstrap.py]. *)
Inductive line :=
| AssistantNotFound
| GeneratingWithAssistant
| Status (status : str)
| NotesGenerated
| RunFailed (status : str)
| GeneratingWithChat
| ErrorGeneratingNotes (e : py_error)
| Title
| TitleRule
| Options
| Option1
| Option2
| Option3
| ChooseAnOption
| Goodbye
| InvalidChoice
| Notes (l : console_line)
| UsingExistingAssistant (assistant_id : json)
| ErrorRetrievingAssistant (e : py_error)
| CreatingNewAssistant
| NoPDFFilesFound
| Uploading (name : str)
| UploadedFileID (file_id : str)
| CreatedNewAssistant (assistant_id : str)
| AssistantCreatedWith (n : nat)
| BootstrapComplete.

(** What the outside world does in one run: the exception the client
    constructor raises, if any (it raises when no API key is set), the
    line typed at the prompt ([None]: end of input), the files that
    cannot be opened for reading, the text a truncated file holds, the
    fate of the write, and the answers of the service (an exception or
    a value; the answers to the [retrieve] requests of a run and to the
    uploads are numbered from 0).  For the bootstrap there is also the
    list of names [data/*.pdf] expands to; the PDF files themselves are
    not part of the modelled file system. *)
Record env := {
  on_client : option py_error;
  stdin : option str;
  unreadable : str -> bool;
  truncated_text : str -> str;
  io : io_fault;
  on_threads_create : py_error + API.Thread;
  on_messages_create : py_error + unit;
  on_runs_create : py_error + API.Run;
  on_runs_retrieve : nat -> py_error + API.Run;
  on_messages_list : py_error + list API.Message;
  on_chat_completions_create : py_error + API.ChatCompletion;
  pdf_files : list str;
  on_assistants_retrieve : py_error + unit;
  on_files_create : nat -> py_error + str;
  on_assistants_create : py_error + str
}.

(** What a run has done so far: the lines printed, the file system, the
    paths opened for writing and the requests sent, each in order. *)
Record state := {
  stdout : list line;
  disk : gmap str file;
  written : list str;
  requests : list api_call
}.

Definition script (A : Type) : Type := state -> result A * state.

Definition ret {A} (a : A) : script A := fun st => (Returns a, st).

Definition bind {A B} (m : script A) (k : A -> script B) : script B :=
  fun st =>
    match m st with
    | (Returns a, st') => k a st'
    | (Raises e, st') => (Raises e, st')
    | (OutOfFuel, st') => (OutOfFuel, st')
    end.

#[export] Instance script_ret : MRet script := @ret.
#[export] Instance script_bind : MBind script := fun A B k m => bind m k.

Definition raise {A} (e : py_error) : script A := fun st => (Raises e, st).

(** [try: body except Exception as e: handler] *)
Definition try_except {A} (body : script A) (handler : py_error -> script A)
  : script A :=
  fun st =>
    match body st with
    | (Raises e, st') => handler e st'
    | r => r
    end.

Definition print (l : line) : script unit :=
  fun st =>
    (Returns tt,
     {| stdout := stdout st ++ [l]; disk := disk st;
        written := written st; requests := requests st |}).

(** A request and its answer. *)
Definition request {A} (c : api_call) (answer : py_error + A) : script A :=
  fun st =>
    let st' := {| stdout := stdout st; disk := disk st;
                  written := written st; requests := requests st ++ [c] |} in
    match answer with
    | inl e => (Raises e, st')
    | inr a => (Returns a, st')
    end.

(** [Path(path).exists()] *)
Definition path_exists (path : str) : script bool :=
  fun st => (Returns (bool_decide (is_Some (disk st !! path))), st).

(** [with open(path, 'r') as f: f.read()] *)
Definition read_text (E : env) (path : str) : script str :=
  fun st =>
    match disk st !! path with
    | None => (Raises (Exn OSError), st)
    | Some f =>
        if unreadable E path then (Raises (Exn OSError), st)
        else (Returns match f with
                      | Complete t => t
                      | Truncated => truncated_text E path
                      end, st)
    end.

(** [json.load(f)] on the text read from [f] *)
Definition json_load (s : str) : script json :=
  match json_loads s with
  | Some data => ret data
  | None => raise (Exn JSONDecodeError)
  end.

(** [data.get(key)]: only a dict has the method; a key that is absent
    gives [None], which is also what JSON's [null] is read as. *)
Definition get (data : json) (key : str) : script json :=
  match data with
  | JDict d => ret (default JNull (dict_get d key))
  | _ => raise AttributeError
  end.

(** [seq[0]] *)
Definition first {A} (seq : list A) : script A :=
  match seq with
  | a :: _ => ret a
  | [] => raise IndexError
  end.

(** [block.text.value] *)
Definition text_value (block : API.content_block) : script str :=
  match block with
  | API.TextContentBlock value => ret value
  | API.ImageFileContentBlock => raise AttributeError
  end.

(** Truth value testing, as [if x:] and [if not x:] apply it. *)
Definition truthy (v : json) : bool :=
  match v with
  | JNull => false
  | JBool b => b
  | JInt n => negb (n =? 0)
  | JFloat f => float_bool f
  | JStr s => negb (is_nil s)
  | JList l => match l with [] => false | _ :: _ => true end
  | JDict d => match d with [] => false | _ :: _ => true end
  end.

Definition assistant_id_json : str := lit "assistant_id.json".

(** [get_assistant_id] (lines 31-40) *)
Definition get_assistant_id (E : env) : script json :=
  let assistant_file := assistant_id_json in
  found ← path_exists assistant_file;
  if negb found then
    print AssistantNotFound;;
    ret JNull
  else
    f ← read_text E assistant_file;
    data ← json_load f;
    get data (lit "assistant_id").

(** The message of lines 50-57. *)
Definition message_content : str :=
  text ("Please analyze the uploaded study materials and create exactly 10 concise revision notes. "
        ++ "Each note should have a clear heading, a brief summary (max 150 characters), and ideally a page reference. "
        ++ "Focus on the most important concepts that would help prepare for an exam. "
        ++ newline ++ newline
        ++ "IMPORTANT: Respond with ONLY a valid JSON object, no additional text or markdown formatting. "
        ++ "Use this exact structure:" ++ newline
        ++ "{'notes': [{'id': 1, 'heading': 'Topic Name', 'summary': 'Brief explanation', 'page_ref': 1}, ...]}").

(** [run.status in ['queued', 'in_progress']] *)
Definition waiting (status : str) : bool :=
  bool_decide (status = lit "queued") || bool_decide (status = lit "in_progress").

(** The loop of lines 72-74, entered with the run and the number of
    [retrieve] requests made so far.  It ends with the first run whose
    status is neither of the two. *)
Fixpoint poll (E : env) (fuel : nat) (thread : API.Thread) (n : nat) (run : API.Run)
  : script API.Run :=
  if waiting (API.status run) then
    match fuel with
    | O => fun st => (OutOfFuel, st)
    | S fuel =>
        run ← request (threads_runs_retrieve (API.thread_id thread) (API.run_id run))
                      (on_runs_retrieve E n);
        print (Status (API.status run));;
        poll E fuel thread (S n) run
    end
  else ret run.

(** The loop of lines 81-85: [Some] is the value returned from inside
    the loop, [None] a loop that ran to its end. *)
Fixpoint first_assistant_message (data : list API.Message) : script (option str) :=
  match data with
  | [] => ret None
  | message :: rest =>
      if bool_decide (API.role message = lit "assistant") then
        block ← first (API.content message);
        content ← text_value block;
        print NotesGenerated;;
        ret (Some content)
      else first_assistant_message rest
  end.

(** [generate_notes_with_assistant] (lines 42-88) *)
Definition generate_notes_with_assistant (E : env) (fuel : nat) (assistant_id : json)
  : script (option str) :=
  print GeneratingWithAssistant;;
  thread ← request threads_create (on_threads_create E);
  request (threads_messages_create (API.thread_id thread) (lit "user") message_content)
          (on_messages_create E);;
  run ← request (threads_runs_create (API.thread_id thread) assistant_id)
                (on_runs_create E);
  run ← poll E fuel thread 0 run;
  found ←
    (if bool_decide (API.status run = lit "completed") then
       messages ← request (threads_messages_list (API.thread_id thread))
                          (on_messages_list E);
       first_assistant_message messages
     else ret None);
  match found with
  | Some content => ret (Some content)
  | None =>
      print (RunFailed (API.status run));;
      ret None
  end.

(** The prompts of lines 94-107. *)
Definition system_prompt : str :=
  text ("You are a study summarizer. "
        ++ "Return exactly 10 unique notes that will help prepare for the exam. "
        ++ "Each note should have an id (1-10), heading, summary (max 150 chars), and optional page_ref. "
        ++ "Respond *only* with valid JSON matching this schema: "
        ++ "{'notes': [{'id': 1, 'heading': 'Topic Name', 'summary': 'Brief explanation', 'page_ref': 1}]} "
        ++ "Focus on key mathematical concepts, theorems, and formulas.").

Definition user_prompt : str :=
  lit ("Generate 10 concise study notes for calculus basics. "
       ++ "Include topics like derivatives, integrals, limits, theorems, and key formulas. "
       ++ "Make each note practical for exam preparation.").

(** [generate_notes_with_chat] (lines 90-122) *)
Definition generate_notes_with_chat (E : env) : script (option str) :=
  print GeneratingWithChat;;
  try_except
    (response ← request (chat_completions_create (lit "gpt-4o-mini")
                           [(lit "system", system_prompt); (lit "user", user_prompt)]
                           (lit "json_object"))
                        (on_chat_completions_create E);
     first (API.choices response))
    (fun e =>
       print (ErrorGeneratingNotes e);;
       ret None).

(** [validate_and_save_notes(notes_content)] inside a run: the output
    file is the default one. *)
Definition call_validate_and_save_notes (E : env) (notes_json_str : str)
  : script (option (list Note)) :=
  fun st =>
    let o := validate_and_save_notes (io E) notes_json_str exam_notes_json (disk st) in
    (Returns (returned o),
     {| stdout := stdout st ++ map Notes (console o);
        disk := files o;
        written := written st ++ opened o;
        requests := requests st |}).

(** [OpenAI(api_key=os.getenv('OPENAI_API_KEY'))] *)
Definition OpenAI (E : env) : script unit :=
  match on_client E with
  | None => ret tt
  | Some e => raise e
  end.

(** [input(prompt)] *)
Definition input (E : env) (prompt : line) : script str :=
  print prompt;;
  match stdin E with
  | Some s => ret s
  | None => raise EOFError
  end.

(** [main] (lines 184-218).  [if notes_content:] holds for a string
    that is not empty. *)
Definition main (E : env) (fuel : nat) : script unit :=
  OpenAI E;;
  print Title;;
  print TitleRule;;
  print Options;;
  print Option1;;
  print Option2;;
  print Option3;;
  choice ← input E ChooseAnOption;
  let choice := strip choice in
  if bool_decide (choice = lit "1") then
    assistant_id ← get_assistant_id E;
    if negb (truthy assistant_id) then ret tt
    else
      notes_content ← generate_notes_with_assistant E fuel assistant_id;
      match notes_content with
      | Some (c :: s) =>
          call_validate_and_save_notes E (c :: s);;
          ret tt
      | _ => ret tt
      end
  else if bool_decide (choice = lit "2") then
    notes_content ← generate_notes_with_chat E;
    match notes_content with
    | Some (c :: s) =>
        call_validate_and_save_notes E (c :: s);;
        ret tt
    | _ => ret tt
    end
  else if bool_decide (choice = lit "3") then
    print Goodbye
  else
    print InvalidChoice.

(** The state a run starts in. *)
Definition start (fs : gmap str file) : state :=
  {| stdout := []; disk := fs; written := []; requests := [] |}.

(** A state with more lines printed and more requests sent, and the
    same files. *)
Definition extend (st : state) (lines : list line) (calls : list api_call) : state :=
  {| stdout := stdout st ++ lines; disk := disk st;
     written := written st; requests := requests st ++ calls |}.

(** The one request of [generate_notes_with_chat]. *)
Definition chat_request : api_call :=
  chat_completions_create (lit "gpt-4o-mini")
    [(lit "system", system_prompt); (lit "user", user_prompt)] (lit "json_object").

(** The three requests that open [generate_notes_with_assistant]. *)
Definition opening_requests (thread : API.Thread) (assistant_id : json) : list api_call :=
  [threads_create;
   threads_messages_create (API.thread_id thread) (lit "user") message_content;
   threads_runs_create (API.thread_id thread) assistant_id].

(** The [retrieve] request made while [run] is the latest run. *)
Definition retrieve_after (thread : API.Thread) (run : API.Run) : api_call :=
  threads_runs_retrieve (API.thread_id thread) (API.run_id run).

(** The line printed when a [retrieve] request is answered by [run]. *)
Definition status_line (run : API.Run) : line := Status (API.status run).

(** Between two states nothing but [path] was opened for writing, and
    every other path holds what it held. *)
Definition only_writes (path : str) (st st' : state) : Prop :=
  (forall p, p <> path -> disk st' !! p = disk st !! p)
  /\ exists paths, written st' = written st ++ paths
                    /\ Forall (fun p => p = path) paths.

(** A script that writes to [path] at most, whatever it is started in. *)
Definition writes_only {A} (path : str) (m : script A) : Prop :=
  forall st, only_writes path st (m st).2.

(** What [main] prints before it reads the choice. *)
Definition menu : list line :=
  [Title; TitleRule; Options; Option1; Option2; Option3; ChooseAnOption].

(** The runs the service shows, in order: its answer to
    [runs.create], then its answers to the [retrieve] requests. *)
Definition shows (E : env) (runs : list API.Run) : Prop :=
  (forall run, runs !! 0%nat = Some run -> on_runs_create E = inr run)
  /\ (forall n run, runs !! S n = Some run -> on_runs_retrieve E n = inr run).

(** *** [00_bootstrap.py] *)

(** [path.unlink()] *)
Definition unlink (path : str) : script unit :=
  fun st =>
    (Returns tt,
     {| stdout := stdout st; disk := delete path (disk st);
        written := written st; requests := requests st |}).

(** [with open(path, 'w') as f: json.dump(obj, f)] *)
Definition dump_to (E : env) (path : str) (obj : json) : script unit :=
  fun st =>
    let st' fs := {| stdout := stdout st; disk := fs;
                     written := written st ++ [path]; requests := requests st |} in
    match io E with
    | OpenFails => (Raises (Exn OSError), st' (disk st))
    | WriteFails => (Raises (Exn OSError), st' (<[path := Truncated]> (disk st)))
    | NoFault => (Returns tt, st' (<[path := Complete (iterencode_default obj)]> (disk st)))
    end.

(** The loop of lines 57-66, with the ids collected so far. *)
Fixpoint upload (E : env) (pdf_files : list str) (file_ids : list str)
  : script (list str) :=
  match pdf_files with
  | [] => ret file_ids
  | name :: rest =>
      print (Uploading name);;
      let pdf_file := lit "data/" ++ name in
      (if unreadable E pdf_file then raise (Exn OSError) else ret tt);;
      file_id ← request (files_create (lit "assistants") pdf_file)
                        (on_files_create E (length file_ids));
      print (UploadedFileID file_id);;
      upload E rest (file_ids ++ [file_id])
  end.

End Script.

Module Bootstrap.

Section Main.
Context {F : PyFloat} {L : LaxInt F} {B : FloatBool F}.

(** [main] of [00_bootstrap.py] (lines 23-94).  The assistant object is
    only tested for being [None]. *)
Definition main (E : env) : script unit :=
  OpenAI E;;
  let assistant_file := assistant_id_json in
  found ← path_exists assistant_file;
  assistant ←
    (if found : bool then
       f ← read_text E assistant_file;
       data ← json_load f;
       assistant_id ← get data (lit "assistant_id");
       print (UsingExistingAssistant assistant_id);;
       try_except
         (request (assistants_retrieve assistant_id) (on_assistants_retrieve E);;
          ret true)
         (fun e =>
            print (ErrorRetrievingAssistant e);;
            print CreatingNewAssistant;;
            unlink assistant_file;;
            ret false)
     else ret false);
  (if negb assistant then
     let pdf_files := pdf_files E in
     match pdf_files with
     | [] => print NoPDFFilesFound
     | _ :: _ =>
         file_ids ← upload E pdf_files [];
         assistant_id ← request (assistants_create (lit "Study Q&A Assistant")
                                   (lit "gpt-4o-mini") file_ids)
                                (on_assistants_create E);
         dump_to E assistant_file (JDict [(lit "assistant_id", JStr assistant_id)]);;
         print (CreatedNewAssistant assistant_id);;
         print (AssistantCreatedWith (length file_ids));;
         print BootstrapComplete
     end
   else print BootstrapComplete).

End Main.

End Bootstrap.
(** ** The tests of [tests/test_notes_schema.py]

    Each test is the conjunction of its assertions, as a boolean:
    [pytest.raises(ValidationError)] holds when the constructor returns
    errors, and an assertion on a model that could not be built is
    false. *)

Section Tests.
Context {F : PyFloat} {L : LaxInt F}.





















End Tests.

(** ** Notions used in the statements about the bootstrap *)

(** A Unicode scalar value: a code point that is no surrogate. *)
Definition scalar (c : char) : Prop := (c < 55296 \/ 57343 < c <= 1114111)%N.

Section BootstrapNotions.
Context {F : PyFloat} {L : LaxInt F} {B : FloatBool F}.

(** What the bootstrap writes for the assistant [assistant_id]. *)
Definition assistant_file_text (assistant_id : str) : str :=
  iterencode_default (JDict [(lit "assistant_id", JStr assistant_id)]).

(** The lines and the requests of the uploads of [names], answered with
    [file_ids]. *)
Definition upload_lines (names file_ids : list str) : list line :=
  flat_map (fun p => [Uploading p.1; UploadedFileID p.2]) (zip names file_ids).

Definition upload_requests (names : list str) : list api_call :=
  map (fun name => files_create (lit "assistants") (lit "data/" ++ name)) names.

(** The service answers the uploads, from the [n]-th on, with [file_ids]. *)
Definition uploads_answered (E : env) (n : nat) (file_ids : list str) : Prop :=
  forall i file_id, file_ids !! i = Some file_id -> on_files_create E (n + i) = inr file_id.

End BootstrapNotions.

(** Truth value testing for the float type with a single value, which
    is printed as 0.0. *)
#[export] Instance OneFloatBool : FloatBool OneFloat := {|
  float_bool := fun _ => false
|}.

(** ** Sample environments

    The key is set; the user types [typed]; the service creates a run
    that is queued, shows it in progress at the first [retrieve] and
    with the status [later] from the second on, and lists [messages];
    the chat answers with the ten sample notes; the assistant on file
    is retrieved as [retrieved] says, and [pdfs] are there to upload. *)
Definition sample_thread : API.Thread := {| API.thread_id := lit "thread_1" |}.

Definition sample_run (status : string) : API.Run :=
  {| API.run_id := lit "run_1"; API.status := lit status |}.

Definition user_message : API.Message :=
  {| API.role := lit "user"; API.content := [API.TextContentBlock message_content] |}.

Definition assistant_message : API.Message :=
  {| API.role := lit "assistant";
     API.content := [API.TextContentBlock (notes_text ten_ids)] |}.

Definition sample_env_with (typed later : string) (messages : list API.Message)
    (retrieved : py_error + unit) (pdfs : list str) : env := {|
  on_client := None;
  stdin := Some (lit typed);
  unreadable := fun _ => false;
  truncated_text := fun _ => [];
  io := NoFault;
  on_threads_create := inr sample_thread;
  on_messages_create := inr tt;
  on_runs_create := inr (sample_run "queued");
  on_runs_retrieve := fun n =>
    match n with
    | O => inr (sample_run "in_progress")
    | S _ => inr (sample_run later)
    end;
  on_messages_list := inr messages;
  on_chat_completions_create := inr {| API.choices := [Some (notes_text ten_ids)] |};
  pdf_files := pdfs;
  on_assistants_retrieve := retrieved;
  on_files_create := fun _ => inr (lit "file-1");
  on_assistants_create := inr (lit "asst_1")
|}.

(** A run of the service that completes and answers with the notes. *)
Definition sample_env (typed : string) : env :=
  sample_env_with typed "completed" [user_message; assistant_message]
    (inr tt) [lit "course.pdf"].

(** A file system that holds the assistant file the bootstrap writes. *)
Definition sample_disk : gmap str file :=
  {[ assistant_id_json := Complete (assistant_file_text (lit "asst_1")) ]}.

(** * Properties *)

(** ** The models *)

Section ValidationFacts.
Context {F : PyFloat} {L : LaxInt F}.


Lemma int_between_errors lo hi v es :
  int_between lo hi v = inl es -> es <> [].
Proof.
  unfold int_between.
  destruct (lax_int v) as [e|n]; [intros [= <-]; discriminate|].
  destruct (n <? lo); [intros [= <-]; discriminate|].
  destruct (hi <? n); [intros [= <-]; discriminate|discriminate].
Qed.

Lemma str_max_length_errors n v es :
  str_max_length n v = inl es -> es <> [].
Proof.
  unfold str_max_length.
  destruct v; try (intros [= <-]; discriminate).
  destruct (n <? len s); [intros [= <-]; discriminate|discriminate].
Qed.

Lemma optional_int_errors v es :
  optional_int v = inl es -> es <> [].
Proof.
  unfold optional_int.
  destruct v; try discriminate; simpl;
    repeat match goal with
           | |- context [match ?x with _ => _ end] => destruct x
           end; try discriminate; intros [= <-]; discriminate.
Qed.

Lemma required_errors {A} d name (check : json -> list line_error + A) es :
  (forall v es', check v = inl es' -> es' <> []) ->
  required d name check = inl es -> es <> [].
Proof.
  intros Hc. unfold required.
  destruct (dict_get d (lit name)) as [v|]; [|intros [= <-]; discriminate].
  destruct (check v) as [es'|a] eqn:E; [|discriminate].
  intros [= <-]. apply Hc in E. destruct es'; [congruence|discriminate].
Qed.

Lemma defaulted_errors {A} d name (dflt : A) (check : json -> list line_error + A) es :
  (forall v es', check v = inl es' -> es' <> []) ->
  defaulted d name dflt check = inl es -> es <> [].
Proof.
  intros Hc. unfold defaulted.
  destruct (dict_get d (lit name)) as [v|]; [|discriminate].
  destruct (check v) as [es'|a] eqn:E; [|discriminate].
  intros [= <-]. apply Hc in E. destruct es'; [congruence|discriminate].
Qed.

Lemma app_not_nil_l {A} (l1 l2 : list A) : l1 <> [] -> l1 ++ l2 <> [].
Proof. destruct l1; [congruence|discriminate]. Qed.

Lemma app_not_nil_r {A} (l1 l2 : list A) : l2 <> [] -> l1 ++ l2 <> [].
Proof. destruct l1; [trivial|discriminate]. Qed.

Lemma validate_Note_errors d es : validate_Note d = inl es -> es <> [].
Proof.
  unfold validate_Note.
  pose proof (fun es => required_errors d "id" (int_between 1 10) es
                          (int_between_errors 1 10)) as H1.
  pose proof (fun es => required_errors d "heading" (str_max_length 100) es
                          (str_max_length_errors 100)) as H2.
  pose proof (fun es => required_errors d "summary" (str_max_length 150) es
                          (str_max_length_errors 150)) as H3.
  pose proof (fun es => defaulted_errors d "page_ref" None optional_int es
                          optional_int_errors) as H4.
  destruct (required d "id" (int_between 1 10)) as [e1|i];
  destruct (required d "heading" (str_max_length 100)) as [e2|h];
  destruct (required d "summary" (str_max_length 150)) as [e3|s];
  destruct (defaulted d "page_ref" None optional_int) as [e4|p];
  try discriminate; intros [= <-]; cbn [errors_of];
  repeat first
    [ apply H1; reflexivity | apply H2; reflexivity
    | apply H3; reflexivity | apply H4; reflexivity
    | apply app_not_nil_l;
      solve [apply H1; reflexivity | apply H2; reflexivity | apply H3; reflexivity]
    | apply app_not_nil_r ].
Qed.

Lemma validate_item_errors v es : validate_item v = inl es -> es <> [].
Proof.
  destruct v; simpl; try (intros [= <-]; discriminate).
  apply validate_Note_errors.
Qed.

(** The list validator accepts exactly the lists within the bound whose
    items are all valid, and returns the notes in order. *)
Lemma validate_items_inr hi i items output errors res :
  (i <= hi)%nat ->
  validate_items hi i items output errors = inr res ->
  errors = [] /\ (i + length items <= hi)%nat
  /\ exists ns, Forall2 valid_item items ns /\ res = output ++ ns.
Proof.
  revert i output errors.
  induction items as [|v rest IH]; intros i output errors Hi; simpl.
  - destruct errors; [|discriminate]. intros [= <-].
    split; [reflexivity|]. split; [lia|].
    exists []. split; [constructor|]. now rewrite app_nil_r.
  - destruct (hi <? S i)%nat eqn:Hlt; [discriminate|].
    apply Nat.ltb_ge in Hlt.
    destruct (validate_item v) as [es|n] eqn:Ev; intros H.
    + apply IH in H; [|lia]. destruct H as (Hnil & _).
      apply validate_item_errors in Ev.
      destruct errors; [|discriminate]. destruct es; [congruence|discriminate].
    + apply IH in H; [|lia]. destruct H as (-> & Hlen & ns & Hns & ->).
      split; [reflexivity|]. split; [lia|].
      exists (n :: ns). split; [constructor; assumption|].
      now rewrite <- app_assoc.
Qed.

Lemma validate_items_ok hi i items output ns :
  Forall2 valid_item items ns ->
  (i + length items <= hi)%nat ->
  validate_items hi i items output [] = inr (output ++ ns).
Proof.
  intros H. revert i output.
  induction H as [|v n items ns Hv _ IH]; intros i output Hlen; simpl.
  - now rewrite app_nil_r.
  - simpl in Hlen.
    destruct (hi <? S i)%nat eqn:Hlt; [apply Nat.ltb_lt in Hlt; lia|].
    unfold valid_item in Hv. rewrite Hv, IH by lia.
    now rewrite <- app_assoc.
Qed.

Lemma list_of_notes_inr lo hi items res :
  list_of_notes lo hi (JList items) = inr res ->
  (lo <= length items <= hi)%nat /\ Forall2 valid_item items res.
Proof.
  unfold list_of_notes.
  destruct (validate_items hi 0 items [] []) as [es|output] eqn:E; [discriminate|].
  apply validate_items_inr in E; [|lia].
  destruct E as (_ & Hhi & ns & Hns & ->). simpl in *.
  destruct (length ns <? lo)%nat eqn:Hlo; [discriminate|].
  apply Nat.ltb_ge in Hlo. intros [= <-].
  pose proof (Forall2_length _ _ _ Hns). split; [lia|assumption].
Qed.

Lemma list_of_notes_ok lo hi items ns :
  Forall2 valid_item items ns ->
  (lo <= length items <= hi)%nat ->
  list_of_notes lo hi (JList items) = inr ns.
Proof.
  intros Hns Hlen. unfold list_of_notes.
  rewrite (validate_items_ok hi 0 items [] ns Hns) by (simpl; lia). simpl.
  pose proof (Forall2_length _ _ _ Hns).
  destruct (length ns <? lo)%nat eqn:Hlo; [apply Nat.ltb_lt in Hlo; lia|reflexivity].
Qed.

Lemma list_of_notes_wrong_count lo hi items :
  (lo <= hi)%nat -> ~ (lo <= length items <= hi)%nat ->
  exists es, list_of_notes lo hi (JList items) = inl es.
Proof.
  intros Hlohi Hlen. unfold list_of_notes.
  destruct (validate_items hi 0 items [] []) as [es|output] eqn:E; [eauto|].
  apply validate_items_inr in E; [|lia].
  destruct E as (_ & Hhi & ns & Hns & ->). simpl in *.
  pose proof (Forall2_length _ _ _ Hns).
  destruct (length ns <? lo)%nat eqn:Hlo; [eauto|].
  apply Nat.ltb_ge in Hlo. lia.
Qed.

Lemma validate_NotesResponse_notes d items :
  dict_get d (lit "notes") = Some (JList items) ->
  validate_NotesResponse d
  = match list_of_notes 10 10 (JList items) with
    | inl es => inl (map (at_loc (Field (lit "notes"))) es)
    | inr ns => inr {| notes := ns |}
    end.
Proof.
  intros H. unfold validate_NotesResponse, required. rewrite H.
  destruct (list_of_notes 10 10 (JList items)); reflexivity.
Qed.

Lemma validate_NotesResponse_inr d r :
  validate_NotesResponse d = inr r ->
  exists items, dict_get d (lit "notes") = Some (JList items)
    /\ length items = 10%nat /\ Forall2 valid_item items (notes r).
Proof.
  unfold validate_NotesResponse, required.
  destruct (dict_get d (lit "notes")) as [v|] eqn:Hg; [|discriminate].
  destruct (list_of_notes 10 10 v) as [es|ns] eqn:E; [discriminate|].
  intros [= <-]. simpl.
  destruct v; try discriminate.
  apply list_of_notes_inr in E. destruct E as [Hlen Hns].
  exists l. split; [reflexivity|]. split; [lia|assumption].
Qed.

Lemma required_inr {A} d name (check : json -> list line_error + A) a :
  required d name check = inr a ->
  exists v, dict_get d (lit name) = Some v /\ check v = inr a.
Proof.
  unfold required.
  destruct (dict_get d (lit name)) as [v|]; [|discriminate].
  destruct (check v) as [es|a'] eqn:E; [discriminate|].
  intros [= <-]. eauto.
Qed.

Lemma int_between_inr lo hi v n :
  int_between lo hi v = inr n -> lax_int v = inr n /\ lo <= n <= hi.
Proof.
  unfold int_between.
  destruct (lax_int v) as [e|m]; [discriminate|].
  destruct (m <? lo) eqn:Hlo; [discriminate|].
  destruct (hi <? m) eqn:Hhi; [discriminate|].
  intros [= <-]. apply Z.ltb_ge in Hlo, Hhi. split; [reflexivity|lia].
Qed.

Lemma str_max_length_inr n v s :
  str_max_length n v = inr s -> v = JStr s /\ len s <= n.
Proof.
  unfold str_max_length. destruct v; try discriminate.
  destruct (n <? len s0) eqn:Hn; [discriminate|].
  intros [= <-]. apply Z.ltb_ge in Hn. split; [reflexivity|lia].
Qed.

(** What an accepted note says about the input it was built from. *)
Lemma validate_Note_inr d n :
  validate_Note d = inr n ->
  (exists v, dict_get d (lit "id") = Some v /\ lax_int v = inr (id n))
  /\ 1 <= id n <= 10
  /\ dict_get d (lit "heading") = Some (JStr (heading n))
  /\ len (heading n) <= 100
  /\ dict_get d (lit "summary") = Some (JStr (summary n))
  /\ len (summary n) <= 150.
Proof.
  unfold validate_Note.
  destruct (required d "id" (int_between 1 10)) as [e1|i] eqn:E1;
  destruct (required d "heading" (str_max_length 100)) as [e2|h] eqn:E2;
  destruct (required d "summary" (str_max_length 150)) as [e3|s] eqn:E3;
  destruct (defaulted d "page_ref" None optional_int) as [e4|p] eqn:E4;
  try discriminate.
  intros [= <-]. simpl.
  apply required_inr in E1, E2, E3.
  destruct E1 as (v1 & G1 & C1), E2 as (v2 & G2 & C2), E3 as (v3 & G3 & C3).
  apply int_between_inr in C1. apply str_max_length_inr in C2, C3.
  destruct C1 as [C1 R1], C2 as [-> R2], C3 as [-> R3].
  repeat split; try assumption; try lia. eauto.
Qed.

Lemma valid_item_id v n : valid_item v n -> 1 <= id n <= 10.
Proof.
  unfold valid_item. destruct v; try discriminate. simpl.
  intros H. apply validate_Note_inr in H. tauto.
Qed.

(** C4. The collection constructor accepts a list of exactly ten items
    that are each a valid note, and rejects a list of any other length,
    whether or not its items are valid notes. *)
Theorem NotesResponse_cardinality (d : list (str * json)) (items : list json) :
  dict_get d (lit "notes") = Some (JList items) ->
  (forall ns, length items = 10%nat -> Forall2 valid_item items ns ->
     validate_NotesResponse d = inr {| notes := ns |})
  /\ (length items <> 10%nat -> exists es, validate_NotesResponse d = inl es).
Proof.
  intros Hd. rewrite (validate_NotesResponse_notes d items Hd). split.
  - intros ns Hlen Hns. rewrite (list_of_notes_ok 10 10 items ns Hns) by lia.
    reflexivity.
  - intros Hlen.
    destruct (list_of_notes_wrong_count 10 10 items) as [es Hes]; [lia|lia|].
    rewrite Hes. eauto.
Qed.

(** C2, as the code has it.  Every note of an accepted collection has an
    id from 1 to 10 and there are ten of them, but ids are not compared
    with one another: ten copies of one valid note are accepted. *)
Theorem NotesResponse_ids_not_compared :
  (forall d r, validate_NotesResponse d = inr r ->
     length (notes r) = 10%nat /\ Forall (fun n => 1 <= id n <= 10) (notes r))
  /\ (forall v n, valid_item v n ->
        validate_NotesResponse [(lit "notes", JList (replicate 10 v))]
        = inr {| notes := replicate 10 n |}).
Proof.
  split.
  - intros d r H. apply validate_NotesResponse_inr in H.
    destruct H as (items & _ & Hlen & Hns).
    pose proof (Forall2_length _ _ _ Hns) as Hl. split; [lia|].
    clear Hlen Hl. induction Hns; constructor; eauto using valid_item_id.
  - intros v n Hv.
    rewrite (validate_NotesResponse_notes _ (replicate 10 v)) by reflexivity.
    rewrite (list_of_notes_ok 10 10 _ (replicate 10 n)); [reflexivity| |simpl; lia].
    repeat constructor; assumption.
Qed.



End ValidationFacts.

Lemma NotesResponse_cardinality_witness :
  validate_NotesResponse (sample_notes one_to_ten)
  = inr {| notes := map sample_Note one_to_ten |}
  /\ exists es, validate_NotesResponse (sample_notes [1; 2; 3; 4; 5; 6; 7; 8; 9]) = inl es.
Proof.
  split.
  - apply (proj1 (NotesResponse_cardinality (sample_notes one_to_ten)
                    (map sample_note one_to_ten) eq_refl)).
    + reflexivity.
    + repeat (constructor; [vm_compute; reflexivity|]). constructor.
  - apply (proj2 (NotesResponse_cardinality (sample_notes [1; 2; 3; 4; 5; 6; 7; 8; 9])
                    (map sample_note [1; 2; 3; 4; 5; 6; 7; 8; 9]) eq_refl)).
    simpl. lia.
Defined.

(** C2, as stated, fails: ten valid notes that all carry id 1 are
    accepted, so an accepted collection need not have distinct ids. *)
Lemma duplicate_ids_accepted :
  ~ (forall (d : list (str * json)) (r : NotesResponse),
       validate_NotesResponse d = inr r -> List.NoDup (map id (notes r))).
Proof.
  intros H.
  specialize (H (sample_notes (replicate 10 1))
                {| notes := replicate 10 (sample_Note 1) |} eq_refl).
  simpl in H. apply List.NoDup_cons_iff in H. destruct H as [H _].
  apply H. left. reflexivity.
Qed.

Lemma NotesResponse_ids_not_compared_witness :
  validate_NotesResponse [(lit "notes", JList (replicate 10 (sample_note 1)))]
  = inr {| notes := replicate 10 (sample_Note 1) |}.
Proof.
  apply (proj2 NotesResponse_ids_not_compared).
  vm_compute. reflexivity.
Defined.


(** ** The function as a whole *)

Section PipelineFacts.
Context {F : PyFloat} {L : LaxInt F}.





End PipelineFacts.




(** A key that is no field of the models is in the written file, and is
    read back from it. *)
Example extra_key_is_saved :
  exists d,
    json_loads (sanitize (notes_and_extra_text ten_ids)) = Some (JDict d)
    /\ dict_get d (lit "extra") = Some (JInt 1)
    /\ returned (validate_and_save_notes NoFault (notes_and_extra_text ten_ids)
                   exam_notes_json ∅)
       = Some (map sample_Note one_to_ten)
    /\ files (validate_and_save_notes NoFault (notes_and_extra_text ten_ids)
                exam_notes_json ∅) !! exam_notes_json
       = Some (Complete (json_dump (JDict d)))
    /\ json_loads (json_dump (JDict d)) = Some (JDict d).
Proof.
  exists (sample_notes one_to_ten ++ [(lit "extra", JInt 1)]).
  repeat split; vm_compute; reflexivity.
Qed.


(** ** String operations *)

Lemma startswith_app (p s : str) : startswith (p ++ s) p = true.
Proof.
  induction p as [|a p IH]; simpl; [destruct s; reflexivity|].
  unfold char_eqb. rewrite N.eqb_refl. exact IH.
Qed.

Lemma startswith_short (s p : str) :
  (length s < length p)%nat -> startswith s p = false.
Proof.
  revert s. induction p as [|a p IH]; intros s Hlen; simpl in *; [lia|].
  destruct s as [|b s]; [reflexivity|]. simpl in *.
  rewrite IH by lia. apply andb_false_r.
Qed.

Lemma find_startswith (s sub : str) : startswith s sub = true -> find s sub = 0.
Proof. intros H. unfold find. destruct s; cbn [find_from]; rewrite H; reflexivity. Qed.

Lemma find_from_absent (i : Z) (s : str) (c : char) :
  c ∉ s -> find_from i s [c] = -1.
Proof.
  revert i. induction s as [|b s IH]; intros i Hc; simpl; [reflexivity|].
  apply not_elem_of_cons in Hc. destruct Hc as [Hne Hc].
  unfold char_eqb. destruct (N.eqb_spec c b); [congruence|]. simpl.
  apply IH. assumption.
Qed.

Lemma find_absent (s : str) (c : char) : c ∉ s -> find s [c] = -1.
Proof. apply find_from_absent. Qed.

Lemma rfind_from_short (i : Z) (s sub : str) :
  (length s < length sub)%nat -> rfind_from i s sub = -1.
Proof.
  revert i. induction s as [|c s IH]; intros i Hlen.
  - simpl. destruct sub; [simpl in Hlen; lia|reflexivity].
  - cbn [rfind_from]. rewrite IH by (simpl in Hlen; lia).
    rewrite startswith_short by assumption. reflexivity.
Qed.

(** The last occurrence of a non-empty [sub] in a text that ends with it
    is the one at the end. *)
Lemma rfind_from_app_end (i : Z) (t sub : str) :
  0 <= i -> sub <> [] -> rfind_from i (t ++ sub) sub = i + len t.
Proof.
  intros Hi Hsub. revert i Hi.
  induction t as [|c t IH]; intros i Hi.
  - rewrite app_nil_l. unfold len. simpl length. rewrite Z.add_0_r.
    destruct sub as [|a sub]; [congruence|].
    cbn [rfind_from]. rewrite rfind_from_short by (simpl; lia).
    rewrite (startswith_app (a :: sub) []) || idtac.
    replace (startswith (a :: sub) (a :: sub)) with true.
    + reflexivity.
    + symmetry. rewrite <- (app_nil_r (a :: sub)) at 1. apply startswith_app.
  - rewrite <- app_comm_cons. cbn [rfind_from].
    rewrite IH by lia.
    destruct (0 <=? i + 1 + len t) eqn:E.
    + unfold len. simpl length. lia.
    + apply Z.leb_gt in E. unfold len in E. lia.
Qed.

Lemma rfind_app_end (t sub : str) : sub <> [] -> rfind (t ++ sub) sub = len t.
Proof. intros H. unfold rfind. rewrite rfind_from_app_end by (lia || assumption). lia. Qed.

Lemma len_app (a b : str) : len (a ++ b) = len a + len b.
Proof. unfold len. rewrite length_app. lia. Qed.

Lemma len_nonneg (s : str) : 0 <= len s.
Proof. unfold len. lia. Qed.

Lemma slice_middle (p body q : str) :
  slice (p ++ body ++ q) (len p) (len p + len body) = body.
Proof.
  unfold slice, clamp. rewrite !len_app.
  pose proof (len_nonneg p). pose proof (len_nonneg body). pose proof (len_nonneg q).
  destruct (len p <? 0) eqn:E1; [apply Z.ltb_lt in E1; lia|].
  destruct (len p + len body <? 0) eqn:E2; [apply Z.ltb_lt in E2; lia|].
  rewrite !Z.min_l by lia.
  replace (Z.to_nat (len p)) with (length p) by (unfold len; lia).
  replace (Z.to_nat (len p + len body - len p)) with (length body) by (unfold len; lia).
  rewrite drop_app_length. apply take_app_length.
Qed.

(** ** Trimming *)

Lemma lstrip_split (s : str) :
  exists w, s = w ++ lstrip s /\ forallb isspace w = true.
Proof.
  induction s as [|c s (w & Hs & Hw)]; simpl.
  - exists []. split; reflexivity.
  - destruct (isspace c) eqn:E.
    + exists (c :: w). simpl. rewrite E, Hw. split; [congruence|reflexivity].
    + exists []. split; reflexivity.
Qed.

Lemma rstrip_split (s : str) :
  exists w, s = rstrip s ++ w /\ forallb isspace w = true.
Proof.
  unfold rstrip. destruct (lstrip_split (rev s)) as (w & Hs & Hw).
  exists (rev w). split.
  - rewrite <- rev_app_distr, <- Hs. symmetry. apply rev_involutive.
  - rewrite forallb_forall in *. intros x Hx. apply Hw. now apply in_rev.
Qed.

Lemma strip_split (s : str) :
  exists w1 w2, s = w1 ++ strip s ++ w2
    /\ forallb isspace w1 = true /\ forallb isspace w2 = true.
Proof.
  destruct (lstrip_split s) as (w1 & H1 & Hw1).
  destruct (rstrip_split (lstrip s)) as (w2 & H2 & Hw2).
  exists w1, w2. unfold strip. rewrite <- H2. auto.
Qed.

Lemma lstrip_head (c : char) (r : str) :
  lstrip (c :: r) = c :: r -> isspace c = false.
Proof.
  simpl. destruct (isspace c) eqn:E; [|reflexivity].
  intros H. destruct (lstrip_split r) as (w & Hr & _).
  assert (Hl : length (lstrip r) = length (c :: r)) by (now rewrite H).
  rewrite Hr in Hl at 2. simpl in Hl. rewrite length_app in Hl. lia.
Qed.

Lemma strip_fixed_head (c : char) (r : str) :
  strip (c :: r) = c :: r -> isspace c = false.
Proof.
  intros H. apply (lstrip_head c r).
  destruct (lstrip_split (c :: r)) as (w1 & H1 & _).
  destruct (rstrip_split (lstrip (c :: r))) as (w2 & H2 & _).
  unfold strip in H.
  pose proof (f_equal length H1) as L1. rewrite length_app in L1.
  pose proof (f_equal length H2) as L2. rewrite length_app, H in L2.
  destruct w1; [symmetry; exact H1|]. simpl in L1, L2. lia.
Qed.

(** ** The clean-up *)

Lemma sanitize_steps (s : str) : sanitize s = drop_prose (strip_fences (strip s)).
Proof. reflexivity. Qed.






Lemma drop_prose_no_brace (t : str) : 123%N ∉ t -> drop_prose t = t.
Proof.
  intros H. unfold drop_prose, lbrace. change (lit "{") with [123%N].
  rewrite find_absent by assumption. reflexivity.
Qed.

Lemma drop_prose_leading_brace (t : str) : drop_prose (123%N :: t) = 123%N :: t.
Proof. reflexivity. Qed.

Lemma startswith_prefix (s p q : str) :
  startswith s (p ++ q) = true -> startswith s p = true.
Proof.
  revert s. induction p as [|a p IH]; intros s; [reflexivity|].
  simpl. destruct s as [|b s]; [discriminate|].
  intros H. apply andb_true_iff in H. destruct H as [-> H]. simpl. now apply IH.
Qed.

Lemma startswith_fence_json (t : str) :
  startswith t fence = false -> startswith t fence_json = false.
Proof.
  intros H. destruct (startswith t fence_json) eqn:E; [|reflexivity].
  apply (startswith_prefix t fence (lit "json")) in E. congruence.
Qed.

Lemma strip_fences_unfenced (t : str) :
  startswith t fence = false -> strip_fences t = t.
Proof.
  intros H. unfold strip_fences.
  rewrite (startswith_fence_json t H), H. reflexivity.
Qed.

Lemma rfind_closing_fence (p body : str) :
  rfind (p ++ body ++ fence) fence = len p + len body.
Proof.
  rewrite app_assoc, rfind_app_end by discriminate. apply len_app.
Qed.

Lemma len_pos (s : str) : s <> [] -> 0 < len s.
Proof. unfold len. destruct s; [congruence|simpl; lia]. Qed.

(** The fenced cases: both fences go, and the tag when it is [json]. *)
Lemma strip_fences_json (body : str) :
  body <> [] -> strip_fences (fence_json ++ body ++ fence) = strip body.
Proof.
  intros Hb. apply len_pos in Hb. unfold strip_fences.
  rewrite startswith_app.
  rewrite (find_startswith _ _ (startswith_app fence_json (body ++ fence))).
  rewrite rfind_closing_fence. change (len fence_json) with 7.
  destruct (7 + len body >? 0 + 7) eqn:E;
    [|rewrite Z.gtb_ltb in E; apply Z.ltb_ge in E; lia].
  change (0 + 7) with (len fence_json). change 7 with (len fence_json).
  rewrite slice_middle. reflexivity.
Qed.

Lemma strip_fences_plain (body : str) :
  startswith (fence ++ body ++ fence) fence_json = false ->
  body <> [] -> strip_fences (fence ++ body ++ fence) = strip body.
Proof.
  intros Hj Hb. apply len_pos in Hb. unfold strip_fences. rewrite Hj.
  rewrite startswith_app.
  rewrite (find_startswith _ _ (startswith_app fence (body ++ fence))).
  rewrite rfind_closing_fence. change (len fence) with 3.
  destruct (3 + len body >? 0 + 3) eqn:E;
    [|rewrite Z.gtb_ltb in E; apply Z.ltb_ge in E; lia].
  change (0 + 3) with (len fence). change 3 with (len fence).
  rewrite slice_middle. reflexivity.
Qed.

(** C6, as the code has it.  When the trimmed text is [```json], a
    non-empty body and a closing fence, or a plain fence, a non-empty
    body and a closing fence (and does not begin with [```json]), the
    clean-up removes both fences and the [json] tag, trims the body, and
    then, as for any text, drops what stands before the first brace of
    the trimmed body.  A tag other than [json] is part of the body.
    With an empty body the fences stay. *)
Theorem sanitize_fenced_block (s body : str) :
  (strip s = fence_json ++ body ++ fence -> body <> [] ->
     sanitize s = drop_prose (strip body))
  /\ (strip s = fence ++ body ++ fence ->
      startswith (strip s) fence_json = false -> body <> [] ->
      sanitize s = drop_prose (strip body))
  /\ (strip s = fence_json ++ fence -> sanitize s = strip s)
  /\ (strip s = fence ++ fence -> sanitize s = strip s).
Proof.
  rewrite sanitize_steps. split; [|split; [|split]].
  - intros -> Hb. now rewrite strip_fences_json.
  - intros -> Hj Hb. now rewrite strip_fences_plain.
  - intros ->. reflexivity.
  - intros ->. reflexivity.
Qed.

Lemma sanitize_fenced_block_witness :
  sanitize (text ("  ```json" ++ newline ++ "{'notes': []}" ++ newline ++ "```  "))
  = drop_prose (strip (text (newline ++ "{'notes': []}" ++ newline))).
Proof.
  apply (proj1 (sanitize_fenced_block
                  (text ("  ```json" ++ newline ++ "{'notes': []}" ++ newline ++ "```  "))
                  (text (newline ++ "{'notes': []}" ++ newline)))).
  - vm_compute. reflexivity.
  - discriminate.
Defined.

(** C6, as stated, fails: with an empty body the fences stay; a language
    tag other than [json] stays; and text before the first brace of the
    interior is dropped. *)
Lemma fenced_block_not_its_interior :
  sanitize (lit "```json```") = lit "```json```"
  /\ sanitize (lit ("```python" ++ newline ++ "x = 1" ++ newline ++ "```"))
     = lit ("python" ++ newline ++ "x = 1")
  /\ sanitize (text ("```json" ++ newline ++ "Here: {'a': 1}" ++ newline ++ "```"))
     = text "{'a': 1}".
Proof. repeat split; vm_compute; reflexivity. Qed.

(** ** What [json.loads] accepts *)

Lemma is_ws_isspace (c : char) : is_ws c = true -> isspace c = true.
Proof.
  unfold is_ws. rewrite !orb_true_iff, !N.eqb_eq.
  intros [[[->| ->]| ->]| ->]; reflexivity.
Qed.

Lemma skip_ws_split (s : str) :
  exists w, s = w ++ skip_ws s /\ forallb is_ws w = true.
Proof.
  induction s as [|c s (w & Hs & Hw)]; simpl.
  - exists []. split; reflexivity.
  - destruct (is_ws c) eqn:E.
    + exists (c :: w). simpl. rewrite E, Hw. split; [congruence|reflexivity].
    + exists []. split; reflexivity.
Qed.


Section LoadsFacts.
Context {F : PyFloat}.

Lemma parse_array_list fuel s rval (v : json) r :
  parse_array fuel s rval = Some (v, r) -> exists l, v = JList l.
Proof.
  revert s rval. induction fuel as [|fuel IH]; intros s rval; [discriminate|].
  cbn [parse_array].
  destruct (scan_once fuel s) as [[val r1]|]; [|discriminate].
  destruct (skip_ws r1) as [|c r2]; [discriminate|].
  destruct (c =? 93)%N; [intros [= <- _]; eauto|].
  destruct (c =? 44)%N; [apply IH|discriminate].
Qed.

(** Only a text that starts with a brace is read as an object. *)
Lemma scan_once_dict fuel s (d : list (str * json)) r :
  scan_once fuel s = Some (JDict d, r) -> exists s', s = 123%N :: s'.
Proof.
  destruct fuel as [|fuel]; [discriminate|].
  destruct s as [|c s']; [discriminate|]. cbn [scan_once].
  destruct (c =? 34)%N; [destruct (scanstring s') as [[x r']|]; discriminate|].
  destruct (c =? 123)%N eqn:E; [apply N.eqb_eq in E; subst c; eauto|].
  destruct (c =? 91)%N.
  { destruct (skip_ws s') as [|c' r']; [discriminate|].
    destruct (c' =? 93)%N; [discriminate|].
    intros H. apply parse_array_list in H. destruct H. discriminate. }
  repeat (match goal with
          | |- context [if startswith ?a ?b then _ else _] =>
              destruct (startswith a b); [discriminate|]
          end).
  destruct (match_number (c :: s')) as [[[[] numstr] r']|]; discriminate.
Qed.

Lemma scan_once_backtick fuel r : scan_once fuel (96%N :: r) = None.
Proof. destruct fuel; reflexivity. Qed.

Lemma json_loads_first (s : str) (v : json) :
  json_loads s = Some v ->
  exists c r, skip_ws s = c :: r /\ c <> 96%N
    /\ (forall d, v = JDict d -> c = 123%N).
Proof.
  unfold json_loads. destruct (startswith s [65279%N]); [discriminate|].
  destruct (scan_once (S (2 * length s)) (skip_ws s)) as [[obj r]|] eqn:E; [|discriminate].
  destruct (skip_ws r); [|discriminate]. intros [= ->].
  destruct (skip_ws s) as [|c r']; [discriminate|].
  exists c, r'. split; [reflexivity|]. split.
  - intros ->. rewrite scan_once_backtick in E. discriminate.
  - intros d ->. apply scan_once_dict in E. destruct E as [s' [= ->]]. reflexivity.
Qed.


(** C7, as the code has it.  The clean-up leaves a well-formed JSON text
    without surrounding white space as it is when the text is an object
    or holds no brace at all. *)
Theorem sanitize_clean_json (s : str) (v : json) :
  json_loads s = Some v ->
  strip s = s ->
  (exists d, v = JDict d) \/ 123%N ∉ s ->
  sanitize s = s.
Proof.
  intros Hl Hs Hv. rewrite sanitize_steps, Hs.
  apply json_loads_first in Hl. destruct Hl as (c & r & Hc & Hbt & Hd).
  destruct s as [|c0 r0]; [discriminate|].
  assert (Hws : is_ws c0 = false).
  { destruct (is_ws c0) eqn:E; [|reflexivity].
    apply is_ws_isspace in E. rewrite (strip_fixed_head c0 r0 Hs) in E. discriminate. }
  simpl in Hc. rewrite Hws in Hc. injection Hc as -> ->.
  rewrite strip_fences_unfenced.
  - destruct Hv as [[d ->]|Hv].
    + rewrite (Hd d eq_refl). apply drop_prose_leading_brace.
    + now apply drop_prose_no_brace.
  - change fence with [96%N; 96%N; 96%N]. cbn [startswith]. unfold char_eqb at 1.
    destruct (N.eqb_spec 96 c); [congruence|reflexivity].
Qed.

End LoadsFacts.

Lemma sanitize_clean_json_witness :
  sanitize (text "{'notes': []}") = text "{'notes': []}".
Proof.
  apply (sanitize_clean_json (text "{'notes': []}") (JDict [(lit "notes", JList [])])).
  - vm_compute. reflexivity.
  - vm_compute. reflexivity.
  - left. eauto.
Defined.

(** C7, as stated, fails: an array of objects is well-formed JSON with no
    white space, fence or prose around it, and loses its opening
    bracket. *)
Lemma clean_array_of_objects_is_cut :
  json_loads (text "[{}]") = Some (JList [JDict []])
  /\ strip (text "[{}]") = text "[{}]"
  /\ sanitize (text "[{}]") = text "{}]"
  /\ sanitize (text "[{}]") <> text "[{}]".
Proof. repeat split; try (vm_compute; reflexivity). vm_compute. discriminate. Qed.

Section NoBrace.
Context {F : PyFloat} {L : LaxInt F}.



End NoBrace.



(** ** Number literals *)


Lemma span_digits_split (s d r : str) :
  span_digits s = (d, r) -> s = d ++ r /\ forallb isdigit d = true.
Proof.
  revert d r. induction s as [|c s IH]; intros d r; simpl.
  - intros [= <- <-]. split; reflexivity.
  - destruct (isdigit c) eqn:E.
    + destruct (span_digits s) as [d' r'] eqn:Es. intros [= <- <-].
      destruct (IH d' r' eq_refl) as [-> Hd]. simpl. rewrite E. split; [reflexivity|exact Hd].
    + intros [= <- <-]. split; reflexivity.
Qed.

Lemma span_digits_app (s d r rest : str) :
  span_digits s = (d, r) -> number_stop rest ->
  span_digits (s ++ rest) = (d, r ++ rest).
Proof.
  intros H Hstop. revert d r H. induction s as [|c s IH]; intros d r; simpl.
  - intros [= <- <-]. destruct rest as [|c rest]; [reflexivity|].
    simpl in *. destruct Hstop as (-> & _). reflexivity.
  - destruct (isdigit c) eqn:E.
    + destruct (span_digits s) as [d' r'] eqn:Es. intros [= <- <-].
      now rewrite (IH d' r' eq_refl).
    + intros [= <- <-]. reflexivity.
Qed.

Lemma span_digits_all (d : str) :
  forallb isdigit d = true -> span_digits d = (d, []).
Proof.
  induction d as [|c d IH]; simpl; [reflexivity|].
  intros H. apply andb_true_iff in H. destruct H as [-> H].
  now rewrite IH.
Qed.

Lemma lex_sign_app (s x r rest : str) :
  lex_sign s = (x, r) -> number_stop rest ->
  lex_sign (s ++ rest) = (x, r ++ rest).
Proof.
  intros H Hstop. destruct s as [|c s]; simpl in *.
  - injection H as <- <-. destruct rest as [|c rest]; [reflexivity|].
    simpl in *. destruct Hstop as (_ & _ & _ & _ & _ & ->). reflexivity.
  - destruct (c =? 45)%N; injection H as <- <-; reflexivity.
Qed.

Lemma lex_int_app (s x r rest : str) :
  lex_int s = Some (x, r) -> number_stop rest ->
  lex_int (s ++ rest) = Some (x, r ++ rest).
Proof.
  intros H Hstop. destruct s as [|c s]; simpl in *; [discriminate|].
  destruct ((49 <=? c) && (c <=? 57))%N.
  - destruct (span_digits s) as [d r'] eqn:Es. injection H as <- <-.
    now rewrite (span_digits_app s d r' rest Es Hstop).
  - destruct (c =? 48)%N; [|discriminate]. injection H as <- <-. reflexivity.
Qed.

Lemma lex_frac_app (s x r rest : str) :
  lex_frac s = (x, r) -> number_stop rest ->
  lex_frac (s ++ rest) = (x, r ++ rest).
Proof.
  intros H Hstop. destruct s as [|a [|b s]].
  - simpl in H. injection H as <- <-. simpl.
    destruct rest as [|c [|c' rest]]; try reflexivity.
    simpl in Hstop. destruct Hstop as (_ & Hdot & _). cbn [lex_frac]. now rewrite Hdot.
  - simpl in H. injection H as <- <-.
    destruct rest as [|c rest]; [reflexivity|].
    simpl in Hstop. destruct Hstop as (Hd & _). cbn [app lex_frac].
    rewrite Hd. now rewrite andb_false_r.
  - cbn [app lex_frac] in *.
    destruct ((a =? 46)%N && isdigit b).
    + destruct (span_digits (b :: s)) as [ds r'] eqn:Es. injection H as <- <-.
      change (b :: s ++ rest) with ((b :: s) ++ rest).
      now rewrite (span_digits_app _ ds r' rest Es Hstop).
    + injection H as <- <-. reflexivity.
Qed.

Lemma lex_exp_app (s x r rest : str) :
  lex_exp s = (x, r) -> number_stop rest ->
  lex_exp (s ++ rest) = (x, r ++ rest).
Proof.
  intros H Hstop. destruct s as [|e s].
  - simpl in H. injection H as <- <-. simpl.
    destruct rest as [|c rest]; [reflexivity|].
    simpl in Hstop. destruct Hstop as (_ & _ & He & HE & _). cbn [lex_exp].
    rewrite He, HE. reflexivity.
  - cbn [app lex_exp] in *.
    destruct ((e =? 101) || (e =? 69))%N; [|injection H as <- <-; reflexivity].
    destruct s as [|g s].
    + simpl in H. injection H as <- <-. cbn [app].
      destruct rest as [|c rest]; [reflexivity|].
      simpl in Hstop. destruct Hstop as (Hd & _ & _ & _ & Hplus & Hminus).
      rewrite Hplus, Hminus. simpl. rewrite Hd. reflexivity.
    + cbn [app].
      destruct ((g =? 45) || (g =? 43))%N.
      * destruct (span_digits s) as [ds r2] eqn:Es.
        rewrite (span_digits_app s ds r2 rest Es Hstop).
        destruct ds; injection H as <- <-; reflexivity.
      * destruct (span_digits (g :: s)) as [ds r2] eqn:Es.
        change (g :: s ++ rest) with ((g :: s) ++ rest).
        rewrite (span_digits_app _ ds r2 rest Es Hstop).
        destruct ds; injection H as <- <-; reflexivity.
Qed.

(** A number literal is read the same way whatever follows it, as long
    as what follows cannot continue it. *)
Lemma match_number_app (s l r rest : str) (b : bool) :
  match_number s = Some (b, l, r) -> number_stop rest ->
  match_number (s ++ rest) = Some (b, l, r ++ rest).
Proof.
  unfold match_number. intros H Hstop.
  destruct (lex_sign s) as [sign s1] eqn:E1.
  rewrite (lex_sign_app s sign s1 rest E1 Hstop).
  destruct (lex_int s1) as [[ip s2]|] eqn:E2; [|discriminate].
  rewrite (lex_int_app s1 ip s2 rest E2 Hstop).
  destruct (lex_frac s2) as [frac s3] eqn:E3.
  rewrite (lex_frac_app s2 frac s3 rest E3 Hstop).
  destruct (lex_exp s3) as [ex s4] eqn:E4.
  rewrite (lex_exp_app s3 ex s4 rest E4 Hstop).
  injection H as <- <- <-. reflexivity.
Qed.

(** A number literal starts with a digit, or with a minus sign and a digit. *)
Lemma match_number_head (s l r : str) (b : bool) :
  match_number s = Some (b, l, r) ->
  exists c s', s = c :: s' /\
    (isdigit c = true \/ (c = 45%N /\ exists d s'', s' = d :: s'' /\ isdigit d = true)).
Proof.
  assert (Hint : forall t x, lex_int t = Some x ->
                   exists d t', t = d :: t' /\ isdigit d = true).
  { intros t x. destruct t as [|d t']; simpl; [discriminate|].
    unfold isdigit.
    destruct (N.leb_spec 49 d), (N.leb_spec d 57), (N.eqb_spec d 48); simpl;
      try discriminate; intros _; exists d, t'; split; try reflexivity;
      apply andb_true_iff; split; apply N.leb_le; lia. }
  unfold match_number. destruct s as [|c s']; [discriminate|].
  cbn [lex_sign]. destruct (N.eqb_spec c 45) as [->|Hc].
  - destruct (lex_int s') as [x|] eqn:E; [|discriminate]. intros _.
    exists 45%N, s'. split; [reflexivity|]. right. split; [reflexivity|].
    eapply Hint; eauto.
  - destruct (lex_int (c :: s')) as [x|] eqn:E; [|discriminate]. intros _.
    exists c, s'. split; [reflexivity|]. left.
    destruct (Hint _ _ E) as (d & t' & [= <- <-] & Hd). exact Hd.
Qed.

(** ** Integer literals *)

Lemma uint_chars_digits (d : Decimal.uint) : forallb isdigit (uint_chars d) = true.
Proof. induction d; simpl; try reflexivity; assumption. Qed.

Lemma chars_uint_chars (d : Decimal.uint) : chars_uint (uint_chars d) = d.
Proof.
  induction d as [|d IH|d IH|d IH|d IH|d IH|d IH|d IH|d IH|d IH|d IH];
    simpl; [reflexivity|..]; rewrite IH; reflexivity.
Qed.

(** The decimal digits of a positive number start with a digit from 1
    to 9. *)
Lemma pos_uint_head (p : positive) :
  exists c r, uint_chars (Pos.to_uint p) = c :: r
    /\ ((49 <=? c) && (c <=? 57))%N = true.
Proof.
  pose proof (DecimalPos.Unsigned.to_of (Pos.to_uint p)) as Hn.
  rewrite DecimalPos.Unsigned.of_to in Hn. simpl in Hn.
  pose proof (DecimalPos.Unsigned.to_uint_nonzero p) as Hz.
  pose proof (DecimalFacts.nzhead_nonzero (Pos.to_uint p)) as Hh.
  unfold Decimal.unorm in Hn.
  destruct (Decimal.nzhead (Pos.to_uint p)) as [|u|u|u|u|u|u|u|u|u|u] eqn:E;
    try (rewrite Hn; simpl; eexists _, _; split; reflexivity).
  - exfalso. apply Hz. rewrite Hn. reflexivity.
  - exfalso. now apply (Hh u).
Qed.

Lemma match_number_digits (c : char) (r : str) :
  ((49 <=? c) && (c <=? 57))%N = true ->
  forallb isdigit r = true ->
  match_number (c :: r) = Some (false, c :: r, []).
Proof.
  intros Hc Hr. unfold match_number. cbn [lex_sign].
  assert (Hm : (c =? 45)%N = false).
  { apply andb_true_iff in Hc. destruct Hc as [Hc _].
    apply N.leb_le in Hc. apply N.eqb_neq. lia. }
  rewrite Hm. cbn [lex_int]. rewrite Hc, (span_digits_all r Hr).
  simpl. now rewrite app_nil_r.
Qed.

Lemma match_number_minus (c : char) (s l r : str) (b : bool) :
  (c =? 45)%N = false ->
  match_number (c :: s) = Some (b, l, r) ->
  match_number (45%N :: c :: s) = Some (b, 45%N :: l, r).
Proof.
  intros Hc. unfold match_number. cbn [lex_sign]. rewrite Hc.
  change (45 =? 45)%N with true. cbv iota.
  destruct (lex_int (c :: s)) as [[ip s2]|]; [|discriminate].
  destruct (lex_frac s2) as [frac s3]. destruct (lex_exp s3) as [ex s4].
  intros [= <- <- <-]. reflexivity.
Qed.

Lemma digit_not_minus (c : char) :
  ((49 <=? c) && (c <=? 57))%N = true -> (c =? 45)%N = false.
Proof.
  intros Hc. apply andb_true_iff in Hc. destruct Hc as [Hc _].
  apply N.leb_le in Hc. apply N.eqb_neq. lia.
Qed.

Lemma match_number_int_repr (n : Z) :
  match_number (int_repr n) = Some (false, int_repr n, []).
Proof.
  destruct n as [|p|p]; unfold int_repr; cbn [Z.to_int].
  - reflexivity.
  - destruct (pos_uint_head p) as (c & r & E & Hc).
    pose proof (uint_chars_digits (Pos.to_uint p)) as Hd.
    rewrite E in *. simpl in Hd. apply andb_true_iff in Hd.
    apply match_number_digits; tauto.
  - destruct (pos_uint_head p) as (c & r & E & Hc).
    pose proof (uint_chars_digits (Pos.to_uint p)) as Hd.
    rewrite E in *. simpl in Hd. apply andb_true_iff in Hd.
    apply match_number_minus; [now apply digit_not_minus|].
    apply match_number_digits; tauto.
Qed.

Lemma int_of_str_repr (n : Z) : int_of_str (int_repr n) = n.
Proof.
  destruct n as [|p|p]; unfold int_repr; cbn [Z.to_int].
  - reflexivity.
  - destruct (pos_uint_head p) as (c & r & E & Hc).
    pose proof (digit_not_minus c Hc) as Hm.
    unfold int_of_str. rewrite E, Hm, <- E, chars_uint_chars.
    exact (DecimalZ.of_to (Z.pos p)).
  - unfold int_of_str. change (45 =? 45)%N with true. cbv iota.
    rewrite chars_uint_chars. exact (DecimalZ.of_to (Z.neg p)).
Qed.

(** ** String literals *)

Lemma hexval_hexdigit (n : N) : (n < 16)%N -> hexval (hexdigit n) = Some n.
Proof.
  intros Hn. unfold hexdigit, hexval.
  destruct (N.ltb_spec n 10).
  - replace ((48 <=? 48 + n) && (48 + n <=? 57))%N with true.
    + f_equal. lia.
    + symmetry. apply andb_true_iff. split; apply N.leb_le; lia.
  - replace ((48 <=? 87 + n) && (87 + n <=? 57))%N with false.
    + replace ((97 <=? 87 + n) && (87 + n <=? 102))%N with true.
      * f_equal. lia.
      * symmetry. apply andb_true_iff. split; apply N.leb_le; lia.
    + symmetry. apply andb_false_iff. right. apply N.leb_gt. lia.
Qed.

Lemma hex4_control (c : char) :
  (c < 32)%N -> hex4 48%N 48%N (hexdigit (c / 16)) (hexdigit (c mod 16)) = Some c.
Proof.
  intros Hc. unfold hex4. change (hexval 48%N) with (Some 0%N).
  assert (c / 16 < 16)%N by (apply N.Div0.div_lt_upper_bound; lia).
  assert (c mod 16 < 16)%N by (apply N.mod_lt; lia).
  rewrite !hexval_hexdigit by assumption. f_equal.
  pose proof (N.div_mod c 16). lia.
Qed.

Lemma scanstring_u (h1 h2 h3 h4 : char) (u : N) (r : str) :
  hex4 h1 h2 h3 h4 = Some u -> is_high_surrogate u = false ->
  scanstring (92%N :: 117%N :: h1 :: h2 :: h3 :: h4 :: r) = prepend u (scanstring r).
Proof.
  intros Hh Hs. cbn [scanstring]. change (92 =? 34)%N with false.
  change (92 =? 92)%N with true. change (117 =? 117)%N with true. cbv iota.
  rewrite Hh, Hs. cbn [andb].
  destruct r as [|b [|u' [|g1 [|g2 [|g3 [|g4 r3]]]]]]; reflexivity.
Qed.

Lemma scanstring_escape (c : char) (t : str) :
  scanstring (escape_char c ++ t) = prepend c (scanstring t).
Proof.
  unfold escape_char.
  destruct (N.eqb_spec c 92) as [->|H92]; [reflexivity|].
  destruct (N.eqb_spec c 34) as [->|H34]; [reflexivity|].
  destruct (N.eqb_spec c 8) as [->|H8]; [reflexivity|].
  destruct (N.eqb_spec c 12) as [->|H12]; [reflexivity|].
  destruct (N.eqb_spec c 10) as [->|H10]; [reflexivity|].
  destruct (N.eqb_spec c 13) as [->|H13]; [reflexivity|].
  destruct (N.eqb_spec c 9) as [->|H9]; [reflexivity|].
  destruct (N.ltb_spec c 32) as [Hlt|Hge].
  - cbn [app]. apply scanstring_u; [now apply hex4_control|].
    unfold is_high_surrogate. apply andb_false_iff. left. apply N.leb_gt. lia.
  - cbn [app scanstring].
    destruct (N.eqb_spec c 34); [congruence|].
    destruct (N.eqb_spec c 92); [congruence|].
    destruct (N.leb_spec c 31); [lia|]. reflexivity.
Qed.

(** Reading an encoded string gives the string back. *)
Lemma scanstring_encoded (s rest : str) :
  scanstring (flat_map escape_char s ++ 34%N :: rest) = Some (s, rest).
Proof.
  induction s as [|c s IH]; [reflexivity|].
  cbn [flat_map]. rewrite <- app_assoc, scanstring_escape, IH. reflexivity.
Qed.

(** What a string scan leaves is shorter than what it was given. *)
Lemma prepend_some (c : char) (o : option (str * str)) (x r : str) :
  prepend c o = Some (x, r) -> exists x', o = Some (x', r) /\ x = c :: x'.
Proof. destruct o as [[x' r']|]; [|discriminate]. intros [= <- <-]. eauto. Qed.

Lemma scanstring_shorter (s x r : str) :
  scanstring s = Some (x, r) -> (length r < length s)%nat.
Proof.
  remember (length s) as n eqn:Hn. revert s x r Hn.
  induction n as [n IH] using lt_wf_ind. intros s x r -> H.
  assert (Hrec : forall c t x' r', (length t < length s)%nat ->
             prepend c (scanstring t) = Some (x', r') -> (length r' < length s)%nat).
  { intros c t x' r' Ht Ho. apply prepend_some in Ho. destruct Ho as (x'' & Ho & _).
    specialize (IH (length t) Ht t x'' r' eq_refl Ho). lia. }
  destruct s as [|c s]; [discriminate|]. cbn [scanstring] in H.
  destruct (c =? 34)%N; [injection H as <- <-; simpl; lia|].
  destruct (c =? 92)%N.
  - destruct s as [|e r1]; [discriminate|].
    destruct (e =? 117)%N.
    + destruct r1 as [|h1 [|h2 [|h3 [|h4 r2]]]]; try discriminate.
      destruct (hex4 h1 h2 h3 h4) as [u|]; [|discriminate].
      destruct r2 as [|b [|u' [|g1 [|g2 [|g3 [|g4 r3]]]]]];
        try (eapply Hrec; [|exact H]; simpl; lia).
      destruct (is_high_surrogate u && (b =? 92)%N && (u' =? 117)%N);
        [|eapply Hrec; [|exact H]; simpl; lia].
      destruct (hex4 g1 g2 g3 g4) as [u2|]; [|discriminate].
      destruct (is_low_surrogate u2); (eapply Hrec; [|exact H]; simpl; lia).
    + destruct (simple_escape e); [|discriminate].
      eapply Hrec; [|exact H]. simpl. lia.
  - destruct (c <=? 31)%N; [discriminate|].
    eapply Hrec; [|exact H]. simpl. lia.
Qed.

Lemma lex_sign_split (s x r : str) : lex_sign s = (x, r) -> s = x ++ r.
Proof.
  destruct s as [|c s]; simpl; [intros [= <- <-]; reflexivity|].
  destruct (c =? 45)%N; intros [= <- <-]; reflexivity.
Qed.

Lemma lex_int_split (s x r : str) : lex_int s = Some (x, r) -> s = x ++ r.
Proof.
  destruct s as [|c s]; simpl; [discriminate|].
  destruct ((49 <=? c) && (c <=? 57))%N.
  - destruct (span_digits s) as [d r'] eqn:E. intros [= <- <-].
    apply span_digits_split in E. destruct E as [-> _]. reflexivity.
  - destruct (c =? 48)%N; [|discriminate]. intros [= <- <-]. reflexivity.
Qed.

Lemma lex_frac_split (s x r : str) : lex_frac s = (x, r) -> s = x ++ r.
Proof.
  destruct s as [|a [|b s]]; cbn [lex_frac]; try (intros [= <- <-]; reflexivity).
  destruct ((a =? 46)%N && isdigit b); [|intros [= <- <-]; reflexivity].
  destruct (span_digits (b :: s)) as [d r'] eqn:E. intros [= <- <-].
  apply span_digits_split in E. destruct E as [E _]. simpl. now rewrite E.
Qed.

Lemma lex_exp_split (s x r : str) : lex_exp s = (x, r) -> s = x ++ r.
Proof.
  destruct s as [|e s]; cbn [lex_exp]; [intros [= <- <-]; reflexivity|].
  destruct ((e =? 101) || (e =? 69))%N; [|intros [= <- <-]; reflexivity].
  destruct s as [|g s].
  - simpl. intros [= <- <-]. reflexivity.
  - destruct ((g =? 45) || (g =? 43))%N.
    + destruct (span_digits s) as [d r'] eqn:E.
      apply span_digits_split in E. destruct E as [-> _].
      destruct d; intros [= <- <-]; reflexivity.
    + destruct (span_digits (g :: s)) as [d r'] eqn:E.
      apply span_digits_split in E. destruct E as [E _].
      destruct d; intros [= <- <-]; [reflexivity|]. simpl. now rewrite E.
Qed.

(** A number literal is a prefix of the text it was read from. *)
Lemma match_number_split (s l r : str) (b : bool) :
  match_number s = Some (b, l, r) -> s = l ++ r.
Proof.
  unfold match_number.
  destruct (lex_sign s) as [sign s1] eqn:E1.
  destruct (lex_int s1) as [[ip s2]|] eqn:E2; [|discriminate].
  destruct (lex_frac s2) as [frac s3] eqn:E3.
  destruct (lex_exp s3) as [ex s4] eqn:E4.
  intros [= _ <- <-].
  apply lex_sign_split in E1. apply lex_int_split in E2.
  apply lex_frac_split in E3. apply lex_exp_split in E4.
  subst. now rewrite <- !app_assoc.
Qed.

Lemma skip_ws_length (s : str) : (length (skip_ws s) <= length s)%nat.
Proof.
  destruct (skip_ws_split s) as (w & Hs & _).
  rewrite Hs at 2. rewrite length_app. lia.
Qed.

Section ParserFacts.
Context {F : PyFloat}.

(** What a scan leaves is never longer than what it was given. *)
Lemma parse_lengths (fuel : nat) :
  (forall s (v : json) r, scan_once fuel s = Some (v, r) ->
     (length r <= length s)%nat)
  /\ (forall s rval (v : json) r, parse_object fuel s rval = Some (v, r) ->
        (length r <= length s)%nat)
  /\ (forall s rval (v : json) r, parse_array fuel s rval = Some (v, r) ->
        (length r <= length s)%nat).
Proof.
  induction fuel as [|fuel (IHs & IHo & IHa)]; [repeat split; discriminate|].
  split; [|split].
  - intros s v r. destruct s as [|c r0]; [discriminate|]. cbn [scan_once].
    pose proof (skip_ws_length r0) as Hw.
    destruct (c =? 34)%N.
    { destruct (scanstring r0) as [[x r']|] eqn:E; [|discriminate].
      intros [= _ <-]. apply scanstring_shorter in E. simpl. lia. }
    destruct (c =? 123)%N.
    { destruct (skip_ws r0) as [|c' r'] eqn:E; [discriminate|].
      destruct (c' =? 125)%N; [intros [= _ <-]; simpl in *; lia|].
      intros H. apply IHo in H. simpl in *. lia. }
    destruct (c =? 91)%N.
    { destruct (skip_ws r0) as [|c' r'] eqn:E; [discriminate|].
      destruct (c' =? 93)%N; [intros [= _ <-]; simpl in *; lia|].
      intros H. apply IHa in H. simpl in *. lia. }
    repeat (match goal with
            | |- context [if startswith ?a ?b then _ else _] =>
                destruct (startswith a b);
                [intros [= _ <-]; rewrite length_drop; simpl; lia|]
            end).
    destruct (match_number (c :: r0)) as [[[b numstr] r']|] eqn:E; [|discriminate].
    apply match_number_split in E.
    destruct b; intros [= _ <-]; rewrite E, length_app; lia.
  - intros s rval v r. destruct s as [|c r0]; [discriminate|]. cbn [parse_object].
    destruct (c =? 34)%N; [|discriminate].
    destruct (scanstring r0) as [[key r1]|] eqn:E1; [|discriminate].
    apply scanstring_shorter in E1.
    pose proof (skip_ws_length r1) as Hw1.
    destruct (skip_ws r1) as [|c2 r2]; [discriminate|].
    destruct (c2 =? 58)%N; [|discriminate].
    pose proof (skip_ws_length r2) as Hw2.
    destruct (scan_once fuel (skip_ws r2)) as [[val r3]|] eqn:E3; [|discriminate].
    apply IHs in E3.
    pose proof (skip_ws_length r3) as Hw3.
    destruct (skip_ws r3) as [|c4 r4]; [discriminate|].
    destruct (c4 =? 125)%N; [intros [= _ <-]; simpl in *; lia|].
    destruct (c4 =? 44)%N; [|discriminate].
    pose proof (skip_ws_length r4) as Hw4.
    intros H. apply IHo in H. simpl in *. lia.
  - intros s rval v r. cbn [parse_array].
    destruct (scan_once fuel s) as [[val r1]|] eqn:E1; [|discriminate].
    apply IHs in E1.
    pose proof (skip_ws_length r1) as Hw1.
    destruct (skip_ws r1) as [|c r2]; [discriminate|].
    destruct (c =? 93)%N; [intros [= _ <-]; simpl in *; lia|].
    destruct (c =? 44)%N; [|discriminate].
    pose proof (skip_ws_length r2) as Hw2.
    intros H. apply IHa in H. simpl in *. lia.
Qed.

(** With fuel for twice the length of the text, more fuel changes
    nothing: a scan never fails for want of fuel. *)
Lemma fuel_stable (fuel : nat) :
  (forall s fuel', (2 * length s + 1 <= fuel <= fuel')%nat ->
     scan_once fuel' s = scan_once fuel s)
  /\ (forall s rval fuel', (2 * length s + 2 <= fuel <= fuel')%nat ->
        parse_object fuel' s rval = parse_object fuel s rval)
  /\ (forall s rval fuel', (2 * length s + 2 <= fuel <= fuel')%nat ->
        parse_array fuel' s rval = parse_array fuel s rval).
Proof.
  induction fuel as [|fuel (IHs & IHo & IHa)];
    [repeat split; intros; lia|].
  split; [|split].
  - intros s [|fuel'] Hf; [lia|].
    destruct s as [|c r0]; [reflexivity|]. cbn [scan_once].
    pose proof (skip_ws_length r0) as Hw. simpl in Hf.
    destruct (c =? 34)%N; [reflexivity|].
    destruct (c =? 123)%N.
    { destruct (skip_ws r0) as [|c' r'] eqn:E; [reflexivity|].
      destruct (c' =? 125)%N; [reflexivity|].
      apply IHo. simpl in *. lia. }
    destruct (c =? 91)%N.
    { destruct (skip_ws r0) as [|c' r'] eqn:E; [reflexivity|].
      destruct (c' =? 93)%N; [reflexivity|].
      apply IHa. simpl in *. lia. }
    reflexivity.
  - intros s rval [|fuel'] Hf; [lia|].
    destruct s as [|c r0]; [reflexivity|]. cbn [parse_object]. simpl in Hf.
    destruct (c =? 34)%N; [|reflexivity].
    destruct (scanstring r0) as [[key r1]|] eqn:E1; [|reflexivity].
    apply scanstring_shorter in E1.
    pose proof (skip_ws_length r1) as Hw1.
    destruct (skip_ws r1) as [|c2 r2]; [reflexivity|].
    destruct (c2 =? 58)%N; [|reflexivity].
    pose proof (skip_ws_length r2) as Hw2.
    rewrite (IHs (skip_ws r2) fuel') by (simpl in *; lia).
    destruct (scan_once fuel (skip_ws r2)) as [[val r3]|] eqn:E3; [|reflexivity].
    apply (proj1 (parse_lengths fuel)) in E3.
    pose proof (skip_ws_length r3) as Hw3.
    destruct (skip_ws r3) as [|c4 r4]; [reflexivity|].
    destruct (c4 =? 125)%N; [reflexivity|].
    destruct (c4 =? 44)%N; [|reflexivity].
    pose proof (skip_ws_length r4) as Hw4.
    apply IHo. simpl in *. lia.
  - intros s rval [|fuel'] Hf; [lia|]. cbn [parse_array].
    rewrite (IHs s fuel') by lia.
    destruct (scan_once fuel s) as [[val r1]|] eqn:E1; [|reflexivity].
    apply (proj1 (parse_lengths fuel)) in E1.
    pose proof (skip_ws_length r1) as Hw1.
    destruct (skip_ws r1) as [|c r2]; [reflexivity|].
    destruct (c =? 93)%N; [reflexivity|].
    destruct (c =? 44)%N; [|reflexivity].
    pose proof (skip_ws_length r2) as Hw2.
    apply IHa. simpl in *. lia.
Qed.

Lemma fuel_is_enough (s : str) (fuel : nat) :
  (2 * length s + 1 <= fuel)%nat ->
  scan_once fuel s = scan_once (S (2 * length s)) s.
Proof.
  intros H. apply (proj1 (fuel_stable (S (2 * length s)))). lia.
Qed.

End ParserFacts.

(** ** Reading back what was written *)

Section RoundTrip.
Context {F : PyFloat}.

(** Induction on JSON values, with the items of a list and the values of
    a dict as induction hypotheses. *)
Lemma json_ind (P : json -> Prop) :
  P JNull ->
  (forall b, P (JBool b)) ->
  (forall n, P (JInt n)) ->
  (forall f, P (JFloat f)) ->
  (forall s, P (JStr s)) ->
  (forall l, Forall P l -> P (JList l)) ->
  (forall d, Forall (fun kv => P (snd kv)) d -> P (JDict d)) ->
  forall v, P v.
Proof.
  intros Hnull Hbool Hint Hfloat Hstr Hlist Hdict.
  fix IH 1. intros [ |b|n|f|s|l|d].
  - exact Hnull.
  - apply Hbool.
  - apply Hint.
  - apply Hfloat.
  - apply Hstr.
  - apply Hlist. induction l as [|x l IHl]; constructor; [apply IH|exact IHl].
  - apply Hdict. induction d as [|[k x] d IHd]; constructor; [apply IH|exact IHd].
Qed.



Lemma startswith_head (c a : char) (s p : str) :
  (a =? c)%N = false -> startswith (c :: s) (a :: p) = false.
Proof. intros H. simpl. unfold char_eqb. now rewrite H. Qed.

Lemma isdigit_range (c : char) : isdigit c = true -> (48 <= c <= 57)%N.
Proof.
  unfold isdigit. intros H. apply andb_true_iff in H.
  destruct H as [H1 H2]. apply N.leb_le in H1, H2. lia.
Qed.

Ltac not_this_char :=
  match goal with
  | |- context [(?c =? ?k)%N] =>
      destruct (N.eqb_spec c k); [lia|]
  end.

Ltac not_this_word :=
  match goal with
  | |- context [startswith (?c :: ?s) (lit ?w)] =>
      let p := eval vm_compute in (lit w) in
      match p with
      | ?a :: ?q =>
          replace (startswith (c :: s) (lit w)) with false
            by (symmetry; change (lit w) with (a :: q);
                apply startswith_head; apply N.eqb_neq; lia)
      end
  end.

(** A text that starts with a number literal is read as that number. *)
Lemma scan_once_number (fuel : nat) (s l r : str) (b : bool) :
  match_number s = Some (b, l, r) ->
  scan_once (S fuel) s
  = Some (if b then JFloat (float_of_str l) else JInt (int_of_str l), r).
Proof.
  intros H. destruct (match_number_head s l r b H) as (c & s' & -> & Hc).
  cbn [scan_once]. destruct Hc as [Hc|[-> (d & s'' & -> & Hd)]].
  - apply isdigit_range in Hc.
    do 3 not_this_char. do 6 not_this_word.
    rewrite H. destruct b; reflexivity.
  - apply isdigit_range in Hd.
    change (45 =? 34)%N with false. change (45 =? 123)%N with false.
    change (45 =? 91)%N with false. cbv iota.
    do 5 not_this_word.
    assert (Hinf : startswith (45%N :: d :: s'') (lit "-Infinity") = false).
    { change (lit "-Infinity") with (45%N :: 73%N :: lit "nfinity").
      cbn [startswith]. unfold char_eqb at 1 2.
      destruct (N.eqb_spec 73 d); [lia|]. reflexivity. }
    rewrite Hinf, H. destruct b; reflexivity.
Qed.

Lemma scan_once_int (fuel : nat) (n : Z) (rest : str) :
  number_stop rest ->
  scan_once (S fuel) (int_repr n ++ rest) = Some (JInt n, rest).
Proof.
  intros Hstop.
  rewrite (scan_once_number fuel _ (int_repr n) rest false).
  - now rewrite int_of_str_repr.
  - apply (match_number_app _ _ [] rest false (match_number_int_repr n) Hstop).
Qed.

Lemma scan_once_float (fuel : nat) (f : pyfloat) (rest : str) :
  number_stop rest ->
  scan_once (S fuel) (floatstr f ++ rest) = Some (JFloat f, rest).
Proof.
  intros Hstop. unfold floatstr.
  destruct (float_kind_of f) eqn:K.
  - rewrite (float_kind_nan f K). reflexivity.
  - rewrite (float_kind_inf f K). reflexivity.
  - rewrite (float_kind_neginf f K). reflexivity.
  - rewrite (scan_once_number fuel _ (float_repr f) rest true).
    + now rewrite float_repr_of_str.
    + apply (match_number_app _ _ [] rest true (float_repr_literal f K) Hstop).
Qed.

Lemma scan_once_str (fuel : nat) (s rest : str) :
  scan_once (S fuel) (encode_basestring s ++ rest) = Some (JStr s, rest).
Proof.
  unfold encode_basestring. cbn [app scan_once].
  change (34 =? 34)%N with true. cbv iota.
  rewrite <- app_assoc. cbn [app]. now rewrite scanstring_encoded.
Qed.

(** *** White space and the first character of an encoded value *)

Lemma skip_ws_spaces (k : nat) (t : str) : skip_ws (repeat 32%N k ++ t) = skip_ws t.
Proof. induction k as [|k IH]; [reflexivity|exact IH]. Qed.

Lemma skip_ws_indent (level : nat) (t : str) :
  skip_ws (newline_indent level ++ t) = skip_ws t.
Proof. unfold newline_indent. cbn [app skip_ws is_ws]. apply skip_ws_spaces. Qed.

Lemma skip_ws_head (c : char) (t : str) :
  is_ws c = false -> skip_ws (c :: t) = c :: t.
Proof. intros H. simpl. now rewrite H. Qed.


Lemma number_opening (s l r : str) (b : bool) :
  match_number s = Some (b, l, r) -> exists c t, s = c :: t /\ opening c.
Proof.
  intros H. destruct (match_number_head s l r b H) as (c & t & -> & Hc).
  exists c, t. split; [reflexivity|].
  assert (Hr : (45 <= c <= 57)%N).
  { destruct Hc as [Hc|[-> _]]; [apply isdigit_range in Hc|]; lia. }
  unfold opening, is_ws.
  repeat (match goal with
          | |- context [(c =? ?k)%N] => destruct (N.eqb_spec c k); [lia|]
          end).
  repeat split.
Qed.

Lemma iterencode_opening (level : nat) (v : json) :
  exists c t, iterencode level v = c :: t /\ opening c.
Proof.
  destruct v as [ |[|]|n|f|s|[|x l]|[|kv d]];
    try (eexists _, _; split; [reflexivity|repeat split]).
  - apply (number_opening _ _ _ _ (match_number_int_repr n)).
  - cbn [iterencode]. unfold floatstr.
    destruct (float_kind_of f) eqn:K;
      try (eexists _, _; split; [reflexivity|repeat split]).
    apply (number_opening _ _ _ _ (float_repr_literal f K)).
Qed.

Lemma skip_ws_encoded (level : nat) (v : json) (t : str) :
  skip_ws (iterencode level v ++ t) = iterencode level v ++ t.
Proof.
  destruct (iterencode_opening level v) as (c & u & -> & Hc & _).
  now apply skip_ws_head.
Qed.

Lemma join_cons (sep e : str) (es : list str) :
  join sep (e :: es)
  = e ++ match es with [] => [] | _ :: _ => sep ++ join sep es end.
Proof. destruct es; simpl; [now rewrite app_nil_r|reflexivity]. Qed.

Lemma skip_ws_items (sep : str) (level : nat) (x : json) (items : list json) (t : str) :
  skip_ws (join sep (map (iterencode level) (x :: items)) ++ t)
  = join sep (map (iterencode level) (x :: items)) ++ t.
Proof. cbn [map]. rewrite join_cons, <- app_assoc. apply skip_ws_encoded. Qed.

Lemma join_cons_cons (sep e : str) (es : list str) :
  es <> [] -> join sep (e :: es) = e ++ sep ++ join sep es.
Proof. destruct es; [congruence|reflexivity]. Qed.

Lemma skip_ws_comma (t : str) : skip_ws (lit "," ++ t) = 44%N :: t.
Proof. reflexivity. Qed.

Lemma skip_ws_bracket (t : str) : skip_ws (lit "]" ++ t) = 93%N :: t.
Proof. reflexivity. Qed.

Lemma skip_ws_brace (t : str) : skip_ws (lit "}" ++ t) = 125%N :: t.
Proof. reflexivity. Qed.

Lemma number_stop_comma (t : str) : number_stop (lit "," ++ t).
Proof. repeat split. Qed.

Lemma number_stop_indent (level : nat) (t : str) : number_stop (newline_indent level ++ t).
Proof. repeat split. Qed.

(** *** Lists and dicts *)


Lemma parse_array_items (level : nat) (items : list json) :
  items <> [] -> Forall reads_back items ->
  forall rval rest fuel,
    (list_sum (map (fun x => S (weight x)) items) <= fuel)%nat ->
    parse_array fuel
      (join (lit "," ++ newline_indent (S level)) (map (iterencode (S level)) items)
       ++ newline_indent level ++ lit "]" ++ rest) rval
    = Some (JList (rval ++ items), rest).
Proof.
  induction items as [|x items IH]; [congruence|].
  intros _ Hall rval rest fuel Hfuel.
  apply Forall_cons in Hall. destruct Hall as [Hx Hall].
  cbn [map list_sum fold_right] in Hfuel.
  destruct fuel as [|fuel]; [lia|]. cbn [parse_array map].
  rewrite join_cons. destruct items as [|y ys].
  - cbn [map]. rewrite app_nil_r.
    rewrite (Hx (S level) _ fuel (number_stop_indent level _)) by lia.
    rewrite skip_ws_indent, skip_ws_bracket. reflexivity.
  - cbn [map]. rewrite <- !app_assoc.
    rewrite (Hx (S level) _ fuel (number_stop_comma _)) by lia.
    rewrite skip_ws_comma. cbv iota.
    change (44 =? 93)%N with false. change (44 =? 44)%N with true. cbv iota.
    rewrite skip_ws_indent.
    change (iterencode (S level) y :: map (iterencode (S level)) ys)
      with (map (iterencode (S level)) (y :: ys)).
    rewrite skip_ws_items.
    rewrite (IH ltac:(discriminate) Hall (rval ++ [x]) rest fuel)
      by (cbn [map list_sum fold_right] in *; lia).
    now rewrite <- app_assoc.
Qed.


Lemma skip_ws_entries (sep : str) (level : nat) (kv : str * json)
    (entries : list (str * json)) (t : str) :
  skip_ws (join sep (map (entry_text level) (kv :: entries)) ++ t)
  = join sep (map (entry_text level) (kv :: entries)) ++ t.
Proof. cbn [map]. rewrite join_cons. reflexivity. Qed.

Lemma parse_object_entry (fuel : nat) (k : str) (t : str) (rval : list (str * json)) :
  parse_object (S fuel) (encode_basestring k ++ lit ": " ++ t) rval
  = match scan_once fuel (skip_ws t) with
    | None => None
    | Some (val, r3) =>
        match skip_ws r3 with
        | [] => None
        | c4 :: r4 =>
            if (c4 =? 125)%N then Some (JDict (dict_set rval k val), r4)
            else if (c4 =? 44)%N
                 then parse_object fuel (skip_ws r4) (dict_set rval k val)
                 else None
        end
    end.
Proof.
  unfold encode_basestring. cbn [app parse_object].
  change (34 =? 34)%N with true. cbv iota.
  rewrite <- app_assoc. cbn [app]. rewrite scanstring_encoded.
  reflexivity.
Qed.

Lemma parse_object_items (level : nat) (entries : list (str * json)) :
  entries <> [] -> Forall (fun kv => reads_back (snd kv)) entries ->
  forall rval rest fuel,
    (list_sum (map (fun kv => S (weight (snd kv))) entries) <= fuel)%nat ->
    parse_object fuel
      (join (lit "," ++ newline_indent (S level)) (map (entry_text (S level)) entries)
       ++ newline_indent level ++ lit "}" ++ rest) rval
    = Some (JDict (fold_left set_entry entries rval), rest).
Proof.
  induction entries as [|[k x] entries IH]; [congruence|].
  intros _ Hall rval rest fuel Hfuel.
  apply Forall_cons in Hall. destruct Hall as [Hx Hall]. cbn [snd] in Hx.
  cbn [map list_sum fold_right snd] in Hfuel.
  destruct fuel as [|fuel]; [lia|].
  destruct entries as [|kv entries].
  - cbn [map join fold_left]. unfold entry_text, set_entry. cbn [fst snd].
    rewrite <- !app_assoc. rewrite parse_object_entry, skip_ws_encoded.
    rewrite (Hx (S level) _ fuel (number_stop_indent level _)) by lia.
    rewrite skip_ws_indent, skip_ws_brace. reflexivity.
  - change (map (entry_text (S level)) ((k, x) :: kv :: entries))
      with (entry_text (S level) (k, x) :: map (entry_text (S level)) (kv :: entries)).
    rewrite join_cons_cons by discriminate. unfold entry_text at 1. cbn [fst snd].
    rewrite <- !app_assoc. rewrite parse_object_entry, skip_ws_encoded.
    rewrite (Hx (S level) _ fuel (number_stop_comma _)) by lia.
    rewrite skip_ws_comma. cbv iota.
    change (44 =? 125)%N with false. change (44 =? 44)%N with true. cbv iota.
    rewrite skip_ws_indent, skip_ws_entries.
    rewrite (IH ltac:(discriminate) Hall (dict_set rval k x) rest fuel)
      by (cbn [map list_sum fold_right] in *; lia).
    reflexivity.
Qed.

(** Setting fresh keys one after the other appends the entries. *)
Lemma dict_set_fresh (d : list (str * json)) (k : str) (v : json) :
  ~ In k (map fst d) -> dict_set d k v = d ++ [(k, v)].
Proof.
  induction d as [|[k' v'] d IH]; intros Hk; simpl; [reflexivity|].
  simpl in Hk. rewrite bool_decide_eq_false_2 by tauto.
  rewrite IH by tauto. reflexivity.
Qed.

Lemma fold_set_entry_fresh (entries rval : list (str * json)) :
  List.NoDup (map fst (rval ++ entries)) ->
  fold_left set_entry entries rval = rval ++ entries.
Proof.
  revert rval. induction entries as [|[k v] entries IH]; intros rval Hnd; simpl.
  - now rewrite app_nil_r.
  - unfold set_entry at 2. cbn [fst snd].
    assert (Hk : ~ In k (map fst rval)).
    { rewrite map_app in Hnd. apply List.NoDup_remove_2 in Hnd.
      intros Hin. apply Hnd. apply in_or_app. now left. }
    rewrite (dict_set_fresh rval k v Hk), IH.
    + now rewrite <- app_assoc.
    + now rewrite <- app_assoc.
Qed.

(** Every well-formed value is read back from its text. *)
Lemma scan_once_iterencode (v : json) : wf v -> reads_back v.
Proof.
  induction v as [ |b|n|f|s|l IH|d IH] using json_ind; intros Hwf level rest fuel Hstop Hfuel.
  - destruct fuel; [simpl in Hfuel; lia|]. reflexivity.
  - destruct fuel; [simpl in Hfuel; lia|]. destruct b; reflexivity.
  - destruct fuel; [simpl in Hfuel; lia|]. now apply scan_once_int.
  - destruct fuel; [simpl in Hfuel; lia|]. now apply scan_once_float.
  - destruct fuel; [simpl in Hfuel; lia|]. apply scan_once_str.
  - inversion Hwf as [ | | | | |l' Hl| ]; subst.
    assert (Hall : Forall reads_back l).
    { rewrite Forall_forall in *. intros x Hx. apply IH; [exact Hx|]. now apply Hl. }
    destruct fuel as [|fuel]; [simpl in Hfuel; lia|].
    destruct l as [|x l]; [reflexivity|].
    cbn [iterencode]. rewrite <- !app_assoc.
    change (lit "[") with [91%N]. cbn [app scan_once].
    change (91 =? 34)%N with false. change (91 =? 123)%N with false.
    change (91 =? 91)%N with true. cbv iota.
    rewrite skip_ws_indent.
    rewrite skip_ws_items.
    destruct (iterencode_opening (S level) x) as (c & u & Hc & _ & Hb & _).
    pose proof (parse_array_items level (x :: l) ltac:(discriminate) Hall [] rest fuel)
      as Hp.
    cbn [map] in *. rewrite join_cons, Hc in *. cbn [app] in *.
    rewrite Hb. apply Hp. cbn [weight] in Hfuel. cbn [map list_sum fold_right] in *. lia.
  - inversion Hwf as [ | | | | | |d' Hnd Hd]; subst.
    assert (Hall : Forall (fun kv => reads_back (snd kv)) d).
    { rewrite Forall_forall in *. intros kv Hkv. apply IH; [exact Hkv|]. now apply Hd. }
    destruct fuel as [|fuel]; [simpl in Hfuel; lia|].
    destruct d as [|[k x] d]; [reflexivity|].
    cbn [iterencode].
    change (fun kv : str * json =>
              encode_basestring (fst kv) ++ lit ": " ++ iterencode (S level) (snd kv))
      with (entry_text (S level)).
    rewrite <- !app_assoc.
    change (lit "{") with [123%N]. cbn [app scan_once].
    change (123 =? 34)%N with false. change (123 =? 123)%N with true. cbv iota.
    rewrite skip_ws_indent, skip_ws_entries.
    pose proof (parse_object_items level ((k, x) :: d) ltac:(discriminate) Hall [] rest fuel)
      as Hp.
    rewrite (fold_set_entry_fresh ((k, x) :: d) [] Hnd) in Hp.
    assert (Hhead : exists u,
              join (lit "," ++ newline_indent (S level))
                (map (entry_text (S level)) ((k, x) :: d))
              ++ newline_indent level ++ lit "}" ++ rest = 34%N :: u).
    { cbn [map]. rewrite join_cons. unfold entry_text at 1, encode_basestring.
      cbn [app]. eauto. }
    destruct Hhead as [u Hu]. rewrite Hu in *.
    change (34 =? 125)%N with false. cbv iota.
    apply Hp. cbn [weight] in Hfuel. cbn [map list_sum fold_right snd] in *. lia.
Qed.

(** *** What the parser returns is well formed *)

Lemma dict_set_keys (d : list (str * json)) (k : str) (v : json) (x : str) :
  In x (map fst (dict_set d k v)) -> In x (map fst d) \/ x = k.
Proof.
  induction d as [|[k' v'] d IH]; simpl.
  - intros [<-|[]]. now right.
  - destruct (bool_decide (k' = k)); simpl; [tauto|].
    intros [<-|H]; [tauto|]. apply IH in H. tauto.
Qed.

Lemma dict_set_NoDup (d : list (str * json)) (k : str) (v : json) :
  List.NoDup (map fst d) -> List.NoDup (map fst (dict_set d k v)).
Proof.
  induction d as [|[k' v'] d IH]; simpl; intros Hnd.
  - constructor; [intros []|constructor].
  - destruct (bool_decide (k' = k)) eqn:E; simpl; [exact Hnd|].
    apply bool_decide_eq_false_1 in E.
    apply List.NoDup_cons_iff in Hnd. destruct Hnd as [Hk Hnd].
    constructor; [|now apply IH].
    intros Hin. apply dict_set_keys in Hin. destruct Hin as [Hin| ->]; tauto.
Qed.

Lemma dict_set_Forall (P : json -> Prop) (d : list (str * json)) (k : str) (v : json) :
  Forall (fun kv => P (snd kv)) d -> P v ->
  Forall (fun kv => P (snd kv)) (dict_set d k v).
Proof.
  intros Hd Hv. induction Hd as [|[k' v'] d Hk Hd IH]; simpl.
  - constructor; [exact Hv|constructor].
  - destruct (bool_decide (k' = k)); constructor; assumption.
Qed.

Lemma dict_set_wf (d : list (str * json)) (k : str) (v : json) :
  wf (JDict d) -> wf v -> wf (JDict (dict_set d k v)).
Proof.
  intros Hd Hv. inversion Hd as [ | | | | | |d' Hnd Hall]; subst.
  constructor; [now apply dict_set_NoDup|now apply dict_set_Forall].
Qed.

Lemma parse_wf (fuel : nat) :
  (forall s (v : json) r, scan_once fuel s = Some (v, r) -> wf v)
  /\ (forall s rval (v : json) r, wf (JDict rval) ->
        parse_object fuel s rval = Some (v, r) -> wf v)
  /\ (forall s rval (v : json) r, Forall wf rval ->
        parse_array fuel s rval = Some (v, r) -> wf v).
Proof.
  induction fuel as [|fuel (IHs & IHo & IHa)]; [repeat split; discriminate|].
  split; [|split].
  - intros s v r. destruct s as [|c r0]; [discriminate|]. cbn [scan_once].
    destruct (c =? 34)%N.
    { destruct (scanstring r0) as [[x r']|]; [|discriminate].
      intros [= <- _]. constructor. }
    destruct (c =? 123)%N.
    { destruct (skip_ws r0) as [|c' r']; [discriminate|].
      destruct (c' =? 125)%N; [intros [= <- _]; repeat constructor|].
      apply IHo. repeat constructor. }
    destruct (c =? 91)%N.
    { destruct (skip_ws r0) as [|c' r']; [discriminate|].
      destruct (c' =? 93)%N; [intros [= <- _]; repeat constructor|].
      apply IHa. constructor. }
    repeat (match goal with
            | |- context [if startswith ?a ?b then _ else _] =>
                destruct (startswith a b); [intros [= <- _]; constructor|]
            end).
    destruct (match_number (c :: r0)) as [[[b numstr] r']|]; [|discriminate].
    destruct b; intros [= <- _]; constructor.
  - intros s rval v r Hrval. destruct s as [|c r0]; [discriminate|]. cbn [parse_object].
    destruct (c =? 34)%N; [|discriminate].
    destruct (scanstring r0) as [[key r1]|]; [|discriminate].
    destruct (skip_ws r1) as [|c2 r2]; [discriminate|].
    destruct (c2 =? 58)%N; [|discriminate].
    destruct (scan_once fuel (skip_ws r2)) as [[val r3]|] eqn:E3; [|discriminate].
    apply IHs in E3.
    destruct (skip_ws r3) as [|c4 r4]; [discriminate|].
    destruct (c4 =? 125)%N; [intros [= <- _]; now apply dict_set_wf|].
    destruct (c4 =? 44)%N; [|discriminate].
    apply IHo. now apply dict_set_wf.
  - intros s rval v r Hrval. cbn [parse_array].
    destruct (scan_once fuel s) as [[val r1]|] eqn:E1; [|discriminate].
    apply IHs in E1.
    assert (Hnew : Forall wf (rval ++ [val])).
    { apply Forall_app. split; [exact Hrval|repeat constructor; exact E1]. }
    destruct (skip_ws r1) as [|c r2]; [discriminate|].
    destruct (c =? 93)%N; [intros [= <- _]; now constructor|].
    destruct (c =? 44)%N; [|discriminate].
    now apply IHa.
Qed.

Lemma json_loads_wf (s : str) (v : json) : json_loads s = Some v -> wf v.
Proof.
  unfold json_loads. destruct (startswith s [65279%N]); [discriminate|].
  destruct (scan_once (S (2 * length s)) (skip_ws s)) as [[obj r]|] eqn:E; [|discriminate].
  destruct (skip_ws r); [|discriminate]. intros [= <-].
  now apply (proj1 (parse_wf _)) in E.
Qed.

(** [json.loads] reads back what [json.dump] writes. *)
Lemma json_loads_dump (v : json) : wf v -> json_loads (json_dump v) = Some v.
Proof.
  intros Hwf. unfold json_loads, json_dump.
  destruct (iterencode_opening 0 v) as (c & t & Hc & Hws & _ & Hbom).
  assert (Hstart : startswith (iterencode 0 v) [65279%N] = false).
  { rewrite Hc. apply startswith_head. now rewrite N.eqb_sym. }
  rewrite Hstart.
  assert (Hskip : skip_ws (iterencode 0 v) = iterencode 0 v).
  { rewrite Hc. now apply skip_ws_head. }
  rewrite Hskip.
  pose proof (scan_once_iterencode v Hwf 0%nat []
                (Nat.max (S (2 * length (iterencode 0 v))) (weight v)) I) as Hrt.
  rewrite app_nil_r in Hrt.
  rewrite fuel_is_enough in Hrt by lia.
  rewrite Hrt by lia. reflexivity.
Qed.

End RoundTrip.

Section RoundTripOfNotes.
Context {F : PyFloat} {L : LaxInt F}.

(** C8. After a successful call the destination holds a text that
    [json.loads] reads back as the value that was validated, so that
    validating it again gives the same notes, in the same order and with
    the same fields. *)
Theorem persisted_notes_round_trip
    (io : io_fault) (notes_json_str output_file : str) (fs : gmap str file)
    (ns : list Note) :
  returned (validate_and_save_notes io notes_json_str output_file fs) = Some ns ->
  exists persisted data,
    files (validate_and_save_notes io notes_json_str output_file fs) !! output_file
    = Some (Complete persisted)
    /\ json_loads (sanitize notes_json_str) = Some data
    /\ json_loads persisted = Some data
    /\ construct_NotesResponse data = inr {| notes := ns |}.
Proof.
  unfold validate_and_save_notes.
  destruct (json_loads (sanitize notes_json_str)) as [data|] eqn:Hl; [|discriminate].
  destruct (construct_NotesResponse data) as [e|r] eqn:Hv; [discriminate|].
  destruct io; simpl; try discriminate.
  intros [= <-]. exists (json_dump data), data.
  split; [apply lookup_insert_eq|]. split; [reflexivity|].
  split; [apply json_loads_dump; now apply json_loads_wf in Hl|].
  destruct r. exact Hv.
Qed.

End RoundTripOfNotes.

Lemma persisted_notes_round_trip_witness :
  exists persisted data,
    files (validate_and_save_notes NoFault (notes_text ten_ids) exam_notes_json ∅)
    !! exam_notes_json = Some (Complete persisted)
    /\ json_loads (sanitize (notes_text ten_ids)) = Some data
    /\ json_loads persisted = Some data
    /\ construct_NotesResponse data = inr {| notes := map sample_Note one_to_ten |}.
Proof.
  apply (persisted_notes_round_trip NoFault (notes_text ten_ids) exam_notes_json ∅
           (map sample_Note one_to_ten)).
  vm_compute. reflexivity.
Defined.

(** The same on a concrete run, by evaluation: the file written for the
    sample response is read back as the parsed value. *)
Example sample_file_reads_back :
  option_map json_dump (json_loads (sanitize (notes_text ten_ids)))
  = Some (json_dump (JDict (sample_notes one_to_ten)))
  /\ json_loads (json_dump (JDict (sample_notes one_to_ten)))
     = Some (JDict (sample_notes one_to_ten)).
Proof. split; vm_compute; reflexivity. Qed.

(** ** Trimmed texts *)

Lemma lstrip_nonspace (s : str) :
  lstrip s = [] \/ exists c r, lstrip s = c :: r /\ isspace c = false.
Proof.
  induction s as [|c s IH]; simpl; [now left|].
  destruct (isspace c) eqn:E; [exact IH|]. right. eauto.
Qed.

Lemma lstrip_idem (s : str) : lstrip (lstrip s) = lstrip s.
Proof.
  destruct (lstrip_nonspace s) as [->|(c & r & -> & H)]; [reflexivity|].
  simpl. now rewrite H.
Qed.

Lemma lstrip_snoc (x : str) (c : char) :
  isspace c = false -> lstrip (x ++ [c]) = lstrip x ++ [c].
Proof.
  intros H. induction x as [|a x IH]; simpl; [now rewrite H|].
  destruct (isspace a); [exact IH|reflexivity].
Qed.

Lemma rstrip_cons (c : char) (r : str) :
  isspace c = false -> rstrip (c :: r) = c :: rstrip r.
Proof.
  intros H. unfold rstrip. simpl. rewrite lstrip_snoc by assumption.
  rewrite rev_app_distr. reflexivity.
Qed.

Lemma trimmed_strip (s : str) : trimmed s -> strip s = s.
Proof.
  intros [H1 H2]. unfold strip, rstrip. rewrite H1, H2. apply rev_involutive.
Qed.

Lemma strip_trimmed (s : str) : trimmed (strip s).
Proof.
  unfold trimmed, strip. split.
  - destruct (lstrip_nonspace s) as [->|(c & r & -> & H)]; [reflexivity|].
    rewrite rstrip_cons by assumption. simpl. now rewrite H.
  - unfold rstrip. rewrite rev_involutive. apply lstrip_idem.
Qed.

Lemma strip_idem (s : str) : strip (strip s) = strip s.
Proof. apply trimmed_strip, strip_trimmed. Qed.

Lemma lstrip_take (n : nat) (s : str) : lstrip s = s -> lstrip (take n s) = take n s.
Proof.
  destruct s as [|c s]; [now rewrite take_nil|].
  destruct n as [|n]; [reflexivity|].
  simpl. destruct (isspace c) eqn:E; [|reflexivity].
  intros H. destruct (lstrip_split s) as (w & Hs & _).
  pose proof (f_equal length H) as L. rewrite Hs in L at 2.
  simpl in L. rewrite length_app in L. lia.
Qed.

(** Cutting a trimmed text in front of a character that is no white
    space leaves a trimmed text. *)
Lemma trimmed_drop (n : nat) (s : str) (c : char) (r : str) :
  trimmed s -> drop n s = c :: r -> isspace c = false -> trimmed (drop n s).
Proof.
  intros [_ H2] Hd Hc. split.
  - rewrite Hd. simpl. now rewrite Hc.
  - rewrite <- (rev_involutive s) at 1 2.
    rewrite <- (firstn_skipn_rev) || idtac.
    assert (E : rev (drop n s) = take (length s - n) (rev s)).
    { rewrite <- (take_drop n s) at 3. rewrite rev_app_distr.
      rewrite take_app_length'; [reflexivity|].
      rewrite length_rev, length_drop. reflexivity. }
    rewrite rev_involutive, E. now apply lstrip_take.
Qed.

(** The first occurrence of a character. *)
Lemma find_from_char (i : Z) (s : str) (c : char) :
  (find_from i s [c] = -1 /\ c ∉ s)
  \/ exists a r, s = a ++ c :: r /\ find_from i s [c] = i + len a /\ c ∉ a.
Proof.
  revert i. induction s as [|b s IH]; intros i; simpl.
  { left. split; [reflexivity|apply not_elem_of_nil]. }
  unfold char_eqb. destruct (N.eqb_spec c b) as [->|Hne]; simpl.
  - right. exists [], s. split; [reflexivity|]. split; [unfold len; simpl; lia|].
    apply not_elem_of_nil.
  - destruct (IH (i + 1)) as [[H Hc]|(a & r & -> & Hf & Ha)].
    + left. split; [exact H|]. apply not_elem_of_cons. split; assumption.
    + right. exists (b :: a), r. split; [reflexivity|]. split.
      * rewrite Hf. unfold len. simpl length. lia.
      * apply not_elem_of_cons. split; assumption.
Qed.

Lemma find_char (s : str) (c : char) :
  (find s [c] = -1 /\ c ∉ s)
  \/ exists a r, s = a ++ c :: r /\ find s [c] = len a /\ c ∉ a.
Proof.
  destruct (find_from_char 0 s c) as [H|(a & r & Hs & Hf & Ha)]; [now left|].
  right. exists a, r. split; [assumption|]. split; [|assumption].
  unfold find. rewrite Hf. lia.
Qed.

(** What the cut before the first brace gives: the text itself when it
    holds no brace or starts with one, and else its part from the first
    brace on. *)
Lemma drop_prose_cases (t : str) :
  (drop_prose t = t /\ ((123%N ∉ t) \/ exists r, t = 123%N :: r))
  \/ exists a r, t = a ++ 123%N :: r /\ a <> [] /\ (123%N ∉ a)
                 /\ drop_prose t = 123%N :: r.
Proof.
  unfold drop_prose.
  destruct (find_char t 123%N) as [[H Hc]|(a & r & Ht & Hf & Ha)];
    change [123%N] with lbrace in *.
  - rewrite H. left. split; [reflexivity|]. now left.
  - rewrite Hf. destruct a as [|b a].
    + left. split; [reflexivity|]. right. exists r. exact Ht.
    + right. exists (b :: a), r. subst t. split; [reflexivity|]. split; [discriminate|].
      split; [exact Ha|].
      destruct (len (b :: a) >? 0) eqn:E.
      * unfold slice_from, clamp.
        pose proof (len_nonneg (b :: a)).
        destruct (len (b :: a) <? 0) eqn:E1; [apply Z.ltb_lt in E1; lia|].
        rewrite len_app.
        unfold len. rewrite Z.min_l by lia. rewrite Nat2Z.id.
        apply drop_app_length.
      * rewrite Z.gtb_ltb in E. apply Z.ltb_ge in E.
        pose proof (len_pos (b :: a) ltac:(discriminate)). lia.
Qed.

(** ** The clean-up cuts at the two ends only *)

Lemma piece_trans (u t s : str) :
  (exists a b, t = a ++ u ++ b) -> (exists a b, s = a ++ t ++ b) ->
  exists a b, s = a ++ u ++ b.
Proof.
  intros (a1 & b1 & ->) (a2 & b2 & ->). exists (a2 ++ a1), (b1 ++ b2).
  now rewrite <- !app_assoc.
Qed.

Lemma piece_strip (s : str) : exists a b, s = a ++ strip s ++ b.
Proof. destruct (strip_split s) as (w1 & w2 & H & _). eauto. Qed.

Lemma piece_slice (s : str) (i j : Z) : exists a b, s = a ++ slice s i j ++ b.
Proof.
  unfold slice. eexists (take _ s), (drop _ (drop _ s)).
  now rewrite take_drop, take_drop.
Qed.

Lemma piece_strip_fences (t : str) : exists a b, t = a ++ strip_fences t ++ b.
Proof.
  assert (Hself : exists a b, t = a ++ t ++ b) by (exists [], []; now rewrite app_nil_r).
  unfold strip_fences.
  repeat match goal with
         | |- context [if ?b then _ else _] => destruct b
         end; try exact Hself;
    (eapply piece_trans; [apply piece_strip|apply piece_slice]).
Qed.

Lemma piece_drop_prose (t : str) : exists a b, t = a ++ drop_prose t ++ b.
Proof.
  destruct (drop_prose_cases t) as [[-> _]|(a & r & -> & _ & _ & ->)].
  - exists [], []. now rewrite app_nil_r.
  - exists a, []. now rewrite app_nil_r.
Qed.

Lemma strip_strip_fences (t : str) : strip t = t -> strip (strip_fences t) = strip_fences t.
Proof.
  intros Ht. unfold strip_fences.
  repeat match goal with
         | |- context [if ?b then _ else _] => destruct b
         end; try exact Ht; apply strip_idem.
Qed.

Lemma strip_drop_prose (t : str) : strip t = t -> strip (drop_prose t) = drop_prose t.
Proof.
  intros Ht.
  destruct (drop_prose_cases t) as [[-> _]|(a & r & E & _ & _ & Hd)]; [exact Ht|].
  assert (Hdrop : drop (length a) t = 123%N :: r) by (rewrite E; apply drop_app_length).
  rewrite Hd, <- Hdrop. apply trimmed_strip.
  apply (trimmed_drop (length a) t 123%N r); [|exact Hdrop|reflexivity].
  rewrite <- Ht. apply strip_trimmed.
Qed.

Lemma drop_prose_brace (t : str) :
  123%N ∈ drop_prose t -> exists r, drop_prose t = 123%N :: r.
Proof.
  destruct (drop_prose_cases t) as [[-> [Hno|[r ->]]]|(a & r & _ & _ & _ & ->)].
  - intros H. contradiction.
  - eauto.
  - eauto.
Qed.

Section CleanUpFacts.
Context {F : PyFloat}.

Lemma parse_object_dict fuel s rval (v : json) r :
  parse_object fuel s rval = Some (v, r) -> exists d, v = JDict d.
Proof.
  revert s rval. induction fuel as [|fuel IH]; intros s rval; [discriminate|].
  cbn [parse_object].
  destruct s as [|c s']; [discriminate|].
  destruct (c =? 34)%N; [|discriminate].
  destruct (scanstring s') as [[key r1]|]; [|discriminate].
  destruct (skip_ws r1) as [|c2 r2]; [discriminate|].
  destruct (c2 =? 58)%N; [|discriminate].
  destruct (scan_once fuel (skip_ws r2)) as [[val r3]|]; [|discriminate].
  destruct (skip_ws r3) as [|c4 r4]; [discriminate|].
  destruct (c4 =? 125)%N; [intros [= <- _]; eauto|].
  destruct (c4 =? 44)%N; [apply IH|discriminate].
Qed.

(** A text that starts with a brace is read as an object or not at all. *)
Lemma json_loads_brace (t : str) (v : json) :
  json_loads (123%N :: t) = Some v -> exists d, v = JDict d.
Proof.
  unfold json_loads. change (startswith (123%N :: t) [65279%N]) with false.
  change (skip_ws (123%N :: t)) with (123%N :: t). cbv iota.
  destruct (scan_once (S (2 * length (123%N :: t))) (123%N :: t)) as [[obj r]|] eqn:E;
    [|discriminate].
  destruct (skip_ws r); [|discriminate]. intros [= <-].
  cbn [scan_once] in E. change (123 =? 34)%N with false in E.
  change (123 =? 123)%N with true in E. cbv iota in E.
  destruct (skip_ws t) as [|c' r']; [discriminate|].
  destruct (c' =? 125)%N; [injection E as <- _; eauto|].
  now apply parse_object_dict in E.
Qed.

End CleanUpFacts.

(** X1. The cleaned text is a piece of the response. The clean-up only
    cuts at the two ends: it never changes, adds or reorders a
    character. And the cleaned text has no white space at either end. *)
Theorem sanitize_cuts_at_the_ends (notes_json_str : str) :
  (exists before after, notes_json_str = before ++ sanitize notes_json_str ++ after)
  /\ strip (sanitize notes_json_str) = sanitize notes_json_str.
Proof.
  rewrite sanitize_steps. split.
  - eapply piece_trans; [apply piece_drop_prose|].
    eapply piece_trans; [apply piece_strip_fences|apply piece_strip].
  - apply strip_drop_prose, strip_strip_fences, strip_idem.
Qed.

Section BraceFacts.
Context {F : PyFloat}.

(** X2. When the cleaned text holds a brace it starts with one, and
    [json.loads] then reads an object or fails: a top-level array or
    string that holds a brace is never accepted as such. *)
Theorem sanitize_brace_comes_first (notes_json_str : str) :
  123%N ∈ sanitize notes_json_str ->
  (exists r, sanitize notes_json_str = 123%N :: r)
  /\ (forall v, json_loads (sanitize notes_json_str) = Some v -> exists d, v = JDict d).
Proof.
  intros H. rewrite sanitize_steps in *. apply drop_prose_brace in H.
  destruct H as [r Hr]. split; [eauto|].
  intros v. rewrite Hr. apply json_loads_brace.
Qed.

End BraceFacts.

Lemma sanitize_brace_comes_first_witness :
  (exists r, sanitize (text "[{'id': 1}]") = 123%N :: r)
  /\ json_loads (sanitize (text "[{'id': 1}]")) = None.
Proof.
  split.
  - apply (sanitize_brace_comes_first (text "[{'id': 1}]")).
    apply (bool_decide_unpack _). vm_compute. reflexivity.
  - vm_compute. reflexivity.
Defined.

(** A slice from the start is the first characters, all of them when
    the text is shorter. *)
Lemma slice_to_take (s : str) (n : nat) : slice_to s (Z.of_nat n) = take n s.
Proof.
  unfold slice_to, clamp, len.
  destruct (Z.of_nat n <? 0) eqn:E; [apply Z.ltb_lt in E; lia|].
  destruct (Nat.le_gt_cases n (length s)).
  - rewrite Z.min_l by lia. now rewrite Nat2Z.id.
  - rewrite Z.min_r by lia. rewrite Nat2Z.id.
    rewrite !take_ge by lia. reflexivity.
Qed.

Section ConsoleFacts.
Context {F : PyFloat} {L : LaxInt F}.

Lemma display_page (n : Note) (p : Z) :
  NotePage p ∈ display n <-> p <> 0 /\ page_ref n = Some p.
Proof.
  unfold display. rewrite elem_of_app, !elem_of_cons, elem_of_nil.
  destruct (page_ref n) as [q|].
  - destruct (Z.eqb_spec q 0) as [->|Hq].
    + rewrite elem_of_nil. split; [intros [[H|[H|[]]]|[]]; discriminate|].
      intros [Hp [= <-]]. congruence.
    + rewrite elem_of_cons, elem_of_nil. split.
      * intros [[H|[H|[]]]|[[= ->]|[]]]; try discriminate. split; [assumption|reflexivity].
      * intros [_ [= ->]]. right. left. reflexivity.
  - rewrite elem_of_nil. split; [intros [[H|[H|[]]]|[]]; discriminate|].
    intros [_ H]. discriminate.
Qed.

(** X3. On success there are ten notes, and the console shows, in
    order, that 10 notes were validated, where they were saved, the
    header and the rule, and for each note its heading and its summary.
    The page line of a note is printed exactly when its [page_ref] is an
    integer other than 0: page 0 is returned and saved, but not shown. *)
Theorem success_console (io : io_fault) (notes_json_str output_file : str)
    (fs : gmap str file) (ns : list Note) :
  returned (validate_and_save_notes io notes_json_str output_file fs) = Some ns ->
  length ns = 10%nat
  /\ console (validate_and_save_notes io notes_json_str output_file fs)
     = [SuccessfullyValidated 10; NotesSavedTo output_file; GeneratedExamNotes; Rule]
       ++ flat_map display ns
  /\ (forall p, NotePage p ∈ console (validate_and_save_notes io notes_json_str output_file fs)
                <-> p <> 0 /\ exists n, n ∈ ns /\ page_ref n = Some p).
Proof.
  unfold validate_and_save_notes.
  destruct (json_loads (sanitize notes_json_str)) as [data|]; [|discriminate].
  destruct (construct_NotesResponse data) as [e|r] eqn:Hr; [discriminate|].
  assert (Hlen : length (notes r) = 10%nat).
  { unfold construct_NotesResponse in Hr. destruct data; try discriminate.
    destruct (validate_NotesResponse d) as [es|r'] eqn:Hv; [discriminate|].
    injection Hr as ->. apply validate_NotesResponse_inr in Hv.
    destruct Hv as (items & _ & Hn & Hall).
    rewrite <- (Forall2_length _ _ _ Hall). exact Hn. }
  destruct io; simpl; try discriminate. intros [= <-].
  split; [exact Hlen|]. rewrite Hlen. split; [reflexivity|].
  intros p. rewrite !elem_of_cons, list_elem_of_In, in_flat_map.
  split.
  - intros [H|[H|[H|[H|(n & Hn & Hp)]]]]; try discriminate.
    apply list_elem_of_In, display_page in Hp. destruct Hp as [Hp0 Hp].
    split; [assumption|]. exists n. split; [now apply list_elem_of_In|assumption].
  - intros (Hp0 & n & Hn & Hp). do 4 right. exists n.
    split; [now apply list_elem_of_In|]. apply list_elem_of_In, display_page. auto.
Qed.

Lemma display_lines (n : Note) (l : console_line) :
  l ∈ display n ->
  l = NoteHeading (id n) (heading n) \/ l = NoteSummary (summary n)
  \/ exists p, l = NotePage p.
Proof.
  unfold display. rewrite elem_of_app, !elem_of_cons, elem_of_nil.
  intros [[H|[H|[]]]|H]; [now left|now right; left|].
  right. right. destruct (page_ref n) as [q|]; [destruct (q =? 0)|].
  - now apply elem_of_nil in H.
  - apply list_elem_of_singleton in H. eauto.
  - now apply elem_of_nil in H.
Qed.

Lemma success_lines (v : nat) (out : str) (ns : list Note) (l : console_line) :
  l ∈ [SuccessfullyValidated v; NotesSavedTo out; GeneratedExamNotes; Rule]
      ++ flat_map display ns ->
  (forall r, l <> RawResponse r) /\ (forall c, l <> CleanedResponse c).
Proof.
  rewrite elem_of_app, !elem_of_cons, elem_of_nil, list_elem_of_In, in_flat_map.
  intros [[H|[H|[H|[H|[]]]]]|(n & _ & H)]; try (subst l; split; discriminate).
  apply list_elem_of_In, display_lines in H.
  destruct H as [->|[->|[p ->]]]; split; discriminate.
Qed.

(** X4. A call fails exactly when it prints the raw response, and what
    it prints of it is its first 500 characters, all of it when it is
    shorter.  The cleaned text, cut to its first 300 characters, is
    printed after a parse failure only. *)
Theorem failure_diagnostics (io : io_fault) (notes_json_str output_file : str)
    (fs : gmap str file) :
  (returned (validate_and_save_notes io notes_json_str output_file fs) = None <->
   RawResponse (take 500 notes_json_str)
   ∈ console (validate_and_save_notes io notes_json_str output_file fs))
  /\ (forall r, RawResponse r ∈ console (validate_and_save_notes io notes_json_str output_file fs) ->
        r = take 500 notes_json_str)
  /\ (forall c, CleanedResponse c
                ∈ console (validate_and_save_notes io notes_json_str output_file fs) ->
        c = take 300 (sanitize notes_json_str)
        /\ json_loads (sanitize notes_json_str) = None).
Proof.
  unfold validate_and_save_notes.
  change 500 with (Z.of_nat 500). change 300 with (Z.of_nat 300).
  rewrite !slice_to_take.
  destruct (json_loads (sanitize notes_json_str)) as [data|];
    [destruct (construct_NotesResponse data) as [e|r]; [|destruct io]|];
    cbn [save returned console].
  2:{ split; [|split].
      - split; [discriminate|]. intros H. apply success_lines in H.
        destruct H as [H _]. now destruct (H (take 500 notes_json_str)).
      - intros r0 H. apply success_lines in H. destruct H as [H _]. now destruct (H r0).
      - intros c H. apply success_lines in H. destruct H as [_ H]. now destruct (H c). }
  all: split; [|split];
    [ split; [intros _; rewrite !elem_of_cons; tauto|reflexivity]
    | intros r0; rewrite !elem_of_cons, elem_of_nil; intuition congruence
    | intros c; rewrite !elem_of_cons, elem_of_nil;
      intuition (try congruence; try discriminate) ].
Qed.

End ConsoleFacts.

Section FileFacts.
Context {F : PyFloat} {L : LaxInt F}.

(** The write is the only change to the file system. *)
Lemma validate_and_save_notes_frame (io : io_fault) (notes_json_str output_file : str)
    (fs : gmap str file) :
  (forall path, path <> output_file ->
     files (validate_and_save_notes io notes_json_str output_file fs) !! path = fs !! path)
  /\ (forall path, path ∈ opened (validate_and_save_notes io notes_json_str output_file fs) ->
        path = output_file).
Proof.
  unfold validate_and_save_notes.
  destruct (json_loads (sanitize notes_json_str)) as [data|];
    [destruct (construct_NotesResponse data) as [e|r]; [|destruct io]|];
    cbn [save files opened]; split; intros path H;
    try reflexivity; try (now apply elem_of_nil in H);
    try (now apply list_elem_of_singleton in H);
    now rewrite lookup_insert_ne.
Qed.

(** X5. The only path the function opens or changes is [output_file]:
    every other path holds afterwards what it held before. *)
Theorem other_paths_untouched (io : io_fault) (notes_json_str output_file : str)
    (fs : gmap str file) :
  (forall path, path <> output_file ->
     files (validate_and_save_notes io notes_json_str output_file fs) !! path = fs !! path)
  /\ (forall path, path ∈ opened (validate_and_save_notes io notes_json_str output_file fs) ->
        path = output_file).
Proof. apply validate_and_save_notes_frame. Qed.

(** The text of an object starts and ends with its braces. *)
Lemma json_dump_braces (d : list (str * json)) :
  exists m, json_dump (JDict d) = 123%N :: m ++ [125%N].
Proof.
  unfold json_dump. destruct d as [|kv d].
  - exists []. reflexivity.
  - cbn [iterencode]. eexists. change (lit "{") with [123%N].
    change (lit "}") with [125%N]. cbn [app].
    rewrite !app_assoc. reflexivity.
Qed.

Lemma sanitize_braces (m : str) : sanitize (123%N :: m ++ [125%N]) = 123%N :: m ++ [125%N].
Proof.
  rewrite sanitize_steps.
  assert (Hs : strip (123%N :: m ++ [125%N]) = 123%N :: m ++ [125%N]).
  { apply trimmed_strip. split; [reflexivity|].
    change (123%N :: m ++ [125%N]) with ([123%N] ++ m ++ [125%N]).
    rewrite !rev_app_distr. reflexivity. }
  rewrite Hs, strip_fences_unfenced by reflexivity.
  apply drop_prose_leading_brace.
Qed.

(** X6. The saved file is a fixed point of the function.  Given back as
    the response, with any destination and any file system, it is
    accepted with the same notes and written again character for
    character. *)
Theorem saved_file_is_accepted_again (io : io_fault) (notes_json_str output_file : str)
    (fs : gmap str file) (ns : list Note) :
  returned (validate_and_save_notes io notes_json_str output_file fs) = Some ns ->
  exists saved,
    files (validate_and_save_notes io notes_json_str output_file fs) !! output_file
    = Some (Complete saved)
    /\ forall output_file' fs',
         returned (validate_and_save_notes NoFault saved output_file' fs') = Some ns
         /\ files (validate_and_save_notes NoFault saved output_file' fs') !! output_file'
            = Some (Complete saved).
Proof.
  unfold validate_and_save_notes at 1 2.
  destruct (json_loads (sanitize notes_json_str)) as [data|] eqn:Hl; [|discriminate].
  destruct (construct_NotesResponse data) as [e|r] eqn:Hr; [discriminate|].
  destruct io; cbn [save returned files]; try discriminate. intros [= <-].
  exists (json_dump data). split; [apply lookup_insert_eq|].
  intros out' fs'. unfold validate_and_save_notes.
  assert (Hd : exists d, data = JDict d).
  { destruct data; try discriminate. eauto. }
  destruct Hd as [d ->].
  destruct (json_dump_braces d) as [m Hm].
  rewrite Hm, sanitize_braces, <- Hm.
  rewrite json_loads_dump by (eapply json_loads_wf; exact Hl).
  rewrite Hr. cbn [save returned files]. split; [reflexivity|apply lookup_insert_eq].
Qed.

End FileFacts.

Lemma saved_file_is_accepted_again_witness :
  exists saved,
    files (validate_and_save_notes NoFault (notes_text ten_ids) exam_notes_json ∅)
    !! exam_notes_json = Some (Complete saved)
    /\ forall output_file' fs',
         returned (validate_and_save_notes NoFault saved output_file' fs')
         = Some (map sample_Note one_to_ten)
         /\ files (validate_and_save_notes NoFault saved output_file' fs') !! output_file'
            = Some (Complete saved).
Proof.
  apply (saved_file_is_accepted_again NoFault (notes_text ten_ids) exam_notes_json ∅).
  vm_compute. reflexivity.
Defined.

Lemma success_console_witness :
  length (map sample_Note one_to_ten) = 10%nat
  /\ console (validate_and_save_notes NoFault (notes_text ten_ids) exam_notes_json ∅)
     = [SuccessfullyValidated 10; NotesSavedTo exam_notes_json; GeneratedExamNotes; Rule]
       ++ flat_map display (map sample_Note one_to_ten)
  /\ (forall p, NotePage p ∈ console (validate_and_save_notes NoFault (notes_text ten_ids)
                                        exam_notes_json ∅)
                <-> p <> 0 /\ exists n, n ∈ map sample_Note one_to_ten /\ page_ref n = Some p).
Proof.
  apply (success_console NoFault (notes_text ten_ids) exam_notes_json ∅).
  vm_compute. reflexivity.
Defined.
Section JsonFacts.
Context {F : PyFloat}.


End JsonFacts.


(** ** The scripts *)

Section ScriptSteps.
Context {F : PyFloat} {L : LaxInt F} {B : FloatBool F}.

Lemma extend_nil (st : state) : extend st [] [] = st.
Proof. destruct st. unfold extend. simpl. now rewrite !app_nil_r. Qed.

Lemma extend_extend (st : state) l1 c1 l2 c2 :
  extend (extend st l1 c1) l2 c2 = extend st (l1 ++ l2) (c1 ++ c2).
Proof. unfold extend. simpl. now rewrite !app_assoc. Qed.

Lemma print_extend (l : line) (st : state) : print l st = (Returns tt, extend st [l] []).
Proof. unfold print, extend. now rewrite app_nil_r. Qed.

Lemma request_extend {A} (c : api_call) (answer : py_error + A) (st : state) :
  request c answer st
  = (match answer with inl e => Raises e | inr a => Returns a end, extend st [] [c]).
Proof. unfold request, extend. rewrite app_nil_r. now destruct answer. Qed.

Lemma bind_eq {A C} (m : script A) (k : A -> script C) (st : state) :
  (m ≫= k) st
  = match m st with
    | (Returns a, st') => k a st'
    | (Raises e, st') => (Raises e, st')
    | (OutOfFuel, st') => (OutOfFuel, st')
    end.
Proof. reflexivity. Qed.

End ScriptSteps.

(** The steps a proof takes through a script. *)
Ltac steps :=
  repeat first
    [ rewrite bind_eq | rewrite print_extend | rewrite request_extend
    | rewrite extend_extend | progress cbn [ret raise first text_value] ].

Section ScriptFacts.
Context {F : PyFloat} {L : LaxInt F} {B : FloatBool F}.

(** [get_assistant_id], case by case. *)
Lemma get_assistant_id_run (E : env) (st : state) :
  match disk st !! assistant_id_json with
  | None => get_assistant_id E st = (Returns JNull, extend st [AssistantNotFound] [])
  | Some f =>
      get_assistant_id E st
      = (if unreadable E assistant_id_json then Raises (Exn OSError)
         else match json_loads match f with
                                | Complete t => t
                                | Truncated => truncated_text E assistant_id_json
                                end with
              | None => Raises (Exn JSONDecodeError)
              | Some (JDict d) => Returns (default JNull (dict_get d (lit "assistant_id")))
              | Some _ => Raises AttributeError
              end,
         st)
  end.
Proof.
  unfold get_assistant_id. rewrite bind_eq. unfold path_exists.
  destruct (disk st !! assistant_id_json) as [f|] eqn:Hf.
  - rewrite bool_decide_eq_true_2 by eauto. cbn [negb].
    rewrite bind_eq. unfold read_text. rewrite Hf.
    destruct (unreadable E assistant_id_json); [reflexivity|].
    rewrite bind_eq. unfold json_load.
    destruct (json_loads _) as [data|]; [|reflexivity].
    destruct data; reflexivity.
  - rewrite bool_decide_eq_false_2 by (intros [x Hx]; discriminate). cbn [negb].
    rewrite bind_eq, print_extend. reflexivity.
Qed.


(** [generate_notes_with_chat], case by case. *)
Lemma generate_notes_with_chat_run (E : env) (st : state) :
  generate_notes_with_chat E st
  = match on_chat_completions_create E with
    | inr response =>
        match API.choices response with
        | notes_content :: _ =>
            (Returns notes_content, extend st [GeneratingWithChat] [chat_request])
        | [] =>
            (Returns None,
             extend st [GeneratingWithChat; ErrorGeneratingNotes IndexError] [chat_request])
        end
    | inl e =>
        (Returns None, extend st [GeneratingWithChat; ErrorGeneratingNotes e] [chat_request])
    end.
Proof.
  unfold generate_notes_with_chat. rewrite bind_eq, print_extend.
  unfold try_except. rewrite bind_eq, request_extend. fold chat_request.
  destruct (on_chat_completions_create E) as [e|response].
  - rewrite bind_eq, print_extend, !extend_extend. reflexivity.
  - destruct (API.choices response) as [|c rest]; cbn [first raise ret].
    + rewrite bind_eq, print_extend, !extend_extend. reflexivity.
    + rewrite extend_extend. reflexivity.
Qed.

(** X9. [generate_notes_with_chat] never raises.  It prints its first
    line, sends the one chat request and returns the content of the
    first choice; when the request raises, or the answer has no choice,
    it prints the error and returns [None].  The files are left as they
    were. *)
Theorem generate_notes_with_chat_never_raises (E : env) (st : state) :
  generate_notes_with_chat E st
  = match on_chat_completions_create E with
    | inr response =>
        match API.choices response with
        | notes_content :: _ =>
            (Returns notes_content, extend st [GeneratingWithChat] [chat_request])
        | [] =>
            (Returns None,
             extend st [GeneratingWithChat; ErrorGeneratingNotes IndexError] [chat_request])
        end
    | inl e =>
        (Returns None, extend st [GeneratingWithChat; ErrorGeneratingNotes e] [chat_request])
    end.
Proof. apply generate_notes_with_chat_run. Qed.

(** The polling loop, started on the first of the runs the service
    shows from the [n]-th [retrieve] on: when all of them but the last
    are waiting, it asks once for each waiting run, prints the status
    of each answer, and ends with the last run. *)
Lemma poll_settles (E : env) (thread : API.Thread) (ws : list API.Run) (last : API.Run) :
  forall (n fuel : nat) (st : state),
    (forall i run, (ws ++ [last]) !! S i = Some run -> on_runs_retrieve E (n + i) = inr run) ->
    Forall (fun run => waiting (API.status run) = true) ws ->
    waiting (API.status last) = false ->
    (length ws <= fuel)%nat ->
    poll E fuel thread n (hd last (ws ++ [last])) st
    = (Returns last,
       extend st (map status_line (tail (ws ++ [last]))) (map (retrieve_after thread) ws)).
Proof.
  induction ws as [|w ws IH]; intros n fuel st Hans Hws Hlast Hfuel.
  - cbn [app hd tail map]. rewrite extend_nil.
    destruct fuel; cbn [poll]; rewrite Hlast; reflexivity.
  - apply Forall_cons in Hws. destruct Hws as [Hw Hws].
    destruct fuel as [|fuel]; [simpl in Hfuel; lia|].
    cbn [app hd tail map poll]. rewrite Hw.
    rewrite bind_eq, request_extend.
    assert (Hnext : on_runs_retrieve E n = inr (hd last (ws ++ [last]))).
    { rewrite <- (Nat.add_0_r n). apply Hans. cbn [app]. 
      change ((w :: ws ++ [last]) !! 1%nat) with ((ws ++ [last]) !! 0%nat).
      destruct ws; reflexivity. }
    rewrite Hnext. rewrite bind_eq, print_extend, extend_extend.
    rewrite (IH (S n) fuel).
    + rewrite extend_extend. f_equal. f_equal.
      destruct ws; reflexivity.
    + intros i run Hi. replace (S n + i)%nat with (n + S i)%nat by lia.
      apply Hans. exact Hi.
    + exact Hws.
    + exact Hlast.
    + simpl in Hfuel. lia.
Qed.

(** The loop never ends while the service keeps showing waiting runs:
    every unit of fuel is spent on one more request. *)
Lemma poll_waits (E : env) (thread : API.Thread) :
  (forall n, exists run, on_runs_retrieve E n = inr run /\ waiting (API.status run) = true) ->
  forall (fuel n : nat) (run : API.Run) (st : state),
    waiting (API.status run) = true ->
    (poll E fuel thread n run st).1 = OutOfFuel
    /\ length (requests (poll E fuel thread n run st).2) = (length (requests st) + fuel)%nat
    /\ disk (poll E fuel thread n run st).2 = disk st
    /\ written (poll E fuel thread n run st).2 = written st.
Proof.
  intros Hall. induction fuel as [|fuel IH]; intros n run st Hrun; cbn [poll]; rewrite Hrun.
  - repeat split. simpl. lia.
  - rewrite bind_eq, request_extend.
    destruct (Hall n) as (next & -> & Hnext).
    rewrite bind_eq, print_extend, extend_extend.
    destruct (IH (S n) next (extend st ([] ++ [status_line next]) ([retrieve_after thread run] ++ []))
                Hnext) as (H1 & H2 & H3 & H4).
    unfold status_line, retrieve_after in *.
    rewrite H1, H2, H3, H4. repeat split.
    cbn [extend requests]. rewrite length_app. simpl. lia.
Qed.

Lemma first_assistant_message_skips (others : list API.Message) (rest : list API.Message) :
  Forall (fun m => API.role m <> lit "assistant") others ->
  first_assistant_message (others ++ rest) = first_assistant_message rest.
Proof.
  induction 1 as [|m others Hm _ IH]; [reflexivity|].
  cbn [app first_assistant_message]. now rewrite bool_decide_eq_false_2.
Qed.

Lemma completed_not_waiting (run : API.Run) :
  API.status run = lit "completed" -> waiting (API.status run) = false.
Proof. intros ->. reflexivity. Qed.

(** X10. The polling of [generate_notes_with_assistant].  When the
    service shows the waiting runs [ws] and then a run that is neither
    waiting nor completed, the function sends the three opening
    requests and one [retrieve] for each waiting run, prints the status
    of each answer, does not ask for the messages, prints the
    run-failed line with the last status and returns [None].  The fuel
    only has to cover the polls. *)
Theorem assistant_run_not_completed (E : env) (fuel : nat) (assistant_id : json)
    (st : state) (thread : API.Thread) (ws : list API.Run) (last : API.Run) :
  on_threads_create E = inr thread ->
  on_messages_create E = inr tt ->
  shows E (ws ++ [last]) ->
  Forall (fun run => waiting (API.status run) = true) ws ->
  waiting (API.status last) = false ->
  API.status last <> lit "completed" ->
  (length ws <= fuel)%nat ->
  generate_notes_with_assistant E fuel assistant_id st
  = (Returns None,
     extend st
       ([GeneratingWithAssistant] ++ map status_line (tail (ws ++ [last]))
        ++ [RunFailed (API.status last)])
       (opening_requests thread assistant_id ++ map (retrieve_after thread) ws)).
Proof.
  intros Hthread Hmessage [Hcreate Hretrieve] Hws Hlast Hstatus Hfuel.
  unfold generate_notes_with_assistant.
  rewrite bind_eq, print_extend.
  rewrite bind_eq, request_extend, Hthread, extend_extend.
  rewrite bind_eq, request_extend, Hmessage, extend_extend.
  rewrite bind_eq, request_extend, extend_extend.
  rewrite (Hcreate (hd last (ws ++ [last]))) by (destruct ws; reflexivity).
  rewrite bind_eq, (poll_settles E thread ws last 0 fuel) by assumption.
  rewrite extend_extend.
  rewrite bool_decide_eq_false_2 by assumption.
  rewrite bind_eq. cbn [ret]. rewrite bind_eq, print_extend, extend_extend.
  cbn [ret]. unfold opening_requests. cbn [app]. rewrite !app_nil_r. reflexivity.
Qed.

Lemma assistant_completed_run (E : env) (fuel : nat) (assistant_id : json)
    (st : state) (thread : API.Thread) (ws : list API.Run) (last : API.Run)
    (others : list API.Message) (message : API.Message) (rest : list API.Message) :
  on_threads_create E = inr thread ->
  on_messages_create E = inr tt ->
  shows E (ws ++ [last]) ->
  Forall (fun run => waiting (API.status run) = true) ws ->
  API.status last = lit "completed" ->
  (length ws <= fuel)%nat ->
  on_messages_list E = inr (others ++ message :: rest) ->
  Forall (fun m => API.role m <> lit "assistant") others ->
  API.role message = lit "assistant" ->
  generate_notes_with_assistant E fuel assistant_id st
  = (match API.content message with
     | API.TextContentBlock content :: _ => Returns (Some content)
     | API.ImageFileContentBlock :: _ => Raises AttributeError
     | [] => Raises IndexError
     end,
     extend st
       ([GeneratingWithAssistant] ++ map status_line (tail (ws ++ [last]))
        ++ match API.content message with
           | API.TextContentBlock _ :: _ => [NotesGenerated]
           | _ => []
           end)
       (opening_requests thread assistant_id ++ map (retrieve_after thread) ws
        ++ [threads_messages_list (API.thread_id thread)])).
Proof.
  intros Hthread Hmessage [Hcreate Hretrieve] Hws Hstatus Hfuel Hlist Hothers Hrole.
  unfold generate_notes_with_assistant.
  rewrite bind_eq, print_extend.
  rewrite bind_eq, request_extend, Hthread, extend_extend.
  rewrite bind_eq, request_extend, Hmessage, extend_extend.
  rewrite bind_eq, request_extend, extend_extend.
  rewrite (Hcreate (hd last (ws ++ [last]))) by (destruct ws; reflexivity).
  rewrite bind_eq, (poll_settles E thread ws last 0 fuel)
    by (try assumption; now apply completed_not_waiting).
  rewrite extend_extend.
  rewrite bool_decide_eq_true_2 by assumption.
  rewrite !bind_eq, request_extend, Hlist, extend_extend.
  rewrite first_assistant_message_skips by assumption.
  cbn [first_assistant_message]. rewrite bool_decide_eq_true_2 by assumption.
  unfold opening_requests. cbn [app].
  destruct (API.content message) as [|[content|] blocks]; cbn [first raise ret].
  - rewrite bind_eq. cbn [raise]. rewrite !app_nil_r. reflexivity.
  - steps. rewrite !app_nil_r. reflexivity.
  - rewrite !bind_eq. cbn [text_value raise]. rewrite !app_nil_r. reflexivity.
Qed.

(** X11. When the run completes, the messages are listed once and the
    first message with the role assistant decides the outcome, whatever
    follows it: its first content block is returned when it is a text
    block; an empty content raises [IndexError] and a block of another
    kind raises [AttributeError], neither of which is caught. *)
Theorem assistant_run_completed (E : env) (fuel : nat) (assistant_id : json)
    (st : state) (thread : API.Thread) (ws : list API.Run) (last : API.Run)
    (others : list API.Message) (message : API.Message) (rest : list API.Message) :
  on_threads_create E = inr thread ->
  on_messages_create E = inr tt ->
  shows E (ws ++ [last]) ->
  Forall (fun run => waiting (API.status run) = true) ws ->
  API.status last = lit "completed" ->
  (length ws <= fuel)%nat ->
  on_messages_list E = inr (others ++ message :: rest) ->
  Forall (fun m => API.role m <> lit "assistant") others ->
  API.role message = lit "assistant" ->
  generate_notes_with_assistant E fuel assistant_id st
  = (match API.content message with
     | API.TextContentBlock content :: _ => Returns (Some content)
     | API.ImageFileContentBlock :: _ => Raises AttributeError
     | [] => Raises IndexError
     end,
     extend st
       ([GeneratingWithAssistant] ++ map status_line (tail (ws ++ [last]))
        ++ match API.content message with
           | API.TextContentBlock _ :: _ => [NotesGenerated]
           | _ => []
           end)
       (opening_requests thread assistant_id ++ map (retrieve_after thread) ws
        ++ [threads_messages_list (API.thread_id thread)])).
Proof. apply assistant_completed_run. Qed.

(** X12. A run that completes without any message of the assistant is
    reported as failed with the status completed, and [None] is
    returned. *)
Theorem assistant_run_completed_without_reply (E : env) (fuel : nat)
    (assistant_id : json) (st : state) (thread : API.Thread) (ws : list API.Run)
    (last : API.Run) (messages : list API.Message) :
  on_threads_create E = inr thread ->
  on_messages_create E = inr tt ->
  shows E (ws ++ [last]) ->
  Forall (fun run => waiting (API.status run) = true) ws ->
  API.status last = lit "completed" ->
  (length ws <= fuel)%nat ->
  on_messages_list E = inr messages ->
  Forall (fun m => API.role m <> lit "assistant") messages ->
  generate_notes_with_assistant E fuel assistant_id st
  = (Returns None,
     extend st
       ([GeneratingWithAssistant] ++ map status_line (tail (ws ++ [last]))
        ++ [RunFailed (lit "completed")])
       (opening_requests thread assistant_id ++ map (retrieve_after thread) ws
        ++ [threads_messages_list (API.thread_id thread)])).
Proof.
  intros Hthread Hmessage [Hcreate Hretrieve] Hws Hstatus Hfuel Hlist Hothers.
  unfold generate_notes_with_assistant.
  rewrite bind_eq, print_extend.
  rewrite bind_eq, request_extend, Hthread, extend_extend.
  rewrite bind_eq, request_extend, Hmessage, extend_extend.
  rewrite bind_eq, request_extend, extend_extend.
  rewrite (Hcreate (hd last (ws ++ [last]))) by (destruct ws; reflexivity).
  rewrite bind_eq, (poll_settles E thread ws last 0 fuel)
    by (try assumption; now apply completed_not_waiting).
  rewrite extend_extend.
  rewrite bool_decide_eq_true_2 by assumption.
  rewrite !bind_eq, request_extend, Hlist, extend_extend.
  rewrite <- (app_nil_r messages), first_assistant_message_skips by assumption.
  cbn [first_assistant_message]. steps. rewrite Hstatus. unfold opening_requests. cbn [app].
  rewrite !app_nil_r. reflexivity.
Qed.

(** X13. While the service keeps showing waiting runs the function does
    not return: with any fuel it is still polling, and it has sent one
    [retrieve] for each unit of fuel, one straight after the other. *)
Theorem assistant_run_never_settles (E : env) (assistant_id : json) (st : state)
    (thread : API.Thread) (run : API.Run) :
  on_threads_create E = inr thread ->
  on_messages_create E = inr tt ->
  on_runs_create E = inr run ->
  waiting (API.status run) = true ->
  (forall n, exists run', on_runs_retrieve E n = inr run'
                          /\ waiting (API.status run') = true) ->
  forall fuel,
    (generate_notes_with_assistant E fuel assistant_id st).1 = OutOfFuel
    /\ length (requests (generate_notes_with_assistant E fuel assistant_id st).2)
       = (length (requests st) + 3 + fuel)%nat
    /\ disk (generate_notes_with_assistant E fuel assistant_id st).2 = disk st.
Proof.
  intros Hthread Hmessage Hcreate Hrun Hall fuel.
  unfold generate_notes_with_assistant.
  rewrite bind_eq, print_extend.
  rewrite bind_eq, request_extend, Hthread, extend_extend.
  rewrite bind_eq, request_extend, Hmessage, extend_extend.
  rewrite bind_eq, request_extend, Hcreate, extend_extend.
  rewrite bind_eq.
  destruct (poll_waits E thread Hall fuel 0 run
              (extend st ((([GeneratingWithAssistant] ++ []) ++ []) ++ [])
                 ((([] ++ [threads_create]) ++
                   [threads_messages_create (API.thread_id thread) (lit "user")
                      message_content]) ++
                  [threads_runs_create (API.thread_id thread) assistant_id])) Hrun)
    as (H1 & H2 & H3 & _).
  destruct (poll E fuel thread 0 run _) as [r st'].
  cbn [fst snd] in *. subst r. cbn [fst snd]. split; [reflexivity|].
  split; [|exact H3].
  rewrite H2. cbn [extend requests]. rewrite !length_app. simpl. lia.
Qed.

(** *** What the functions raise *)




(** *** What the scripts write *)

Lemma only_writes_refl (path : str) (st : state) : only_writes path st st.
Proof.
  split; [reflexivity|]. exists []. split; [now rewrite app_nil_r|constructor].
Qed.

Lemma only_writes_trans (path : str) (st1 st2 st3 : state) :
  only_writes path st1 st2 -> only_writes path st2 st3 -> only_writes path st1 st3.
Proof.
  intros [H1 (p1 & W1 & F1)] [H2 (p2 & W2 & F2)]. split.
  - intros p Hp. now rewrite H2, H1.
  - exists (p1 ++ p2). split; [now rewrite W2, W1, app_assoc|].
    apply Forall_app. split; assumption.
Qed.

Lemma only_writes_extend (path : str) (st : state) lines calls :
  only_writes path st (extend st lines calls).
Proof.
  split; [reflexivity|]. exists []. split; [now rewrite app_nil_r|constructor].
Qed.

Lemma writes_only_ret {A} (path : str) (a : A) : writes_only path (ret a).
Proof. intros st. apply only_writes_refl. Qed.

Lemma writes_only_raise {A} (path : str) (e : py_error) : writes_only path (@raise _ A e).
Proof. intros st. apply only_writes_refl. Qed.

Lemma writes_only_print (path : str) (l : line) : writes_only path (print l).
Proof. intros st. rewrite print_extend. apply only_writes_extend. Qed.

Lemma writes_only_request {A} (path : str) (c : api_call) (answer : py_error + A) :
  writes_only path (request c answer).
Proof. intros st. rewrite request_extend. apply only_writes_extend. Qed.

Lemma writes_only_bind {A C} (path : str) (m : script A) (k : A -> script C) :
  writes_only path m -> (forall a, writes_only path (k a)) -> writes_only path (m ≫= k).
Proof.
  intros Hm Hk st. rewrite bind_eq. specialize (Hm st).
  destruct (m st) as [[a|e|] st']; cbn [snd] in *; [|assumption|assumption].
  eapply only_writes_trans; [exact Hm|apply Hk].
Qed.

Lemma writes_only_try_except {A} (path : str) (body : script A)
    (handler : py_error -> script A) :
  writes_only path body -> (forall e, writes_only path (handler e)) ->
  writes_only path (try_except body handler).
Proof.
  intros Hm Hk st. unfold try_except. specialize (Hm st).
  destruct (body st) as [[a|e|] st']; cbn [snd] in *; [assumption| |assumption].
  eapply only_writes_trans; [exact Hm|apply Hk].
Qed.

Lemma writes_only_path_exists (path p : str) : writes_only path (path_exists p).
Proof. intros st. apply only_writes_refl. Qed.

Lemma writes_only_read_text (path : str) (E : env) (p : str) :
  writes_only path (read_text E p).
Proof.
  intros st. unfold read_text.
  destruct (disk st !! p); [destruct (unreadable E p)|]; apply only_writes_refl.
Qed.

Lemma writes_only_json_load (path : str) (s : str) : writes_only path (json_load s).
Proof.
  unfold json_load. destruct (json_loads s);
    [apply writes_only_ret|apply writes_only_raise].
Qed.

Lemma writes_only_get (path : str) (data : json) (key : str) :
  writes_only path (get data key).
Proof.
  destruct data; try apply writes_only_raise. apply writes_only_ret.
Qed.

Lemma writes_only_first {A} (path : str) (seq : list A) : writes_only path (first seq).
Proof. destruct seq; [apply writes_only_raise|apply writes_only_ret]. Qed.

Lemma writes_only_text_value (path : str) (block : API.content_block) :
  writes_only path (text_value block).
Proof. destruct block; [apply writes_only_ret|apply writes_only_raise]. Qed.

(** A script built from the steps above writes nothing. *)
Ltac writes_nothing :=
  repeat first
    [ apply writes_only_ret | apply writes_only_raise | apply writes_only_print
    | apply writes_only_request | apply writes_only_path_exists
    | apply writes_only_read_text | apply writes_only_json_load
    | apply writes_only_get | apply writes_only_first | apply writes_only_text_value
    | apply writes_only_bind; [|intros ?]
    | apply writes_only_try_except; [|intros ?]
    | match goal with
      | |- writes_only _ (if ?b then _ else _) => destruct b
      | |- writes_only _ (match ?x with _ => _ end) => destruct x
      end ].

Lemma writes_only_get_assistant_id (path : str) (E : env) :
  writes_only path (get_assistant_id E).
Proof. unfold get_assistant_id. writes_nothing. Qed.

Lemma writes_only_poll (path : str) (E : env) (thread : API.Thread) :
  forall fuel n run, writes_only path (poll E fuel thread n run).
Proof.
  induction fuel as [|fuel IH]; intros n run; cbn [poll];
    destruct (waiting (API.status run)); try apply writes_only_ret.
  - intros st. apply only_writes_refl.
  - writes_nothing. apply IH.
Qed.

Lemma writes_only_first_assistant_message (path : str) (data : list API.Message) :
  writes_only path (first_assistant_message data).
Proof.
  induction data as [|m data IH]; cbn [first_assistant_message]; [apply writes_only_ret|].
  destruct (bool_decide _); [writes_nothing|exact IH].
Qed.

Lemma writes_only_generate_notes_with_assistant (path : str) (E : env) (fuel : nat)
    (assistant_id : json) :
  writes_only path (generate_notes_with_assistant E fuel assistant_id).
Proof.
  unfold generate_notes_with_assistant.
  repeat first
    [ apply writes_only_poll | apply writes_only_first_assistant_message
    | apply writes_only_ret | apply writes_only_print | apply writes_only_request
    | apply writes_only_bind; [|intros ?]
    | match goal with
      | |- writes_only _ (if ?b then _ else _) => destruct b
      | |- writes_only _ (match ?x with _ => _ end) => destruct x
      end ].
Qed.

Lemma writes_only_generate_notes_with_chat (path : str) (E : env) :
  writes_only path (generate_notes_with_chat E).
Proof. unfold generate_notes_with_chat. writes_nothing. Qed.

Lemma writes_only_call_validate (E : env) (notes_json_str : str) :
  writes_only exam_notes_json (call_validate_and_save_notes E notes_json_str).
Proof.
  intros st. unfold call_validate_and_save_notes. cbn [snd].
  destruct (validate_and_save_notes_frame (io E) notes_json_str exam_notes_json (disk st))
    as [Hfiles Hopened].
  split; [exact Hfiles|].
  eexists. split; [reflexivity|]. apply Forall_forall. exact Hopened.
Qed.

(** X15. Whatever the user types and the service answers, [main] opens
    for writing nothing but [exam_notes.json], and every other path
    holds afterwards what it held before. *)
Theorem main_writes_exam_notes_only (E : env) (fuel : nat) (st : state) :
  (forall path, path <> exam_notes_json ->
     disk (main E fuel st).2 !! path = disk st !! path)
  /\ exists paths, written (main E fuel st).2 = written st ++ paths
                   /\ Forall (fun p => p = exam_notes_json) paths.
Proof.
  revert st. change (writes_only exam_notes_json (main E fuel)).
  unfold main, OpenAI, input.
  repeat first
    [ apply writes_only_get_assistant_id
    | apply writes_only_generate_notes_with_assistant
    | apply writes_only_generate_notes_with_chat
    | apply writes_only_call_validate
    | apply writes_only_ret | apply writes_only_raise | apply writes_only_print
    | apply writes_only_bind; [|intros ?]
    | match goal with
      | |- writes_only _ (if ?b then _ else _) => destruct b
      | |- writes_only _ (match ?x with _ => _ end) => destruct x
      end ].
Qed.

(** *** [main] *)

(** [main] up to the choice: the menu is printed, and the rest runs on
    the trimmed line. *)
Lemma main_after_menu (E : env) (fuel : nat) (st : state) (typed : str) :
  on_client E = None ->
  stdin E = Some typed ->
  main E fuel st
  = (if bool_decide (strip typed = lit "1") then
       get_assistant_id E ≫= fun assistant_id =>
         if negb (truthy assistant_id) then ret tt
         else
           generate_notes_with_assistant E fuel assistant_id ≫= fun notes_content =>
             match notes_content with
             | Some (c :: s) =>
                 call_validate_and_save_notes E (c :: s) ≫= fun _ => ret tt
             | _ => ret tt
             end
     else if bool_decide (strip typed = lit "2") then
       generate_notes_with_chat E ≫= fun notes_content =>
         match notes_content with
         | Some (c :: s) =>
             call_validate_and_save_notes E (c :: s) ≫= fun _ => ret tt
         | _ => ret tt
         end
     else if bool_decide (strip typed = lit "3") then print Goodbye
     else print InvalidChoice) (extend st menu []).
Proof.
  intros Hclient Hstdin. unfold main, OpenAI, input. rewrite Hclient, Hstdin.
  steps. reflexivity.
Qed.

(** X16. [main] can fail to return in three ways only: the client
    constructor raises, the input ends at the prompt, or the user chose
    option 1.  Option 2, option 3 and an invalid choice always return. *)
Theorem main_raises_only_under_option_1 (E : env) (fuel : nat) (st : state)
    (e : py_error) :
  (main E fuel st).1 = Raises e \/ (main E fuel st).1 = OutOfFuel ->
  on_client E = Some e \/ (stdin E = None /\ e = EOFError)
  \/ exists typed, stdin E = Some typed /\ strip typed = lit "1".
Proof.
  destruct (on_client E) as [e0|] eqn:Hclient.
  { unfold main, OpenAI. rewrite Hclient. steps. intros [[= ->]|H]; [now left|discriminate]. }
  destruct (stdin E) as [typed|] eqn:Hstdin.
  2:{ unfold main, OpenAI, input. rewrite Hclient, Hstdin. steps.
      intros [[= <-]|H]; [tauto|discriminate]. }
  rewrite (main_after_menu E fuel st typed) by assumption.
  destruct (bool_decide (strip typed = lit "1")) eqn:H1.
  { intros _. right. right. exists typed. split; [reflexivity|].
    now apply bool_decide_eq_true_1 in H1. }
  destruct (bool_decide (strip typed = lit "2")).
  - rewrite bind_eq, generate_notes_with_chat_run.
    destruct (on_chat_completions_create E) as [e1|[choices]]; steps;
      [intros [H|H]; discriminate|].
    cbn [API.choices]. destruct choices as [|[[|c s]|] rest]; steps;
      intros [H|H]; discriminate.
  - destruct (bool_decide (strip typed = lit "3")); steps; intros [H|H]; discriminate.
Qed.

(** X17. A choice other than 1 and 2, white space around it aside,
    sends no request and touches no file: the menu is printed, then the
    goodbye for 3 and the invalid-choice line for anything else. *)
Theorem main_exits_without_a_request (E : env) (fuel : nat) (st : state) (typed : str) :
  on_client E = None ->
  stdin E = Some typed ->
  strip typed <> lit "1" ->
  strip typed <> lit "2" ->
  main E fuel st
  = (Returns tt,
     extend st
       (menu ++ [if bool_decide (strip typed = lit "3") then Goodbye else InvalidChoice])
       []).
Proof.
  intros Hclient Hstdin H1 H2. rewrite (main_after_menu E fuel st typed) by assumption.
  rewrite !bool_decide_eq_false_2 by assumption.
  destruct (bool_decide (strip typed = lit "3")); steps; reflexivity.
Qed.

(** X18. Option 2 runs the chat request and hands its content to
    [validate_and_save_notes] with the default destination; a content
    that is [None] or empty, an answer without choices and a failed
    request end the run with nothing validated and nothing written. *)
Theorem main_with_chat (E : env) (fuel : nat) (st : state) (typed : str) :
  on_client E = None ->
  stdin E = Some typed ->
  strip typed = lit "2" ->
  main E fuel st
  = match on_chat_completions_create E with
    | inr {| API.choices := Some (c :: s) :: _ |} =>
        (Returns tt,
         (call_validate_and_save_notes E (c :: s)
            (extend st (menu ++ [GeneratingWithChat]) [chat_request])).2)
    | inr {| API.choices := [] |} =>
        (Returns tt,
         extend st (menu ++ [GeneratingWithChat; ErrorGeneratingNotes IndexError])
           [chat_request])
    | inr _ => (Returns tt, extend st (menu ++ [GeneratingWithChat]) [chat_request])
    | inl e =>
        (Returns tt,
         extend st (menu ++ [GeneratingWithChat; ErrorGeneratingNotes e]) [chat_request])
    end.
Proof.
  intros Hclient Hstdin H2. rewrite (main_after_menu E fuel st typed) by assumption.
  rewrite H2.
  rewrite bool_decide_eq_false_2 by discriminate.
  rewrite bool_decide_eq_true_2 by reflexivity.
  rewrite bind_eq, generate_notes_with_chat_run.
  destruct (on_chat_completions_create E) as [e|[choices]]; steps; [reflexivity|].
  cbn [API.choices].
  destruct choices as [|[[|c s]|] rest]; steps; reflexivity.
Qed.


(** X20. Option 1 from end to end.  With an assistant id on file, a
    run that completes after the waiting runs [ws] and a reply that is
    a text that is not empty, [main] sends the opening requests with
    that id, one [retrieve] for each waiting run and the request for
    the messages, and hands the reply to [validate_and_save_notes]. *)
Theorem main_with_assistant (E : env) (fuel : nat) (st : state) (typed text : str)
    (d : list (str * json)) (thread : API.Thread) (ws : list API.Run) (last : API.Run)
    (others : list API.Message) (message : API.Message) (rest : list API.Message)
    (c : char) (s : str) (blocks : list API.content_block) :
  on_client E = None ->
  stdin E = Some typed ->
  strip typed = lit "1" ->
  disk st !! assistant_id_json = Some (Complete text) ->
  unreadable E assistant_id_json = false ->
  json_loads text = Some (JDict d) ->
  truthy (default JNull (dict_get d (lit "assistant_id"))) = true ->
  on_threads_create E = inr thread ->
  on_messages_create E = inr tt ->
  shows E (ws ++ [last]) ->
  Forall (fun run => waiting (API.status run) = true) ws ->
  API.status last = lit "completed" ->
  (length ws <= fuel)%nat ->
  on_messages_list E = inr (others ++ message :: rest) ->
  Forall (fun m => API.role m <> lit "assistant") others ->
  API.role message = lit "assistant" ->
  API.content message = API.TextContentBlock (c :: s) :: blocks ->
  main E fuel st
  = (Returns tt,
     (call_validate_and_save_notes E (c :: s)
        (extend st
           (menu ++ [GeneratingWithAssistant] ++ map status_line (tail (ws ++ [last]))
            ++ [NotesGenerated])
           (opening_requests thread (default JNull (dict_get d (lit "assistant_id")))
            ++ map (retrieve_after thread) ws
            ++ [threads_messages_list (API.thread_id thread)]))).2).
Proof.
  intros Hclient Hstdin H1 Hfile Hread Htext Hid Hthread Hmessage Hshows Hws Hstatus
    Hfuel Hlist Hothers Hrole Hcontent.
  rewrite (main_after_menu E fuel st typed) by assumption.
  rewrite H1, bool_decide_eq_true_2 by reflexivity. rewrite bind_eq.
  pose proof (get_assistant_id_run E (extend st menu [])) as Hrun.
  cbn [extend disk] in Hrun. rewrite Hfile, Hread, Htext in Hrun.
  rewrite Hrun, Hid. cbn [negb]. rewrite bind_eq.
  rewrite (assistant_completed_run E fuel _ _ thread ws last others message rest)
    by assumption.
  rewrite Hcontent. steps. reflexivity.
Qed.

End ScriptFacts.

(** ** Strings written with [ensure_ascii=True] *)

Lemma hex4_hex4_chars (n : N) (h1 h2 h3 h4 : char) :
  (n < 65536)%N -> hex4_chars n = [h1; h2; h3; h4] -> hex4 h1 h2 h3 h4 = Some n.
Proof.
  intros Hn [= <- <- <- <-]. unfold hex4.
  assert (n / 4096 < 16)%N by (apply N.Div0.div_lt_upper_bound; lia).
  assert (n / 256 mod 16 < 16)%N by (apply N.mod_lt; lia).
  assert (n / 16 mod 16 < 16)%N by (apply N.mod_lt; lia).
  assert (n mod 16 < 16)%N by (apply N.mod_lt; lia).
  rewrite !hexval_hexdigit by assumption. f_equal.
  pose proof (N.Div0.div_mod n 16) as E0.
  pose proof (N.Div0.div_mod (n / 16) 16) as E1.
  pose proof (N.Div0.div_mod (n / 256) 16) as E2.
  rewrite N.Div0.div_div in E1, E2. change (16 * 16)%N with 256%N in E1.
  change (256 * 16)%N with 4096%N in E2. lia.
Qed.

(** A surrogate pair is read as the character it stands for. *)
Lemma scanstring_pair (h1 h2 h3 h4 g1 g2 g3 g4 : char) (hi lo : N) (r : str) :
  hex4 h1 h2 h3 h4 = Some hi -> is_high_surrogate hi = true ->
  hex4 g1 g2 g3 g4 = Some lo -> is_low_surrogate lo = true ->
  scanstring (92%N :: 117%N :: h1 :: h2 :: h3 :: h4
              :: 92%N :: 117%N :: g1 :: g2 :: g3 :: g4 :: r)
  = prepend (join_surrogates hi lo) (scanstring r).
Proof.
  intros Hh Hhi Hg Hlo. cbn [scanstring]. change (92 =? 34)%N with false.
  change (92 =? 92)%N with true. change (117 =? 117)%N with true. cbv iota.
  rewrite Hh, Hhi, Hg, Hlo. reflexivity.
Qed.

(** Below 1024, [lor] with either surrogate base is addition. *)
Lemma lor_surrogate_base (x : N) :
  (x < 1024)%N -> N.lor 55296 x = (55296 + x)%N /\ N.lor 56320 x = (56320 + x)%N.
Proof.
  intros Hx.
  assert (Hall : forallb (fun n => let x := N.of_nat n in
                            (N.lor 55296 x =? 55296 + x)%N && (N.lor 56320 x =? 56320 + x)%N)
                   (seq 0 1024) = true) by (vm_compute; reflexivity).
  rewrite forallb_forall in Hall.
  specialize (Hall (N.to_nat x)). rewrite N2Nat.id in Hall.
  cbv zeta in Hall. rewrite andb_true_iff, !N.eqb_eq in Hall.
  apply Hall. apply in_seq. lia.
Qed.

Lemma scanstring_escape_ascii (c : char) (t : str) :
  scalar c -> scanstring (escape_char_ascii c ++ t) = prepend c (scanstring t).
Proof.
  intros Hc. unfold escape_char_ascii.
  destruct (N.eqb_spec c 92) as [->|H92]; [reflexivity|].
  destruct (N.eqb_spec c 34) as [->|H34]; [reflexivity|].
  destruct (N.eqb_spec c 8) as [->|H8]; [reflexivity|].
  destruct (N.eqb_spec c 12) as [->|H12]; [reflexivity|].
  destruct (N.eqb_spec c 10) as [->|H10]; [reflexivity|].
  destruct (N.eqb_spec c 13) as [->|H13]; [reflexivity|].
  destruct (N.eqb_spec c 9) as [->|H9]; [reflexivity|].
  destruct (N.leb_spec 32 c) as [H32|H32]; [destruct (N.leb_spec c 126) as [H126|H126]|];
    cbn [andb].
  - cbn [app scanstring].
    destruct (N.eqb_spec c 34); [congruence|].
    destruct (N.eqb_spec c 92); [congruence|].
    destruct (N.leb_spec c 31); [lia|]. reflexivity.
  - destruct (N.ltb_spec c 65536) as [Hlt|Hge].
    + cbn [app]. apply scanstring_u; [now apply hex4_hex4_chars|].
      unfold is_high_surrogate, scalar in *. apply andb_false_iff.
      destruct Hc as [Hc|Hc]; [left; apply N.leb_gt; lia|right; apply N.leb_gt; lia].
    + cbv zeta. unfold scalar in Hc.
      set (n := (c - 65536)%N).
      assert (Hn : (n < 1048576)%N) by (unfold n; lia).
      assert (Hq : (n / 1024 < 1024)%N) by (apply N.Div0.div_lt_upper_bound; lia).
      assert (Hm : (n mod 1024 < 1024)%N) by (apply N.mod_lt; lia).
      assert (E1 : N.land (N.shiftr n 10) 1023 = (n / 1024)%N).
      { rewrite N.shiftr_div_pow2. change (2 ^ 10)%N with 1024%N.
        change 1023%N with (N.ones 10). rewrite N.land_ones.
        change (2 ^ 10)%N with 1024%N. now apply N.mod_small. }
      assert (E2 : N.land n 1023 = (n mod 1024)%N).
      { change 1023%N with (N.ones 10). now rewrite N.land_ones. }
      rewrite E1, E2.
      rewrite (proj1 (lor_surrogate_base _ Hq)), (proj2 (lor_surrogate_base _ Hm)).
      cbn [hex4_chars app].
      rewrite (scanstring_pair _ _ _ _ _ _ _ _ (55296 + n / 1024) (56320 + n mod 1024)).
      * f_equal. unfold join_surrogates.
        pose proof (N.Div0.div_mod n 1024). unfold n in *. lia.
      * apply hex4_hex4_chars; [lia|reflexivity].
      * unfold is_high_surrogate. apply andb_true_iff. split; apply N.leb_le; lia.
      * apply hex4_hex4_chars; [lia|reflexivity].
      * unfold is_low_surrogate. apply andb_true_iff. split; apply N.leb_le; lia.
  - destruct (N.ltb_spec c 65536) as [Hlt|Hge]; [|lia].
    cbn [app]. apply scanstring_u; [now apply hex4_hex4_chars|].
    unfold is_high_surrogate. apply andb_false_iff. left. apply N.leb_gt. lia.
Qed.

(** Reading a string written with [ensure_ascii=True] gives it back,
    when it holds no surrogate. *)
Lemma scanstring_ascii_encoded (s rest : str) :
  Forall scalar s ->
  scanstring (flat_map escape_char_ascii s ++ 34%N :: rest) = Some (s, rest).
Proof.
  induction 1 as [|c s Hc _ IH]; [reflexivity|].
  cbn [flat_map]. rewrite <- app_assoc, scanstring_escape_ascii, IH by assumption.
  reflexivity.
Qed.

Section AssistantFile.
Context {F : PyFloat} {L : LaxInt F} {B : FloatBool F}.

(** An object with one entry whose value is a string, as the default
    settings write it. *)
Lemma parse_object_one_string (fuel : nat) (key value t : str) :
  Forall scalar key -> Forall scalar value ->
  parse_object (S (S fuel))
    (encode_basestring_ascii key ++ lit ": " ++ encode_basestring_ascii value
     ++ 125%N :: t) []
  = Some (JDict [(key, JStr value)], t).
Proof.
  intros Hkey Hvalue. unfold encode_basestring_ascii.
  change (lit ": ") with [58%N; 32%N].
  rewrite <- !app_comm_cons, <- !app_assoc. cbn [app].
  assert (Hcolon : forall r : str, skip_ws (58%N :: r) = 58%N :: r) by reflexivity.
  assert (Hspace : forall r : str, skip_ws (32%N :: r) = skip_ws r) by reflexivity.
  assert (Hquote : forall r : str, skip_ws (34%N :: r) = 34%N :: r) by reflexivity.
  assert (Hbrace : forall r : str, skip_ws (125%N :: r) = 125%N :: r) by reflexivity.
  cbn [parse_object]. change (34 =? 34)%N with true. cbv iota.
  rewrite (scanstring_ascii_encoded key
             (58%N :: 32%N :: 34%N :: flat_map escape_char_ascii value
              ++ 34%N :: 125%N :: t) Hkey).
  rewrite Hcolon. change (58 =? 58)%N with true. cbv iota.
  rewrite Hspace, Hquote.
  cbn [scan_once]. change (34 =? 34)%N with true. cbv iota.
  rewrite (scanstring_ascii_encoded value (125%N :: t) Hvalue).
  rewrite Hbrace. change (125 =? 125)%N with true. cbv iota. reflexivity.
Qed.

(** The file the bootstrap writes is read back as the object it was
    written from. *)
Lemma json_loads_assistant_file (assistant_id : str) :
  Forall scalar assistant_id ->
  json_loads (assistant_file_text assistant_id)
  = Some (JDict [(lit "assistant_id", JStr assistant_id)]).
Proof.
  intros Hid. unfold assistant_file_text, json_loads.
  cbn [iterencode_default map join fst snd].
  change (lit "{") with [123%N]. change (lit "}") with [125%N].
  rewrite <- !app_assoc. cbn [app].
  set (body := encode_basestring_ascii (lit "assistant_id") ++ _).
  assert (Hbody : exists r, body = 34%N :: r) by (eexists; reflexivity).
  destruct Hbody as [r Hr].
  change (startswith (123%N :: body) [65279%N]) with false. cbv iota.
  change (skip_ws (123%N :: body)) with (123%N :: body).
  cbn [length]. rewrite Hr at 1. cbn [length]. rewrite !Nat.mul_succ_r. 
  rewrite !Nat.add_succ_r. cbn [scan_once].
  change (123 =? 34)%N with false. change (123 =? 123)%N with true. cbv iota.
  rewrite Hr at 1. cbn [skip_ws]. change (is_ws 34%N) with false. cbv iota.
  change (34 =? 125)%N with false. cbv iota. rewrite <- Hr. unfold body.
  rewrite parse_object_one_string.
  - reflexivity.
  - apply Forall_forall. intros c Hc. unfold scalar.
    assert (Hall : forallb (fun c => c <? 55296)%N (lit "assistant_id") = true)
      by (vm_compute; reflexivity).
    rewrite forallb_forall in Hall. left. apply N.ltb_lt, Hall.
    now apply list_elem_of_In.
  - exact Hid.
Qed.

End AssistantFile.

(** ** [00_bootstrap.py] *)

Section BootstrapFacts.
Context {F : PyFloat} {L : LaxInt F} {B : FloatBool F}.

(** The upload loop, when every file can be read and every upload is
    answered. *)
Lemma upload_run (E : env) (names : list str) :
  forall (file_ids new_ids : list str) (st : state),
    Forall (fun name => unreadable E (lit "data/" ++ name) = false) names ->
    uploads_answered E (length file_ids) new_ids ->
    length new_ids = length names ->
    upload E names file_ids st
    = (Returns (file_ids ++ new_ids),
       extend st (upload_lines names new_ids) (upload_requests names)).
Proof.
  induction names as [|name names IH]; intros file_ids new_ids st Hread Hans Hlen.
  - destruct new_ids; [|discriminate]. cbn [upload ret].
    change (upload_lines [] []) with (@nil line).
    change (upload_requests []) with (@nil api_call).
    now rewrite app_nil_r, extend_nil.
  - destruct new_ids as [|file_id new_ids]; [discriminate|].
    apply Forall_cons in Hread. destruct Hread as [Hname Hread].
    cbn [upload]. rewrite bind_eq, print_extend, bind_eq, Hname.
    cbn [ret]. rewrite bind_eq, request_extend.
    rewrite <- (Nat.add_0_r (length file_ids)), (Hans 0%nat file_id eq_refl).
    rewrite bind_eq, print_extend, !extend_extend.
    rewrite (IH (file_ids ++ [file_id]) new_ids).
    + rewrite extend_extend, <- app_assoc. reflexivity.
    + exact Hread.
    + intros i x Hi. rewrite length_app. cbn [length].
      replace (length file_ids + 1 + i)%nat with (length file_ids + S i)%nat by lia.
      apply Hans. exact Hi.
    + simpl in Hlen. lia.
Qed.

(** The steps through [Bootstrap.main]. *)
Ltac boot_steps :=
  repeat first
    [ rewrite bind_eq | rewrite print_extend | rewrite request_extend
    | rewrite extend_extend | progress cbn [ret raise get negb]
    | progress unfold try_except, unlink ].

(** [Bootstrap.main] up to the request for the assistant on file. *)
Ltac enter_bootstrap Hclient Hfile Hread Htext :=
  unfold Bootstrap.main, OpenAI; rewrite Hclient;
  rewrite bind_eq; cbn [ret]; rewrite bind_eq; unfold path_exists;
  rewrite bool_decide_eq_true_2 by (rewrite Hfile; eauto);
  rewrite bind_eq, bind_eq; unfold read_text; rewrite Hfile, Hread;
  rewrite bind_eq; unfold json_load; rewrite Htext; boot_steps.

(** X21. When the assistant on file can be retrieved, the bootstrap
    uploads nothing, creates nothing and writes nothing: its one
    request is the [retrieve]. *)
Theorem bootstrap_reuses_assistant (E : env) (st : state) (text : str)
    (d : list (str * json)) :
  on_client E = None ->
  disk st !! assistant_id_json = Some (Complete text) ->
  unreadable E assistant_id_json = false ->
  json_loads text = Some (JDict d) ->
  on_assistants_retrieve E = inr tt ->
  Bootstrap.main E st
  = (Returns tt,
     extend st
       [UsingExistingAssistant (default JNull (dict_get d (lit "assistant_id")));
        BootstrapComplete]
       [assistants_retrieve (default JNull (dict_get d (lit "assistant_id")))]).
Proof.
  intros Hclient Hfile Hread Htext Hretrieve.
  enter_bootstrap Hclient Hfile Hread Htext.
  rewrite Hretrieve. boot_steps. reflexivity.
Qed.

(** A first run of the bootstrap, when everything succeeds. *)
Lemma bootstrap_create_run (E : env) (st : state) (name : str)
    (names file_ids : list str) (assistant_id : str) :
  on_client E = None ->
  disk st !! assistant_id_json = None ->
  pdf_files E = name :: names ->
  Forall (fun name => unreadable E (lit "data/" ++ name) = false) (name :: names) ->
  uploads_answered E 0 file_ids ->
  length file_ids = length (name :: names) ->
  on_assistants_create E = inr assistant_id ->
  io E = NoFault ->
  Bootstrap.main E st
  = (Returns tt,
     {| stdout := stdout st ++ upload_lines (name :: names) file_ids
                  ++ [CreatedNewAssistant assistant_id;
                      AssistantCreatedWith (length file_ids);
                      BootstrapComplete];
        disk := <[assistant_id_json := Complete (assistant_file_text assistant_id)]>
                  (disk st);
        written := written st ++ [assistant_id_json];
        requests := requests st ++ upload_requests (name :: names)
                    ++ [assistants_create (lit "Study Q&A Assistant") (lit "gpt-4o-mini")
                          file_ids] |}).
Proof.
  intros Hclient Hfile Hpdf Hread Hans Hlen Hcreate Hio.
  unfold Bootstrap.main, OpenAI. rewrite Hclient.
  rewrite bind_eq. cbn [ret]. rewrite bind_eq. unfold path_exists.
  rewrite bool_decide_eq_false_2 by (rewrite Hfile; intros [x Hx]; discriminate).
  rewrite bind_eq. cbn [ret negb]. rewrite Hpdf.
  rewrite bind_eq, (upload_run E (name :: names) [] file_ids) by assumption.
  cbn [app]. rewrite bind_eq, request_extend, Hcreate, extend_extend.
  rewrite bind_eq. unfold dump_to. rewrite Hio.
  rewrite bind_eq, print_extend, bind_eq, print_extend, print_extend.
  unfold extend, assistant_file_text. cbn [stdout disk written requests].
  rewrite !app_nil_r, <- !app_assoc. reflexivity.
Qed.

(** X22. When the assistant on file cannot be retrieved the file is
    deleted before the PDF files are looked for: with no PDF file the
    run ends without an assistant file, and without the closing line. *)
Theorem bootstrap_drops_stale_assistant (E : env) (st : state) (text : str)
    (d : list (str * json)) (e : py_error) :
  on_client E = None ->
  disk st !! assistant_id_json = Some (Complete text) ->
  unreadable E assistant_id_json = false ->
  json_loads text = Some (JDict d) ->
  on_assistants_retrieve E = inl e ->
  pdf_files E = [] ->
  Bootstrap.main E st
  = (Returns tt,
     {| stdout := stdout st
                  ++ [UsingExistingAssistant (default JNull (dict_get d (lit "assistant_id")));
                      ErrorRetrievingAssistant e; CreatingNewAssistant; NoPDFFilesFound];
        disk := delete assistant_id_json (disk st);
        written := written st;
        requests := requests st
                    ++ [assistants_retrieve
                          (default JNull (dict_get d (lit "assistant_id")))] |}).
Proof.
  intros Hclient Hfile Hread Htext Hretrieve Hpdf.
  enter_bootstrap Hclient Hfile Hread Htext.
  rewrite Hretrieve. boot_steps. rewrite Hpdf. boot_steps.
  unfold extend. cbn [stdout disk written requests app].
  rewrite <- !app_assoc. reflexivity.
Qed.

(** X23. A first run with PDF files uploads them in order, creates the
    assistant with the file ids in that order, and writes the
    assistant id as a one-key JSON object into [assistant_id.json]. *)
Theorem bootstrap_creates_assistant (E : env) (st : state) (name : str)
    (names file_ids : list str) (assistant_id : str) :
  on_client E = None ->
  disk st !! assistant_id_json = None ->
  pdf_files E = name :: names ->
  Forall (fun name => unreadable E (lit "data/" ++ name) = false) (name :: names) ->
  uploads_answered E 0 file_ids ->
  length file_ids = length (name :: names) ->
  on_assistants_create E = inr assistant_id ->
  io E = NoFault ->
  Bootstrap.main E st
  = (Returns tt,
     {| stdout := stdout st ++ upload_lines (name :: names) file_ids
                  ++ [CreatedNewAssistant assistant_id;
                      AssistantCreatedWith (length file_ids);
                      BootstrapComplete];
        disk := <[assistant_id_json := Complete (assistant_file_text assistant_id)]>
                  (disk st);
        written := written st ++ [assistant_id_json];
        requests := requests st ++ upload_requests (name :: names)
                    ++ [assistants_create (lit "Study Q&A Assistant") (lit "gpt-4o-mini")
                          file_ids] |}).
Proof. apply bootstrap_create_run. Qed.

(** X24. What the bootstrap writes, [get_assistant_id] reads back: after
    a first run that created the assistant, the id it returns is the id
    the service gave, for every id that holds no surrogate code
    point. *)
Theorem bootstrap_then_get_assistant_id (E E' : env) (st : state) (name : str)
    (names file_ids : list str) (assistant_id : str) :
  on_client E = None ->
  disk st !! assistant_id_json = None ->
  pdf_files E = name :: names ->
  Forall (fun name => unreadable E (lit "data/" ++ name) = false) (name :: names) ->
  uploads_answered E 0 file_ids ->
  length file_ids = length (name :: names) ->
  on_assistants_create E = inr assistant_id ->
  io E = NoFault ->
  Forall scalar assistant_id ->
  unreadable E' assistant_id_json = false ->
  get_assistant_id E' (Bootstrap.main E st).2
  = (Returns (JStr assistant_id), (Bootstrap.main E st).2).
Proof.
  intros Hclient Hfile Hpdf Hread Hans Hlen Hcreate Hio Hid Hread'.
  rewrite (bootstrap_create_run E st name names file_ids assistant_id) by assumption.
  cbn [snd].
  match goal with |- get_assistant_id E' ?s = _ => pose proof (get_assistant_id_run E' s) as Hrun end.
  cbn [disk] in Hrun. rewrite lookup_insert_eq in Hrun.
  rewrite Hread', json_loads_assistant_file in Hrun by assumption.
  cbn [dict_get] in Hrun. rewrite bool_decide_eq_true_2 in Hrun by reflexivity.
  exact Hrun.
Qed.

(** *** What the bootstrap writes *)

Lemma writes_only_unlink (path : str) : writes_only path (unlink path).
Proof.
  intros st. unfold unlink. cbn [snd]. split.
  - intros p Hp. cbn [disk]. now rewrite lookup_delete_ne.
  - exists []. cbn [written]. split; [now rewrite app_nil_r|constructor].
Qed.

Lemma writes_only_dump_to (E : env) (path : str) (obj : json) :
  writes_only path (dump_to E path obj).
Proof.
  intros st. unfold dump_to.
  destruct (io E); cbn [snd]; (split;
    [ intros p Hp; cbn [disk]; try reflexivity; now rewrite lookup_insert_ne
    | exists [path]; cbn [written]; split; [reflexivity|repeat constructor] ]).
Qed.

Lemma writes_only_upload (path : str) (E : env) (names : list str) :
  forall file_ids, writes_only path (upload E names file_ids).
Proof.
  induction names as [|name names IH]; intros file_ids; cbn [upload].
  - apply writes_only_ret.
  - repeat first
      [ apply IH | apply writes_only_ret | apply writes_only_raise
      | apply writes_only_print | apply writes_only_request
      | apply writes_only_bind; [|intros ?]
      | match goal with
        | |- writes_only _ (if ?b then _ else _) => destruct b
        end ].
Qed.

(** X25. Whatever the service answers, the bootstrap opens for writing
    nothing but [assistant_id.json], and every other path holds
    afterwards what it held before. *)
Theorem bootstrap_writes_assistant_file_only (E : env) (st : state) :
  (forall path, path <> assistant_id_json ->
     disk (Bootstrap.main E st).2 !! path = disk st !! path)
  /\ exists paths, written (Bootstrap.main E st).2 = written st ++ paths
                   /\ Forall (fun p => p = assistant_id_json) paths.
Proof.
  revert st. change (writes_only assistant_id_json (Bootstrap.main E)).
  unfold Bootstrap.main, OpenAI.
  repeat first
    [ apply writes_only_unlink | apply writes_only_dump_to | apply writes_only_upload
    | apply writes_only_ret | apply writes_only_raise | apply writes_only_print
    | apply writes_only_request | apply writes_only_path_exists
    | apply writes_only_read_text | apply writes_only_json_load | apply writes_only_get
    | apply writes_only_bind; [|intros ?]
    | apply writes_only_try_except; [|intros ?]
    | match goal with
      | |- writes_only _ (if ?b then _ else _) => destruct b
      | |- writes_only _ (match ?x with _ => _ end) => destruct x
      end ].
Qed.

End BootstrapFacts.

(** ** The test suite *)

Section TestFacts.
Context {F : PyFloat} {L : LaxInt F}.


End TestFacts.

(** ** The properties on the sample environments *)

Lemma failure_diagnostics_witness :
  RawResponse (take 500 (lit "not json at all"))
  ∈ console (validate_and_save_notes NoFault (lit "not json at all") exam_notes_json ∅).
Proof.
  apply (proj1 (failure_diagnostics NoFault (lit "not json at all") exam_notes_json ∅)).
  vm_compute. reflexivity.
Defined.

Lemma other_paths_untouched_witness :
  files (validate_and_save_notes NoFault (notes_text ten_ids) exam_notes_json sample_disk)
  !! assistant_id_json = sample_disk !! assistant_id_json.
Proof.
  apply (proj1 (other_paths_untouched NoFault (notes_text ten_ids) exam_notes_json
                  sample_disk)).
  intros H. vm_compute in H. discriminate.
Defined.

(** The runs the sample service shows. *)
Lemma sample_shows (typed later : string) (messages : list API.Message)
    (retrieved : py_error + unit) (pdfs : list str) :
  shows (sample_env_with typed later messages retrieved pdfs)
    ([sample_run "queued"; sample_run "in_progress"] ++ [sample_run later]).
Proof.
  split.
  - intros run [= <-]. reflexivity.
  - intros [|[|n]] run H; simpl in H; try discriminate; injection H as <-; reflexivity.
Qed.

Lemma sample_waiting :
  Forall (fun run => waiting (API.status run) = true)
    [sample_run "queued"; sample_run "in_progress"].
Proof. repeat constructor. Qed.

Lemma assistant_run_not_completed_witness :
  (generate_notes_with_assistant (sample_env_with "1" "failed" [] (inr tt) []) 2
     (JStr (lit "asst_1")) (start ∅)).1 = Returns None.
Proof.
  rewrite (assistant_run_not_completed (sample_env_with "1" "failed" [] (inr tt) []) 2
             (JStr (lit "asst_1")) (start ∅) sample_thread
             [sample_run "queued"; sample_run "in_progress"] (sample_run "failed")).
  - reflexivity.
  - reflexivity.
  - reflexivity.
  - apply sample_shows.
  - apply sample_waiting.
  - reflexivity.
  - intros H. vm_compute in H. discriminate.
  - simpl. lia.
Defined.

Lemma assistant_run_completed_witness :
  (generate_notes_with_assistant (sample_env "1") 2 (JStr (lit "asst_1")) (start ∅)).1
  = Returns (Some (notes_text ten_ids)).
Proof.
  rewrite (assistant_run_completed (sample_env "1") 2 (JStr (lit "asst_1")) (start ∅)
             sample_thread [sample_run "queued"; sample_run "in_progress"]
             (sample_run "completed") [user_message] assistant_message []).
  - reflexivity.
  - reflexivity.
  - reflexivity.
  - apply sample_shows.
  - apply sample_waiting.
  - reflexivity.
  - simpl. lia.
  - reflexivity.
  - repeat constructor. intros H. vm_compute in H. discriminate.
  - reflexivity.
Defined.

Lemma assistant_run_completed_without_reply_witness :
  (generate_notes_with_assistant
     (sample_env_with "1" "completed" [user_message] (inr tt) []) 2
     (JStr (lit "asst_1")) (start ∅)).1 = Returns None.
Proof.
  rewrite (assistant_run_completed_without_reply
             (sample_env_with "1" "completed" [user_message] (inr tt) []) 2
             (JStr (lit "asst_1")) (start ∅) sample_thread
             [sample_run "queued"; sample_run "in_progress"] (sample_run "completed")
             [user_message]).
  - reflexivity.
  - reflexivity.
  - reflexivity.
  - apply sample_shows.
  - apply sample_waiting.
  - reflexivity.
  - simpl. lia.
  - reflexivity.
  - repeat constructor. intros H. vm_compute in H. discriminate.
Defined.

Lemma assistant_run_never_settles_witness :
  (generate_notes_with_assistant (sample_env_with "1" "in_progress" [] (inr tt) []) 7
     (JStr (lit "asst_1")) (start ∅)).1 = OutOfFuel.
Proof.
  apply (assistant_run_never_settles (sample_env_with "1" "in_progress" [] (inr tt) [])
           (JStr (lit "asst_1")) (start ∅) sample_thread (sample_run "queued")).
  - reflexivity.
  - reflexivity.
  - reflexivity.
  - reflexivity.
  - intros [|n]; eexists; split; reflexivity.
Defined.

Lemma main_writes_exam_notes_only_witness :
  disk (main (sample_env "2") 0 (start sample_disk)).2 !! assistant_id_json
  = sample_disk !! assistant_id_json.
Proof.
  apply (proj1 (main_writes_exam_notes_only (sample_env "2") 0 (start sample_disk))).
  intros H. vm_compute in H. discriminate.
Defined.

Lemma main_exits_without_a_request_witness :
  main (sample_env " 3 ") 0 (start ∅)
  = (Returns tt, extend (start ∅) (menu ++ [Goodbye]) []).
Proof.
  apply (main_exits_without_a_request (sample_env " 3 ") 0 (start ∅) (lit " 3 ")).
  - reflexivity.
  - reflexivity.
  - intros H. vm_compute in H. discriminate.
  - intros H. vm_compute in H. discriminate.
Defined.

Lemma main_with_chat_witness :
  disk (main (sample_env "2") 0 (start ∅)).2 !! exam_notes_json
  = Some (Complete (json_dump (JDict (sample_notes one_to_ten)))).
Proof.
  rewrite (main_with_chat (sample_env "2") 0 (start ∅) (lit "2")).
  - vm_compute. reflexivity.
  - reflexivity.
  - reflexivity.
  - vm_compute. reflexivity.
Defined.


Lemma main_with_assistant_witness :
  disk (main (sample_env "1") 2 (start sample_disk)).2 !! exam_notes_json
  = Some (Complete (json_dump (JDict (sample_notes one_to_ten)))).
Proof.
  rewrite (main_with_assistant (sample_env "1") 2 (start sample_disk) (lit "1")
             (assistant_file_text (lit "asst_1"))
             [(lit "assistant_id", JStr (lit "asst_1"))]
             sample_thread [sample_run "queued"; sample_run "in_progress"]
             (sample_run "completed") [user_message] assistant_message []
             123%N (tail (notes_text ten_ids)) []).
  - vm_compute. reflexivity.
  - reflexivity.
  - reflexivity.
  - vm_compute. reflexivity.
  - vm_compute. reflexivity.
  - reflexivity.
  - vm_compute. reflexivity.
  - reflexivity.
  - reflexivity.
  - reflexivity.
  - apply sample_shows.
  - apply sample_waiting.
  - reflexivity.
  - simpl. lia.
  - reflexivity.
  - repeat constructor. intros H. vm_compute in H. discriminate.
  - reflexivity.
  - vm_compute. reflexivity.
Defined.

Lemma bootstrap_reuses_assistant_witness :
  Bootstrap.main (sample_env "") (start sample_disk)
  = (Returns tt,
     extend (start sample_disk)
       [UsingExistingAssistant (JStr (lit "asst_1")); BootstrapComplete]
       [assistants_retrieve (JStr (lit "asst_1"))]).
Proof.
  apply (bootstrap_reuses_assistant (sample_env "") (start sample_disk)
           (assistant_file_text (lit "asst_1"))
           [(lit "assistant_id", JStr (lit "asst_1"))]).
  - reflexivity.
  - vm_compute. reflexivity.
  - reflexivity.
  - vm_compute. reflexivity.
  - reflexivity.
Defined.

Lemma sample_uploads_answered (typed later : string) (messages : list API.Message)
    (retrieved : py_error + unit) (pdfs : list str) :
  uploads_answered (sample_env_with typed later messages retrieved pdfs) 0 [lit "file-1"].
Proof. intros [|i] file_id H; [injection H as <-; reflexivity|discriminate]. Qed.

Lemma bootstrap_creates_assistant_witness :
  disk (Bootstrap.main (sample_env "") (start ∅)).2 = sample_disk.
Proof.
  rewrite (bootstrap_creates_assistant (sample_env "") (start ∅) (lit "course.pdf") []
             [lit "file-1"] (lit "asst_1")).
  - reflexivity.
  - reflexivity.
  - reflexivity.
  - reflexivity.
  - repeat constructor.
  - apply sample_uploads_answered.
  - reflexivity.
  - reflexivity.
  - reflexivity.
Defined.

Lemma bootstrap_drops_stale_assistant_witness :
  disk (Bootstrap.main
          (sample_env_with "" "completed" []
             (inl (OpenAIError (lit "No assistant found"))) [])
          (start sample_disk)).2 !! assistant_id_json = None.
Proof.
  rewrite (bootstrap_drops_stale_assistant
             (sample_env_with "" "completed" []
                (inl (OpenAIError (lit "No assistant found"))) [])
             (start sample_disk) (assistant_file_text (lit "asst_1"))
             [(lit "assistant_id", JStr (lit "asst_1"))]
             (OpenAIError (lit "No assistant found"))).
  - vm_compute. reflexivity.
  - reflexivity.
  - vm_compute. reflexivity.
  - reflexivity.
  - vm_compute. reflexivity.
  - reflexivity.
  - reflexivity.
Defined.

Lemma bootstrap_then_get_assistant_id_witness :
  (get_assistant_id (sample_env "1") (Bootstrap.main (sample_env "") (start ∅)).2).1
  = Returns (JStr (lit "asst_1")).
Proof.
  rewrite (bootstrap_then_get_assistant_id (sample_env "") (sample_env "1") (start ∅)
             (lit "course.pdf") [] [lit "file-1"] (lit "asst_1")).
  - reflexivity.
  - reflexivity.
  - reflexivity.
  - reflexivity.
  - repeat constructor.
  - apply sample_uploads_answered.
  - reflexivity.
  - reflexivity.
  - reflexivity.
  - repeat (constructor; [left; reflexivity|]). constructor.
  - reflexivity.
Defined.

Lemma bootstrap_writes_assistant_file_only_witness :
  disk (Bootstrap.main (sample_env "") (start ∅)).2 !! exam_notes_json
  = (∅ : gmap str file) !! exam_notes_json.
Proof.
  apply (proj1 (bootstrap_writes_assistant_file_only (sample_env "") (start ∅))).
  intros H. vm_compute in H. discriminate.
Defined.

Lemma main_raises_only_under_option_1_witness :
  on_client (sample_env "1") = Some (Exn JSONDecodeError)
  \/ (stdin (sample_env "1") = None /\ Exn JSONDecodeError = EOFError)
  \/ exists typed, stdin (sample_env "1") = Some typed /\ strip typed = lit "1".
Proof.
  apply (main_raises_only_under_option_1 (sample_env "1") 2
           (start {[ assistant_id_json := Complete (lit "not json") ]})
           (Exn JSONDecodeError)).
  left. vm_compute. reflexivity.
Defined.
